(** * NetworkMap: the D3 network map of the delivery simulation

    A shallow embedding of [map.js] (class [NetworkMap]): the snapshot
    data model, the keyed data joins that reconcile the drawn elements
    with each snapshot, the visual encodings of nodes and edges, the
    simulation-time position of the flow particles, and the hover and
    selection state with the tooltip and the details panel.

    Conventions.
    - A JavaScript number is an exact rational ([Q]); rounding of
      doubles is not modelled.  [Math.atan2], [Math.cos] and [Math.sin]
      leave the rationals, so a rendered particle position is a pair of
      reals.
    - An optional field of a JSON object is an [option]; [x || d] reads
      it with the JavaScript notion of falsy ([undefined], [null], [0],
      the empty string, [false]).  The [state] of a node is a free-form
      object.  A field of it that is present holds a value of the type
      the snapshot schema gives it, or a value on which the code throws
      a [TypeError] because it calls a method the value does not have
      ([toFixed] on what is not a number, [length] on [null]).  These
      errors are modelled; what the code draws from a value of another
      type where nothing is thrown (a string concatenated to a sum,
      say) is not.  [supplier_relationships], when it is an object,
      maps supplier ids to metrics.
    - [d3.geoAlbersUsa] is a parameter: a partial map from (lon, lat) to
      surface coordinates, [None] where d3 returns [null].
    - The DOM below the map holds four independent layers of elements
      (edge lines, flow circles, node groups, labels); each element
      carries its bound datum and the attributes that depend on data.
      Attributes set to a constant when an element is created (class,
      the colour and radius of a flow circle, font size) are left out,
      and so are event handlers, which are re-attached on every render.
    - HTML text is kept as the sequence of its template instances, each
      with the interpolated values before number formatting.
    - A string is a sequence of 8-bit characters; ids and names are
      taken to be ASCII.
    - Not modelled: the state boundaries ([loadUSStates],
      [renderStates]) and zoom, which change neither the data nor the
      joins, the size of the svg element, and the position of the
      tooltip on the page. *)

From Stdlib Require Import Ascii String QArith Qreals Reals Lra Lqa Lia ZArith Sorted.
From stdpp Require Import gmap strings list.

Local Open Scope Q_scope.

(** ** JavaScript values *)

Module JS.

(** Truthiness of a number: [0] is falsy. *)
Definition truthy (x : Q) : bool := negb (Qeq_bool x 0).

(** [x || d] where [x] is an optional number. *)
Definition or_num (x : option Q) (d : Q) : Q :=
  match x with
  | Some q => if truthy q then q else d
  | None => d
  end.

(** [x || d] where [x] is an optional string: the empty string is falsy. *)
Definition or_str (x : option string) (d : string) : string :=
  match x with
  | Some EmptyString => d
  | Some s => s
  | None => d
  end.

(** [x || d] where [x] is an optional array or object (truthy whenever
    present). *)
Definition or_else {A : Type} (x : option A) (d : A) : A :=
  match x with
  | Some a => a
  | None => d
  end.

(** [a > b]. *)
Definition gt (a b : Q) : bool :=
  match a ?= b with
  | Gt => true
  | _ => false
  end.

(** [a >= b]. *)
Definition ge (a b : Q) : bool :=
  match a ?= b with
  | Lt => false
  | _ => true
  end.

(** [Math.max(a, b)] and [Math.min(a, b)]. *)
Definition max (a b : Q) : Q := if gt b a then b else a.
Definition min (a b : Q) : Q := if gt a b then b else a.

(** [array.find(pred)]. *)
Fixpoint find {A : Type} (pred : A -> bool) (l : list A) : option A :=
  match l with
  | [] => None
  | x :: l' => if pred x then Some x else find pred l'
  end.

(** The outcome of a call: it returns, or it throws a [TypeError]. *)
Inductive outcome (A : Type) : Type :=
| Ok (a : A)
| Throw.
Arguments Ok {A} a.
Arguments Throw {A}.

End JS.

(** ** The keyed data join of d3-selection

    [map.js] draws every layer with the same chain:
    [selectAll(..).data(data, key)], [enter().append(..)], [merge], the
    attribute setters and [exit().remove()].  d3 is a library that
    [map.js] imports; the model follows the algorithm of its [bindKey]:
    a map from key to the first element that carries it; every datum
    takes the element of its key out of the map or enters; elements
    left in the map, and elements whose key was already taken by an
    earlier element, exit.  An element that enters is inserted before
    the next element that is updated, as d3's enter nodes do. *)

Record Elem (D A : Type) : Type := {
  datum : D;
  attrs : A
}.
Arguments datum {D A} e.
Arguments attrs {D A} e.

(** An element during one render: an element of the previous group, by
    its index there, or one created for the datum at an index. *)
Inductive tag : Type :=
| Old (j : nat)
| New (i : nat).

(** The DOM operations a render performs on the element layers. *)
Inductive Layer : Type := Lines | Flows | Groups | Labels.

Inductive Op : Type :=
| Create (l : Layer) (k : string)
| Destroy (l : Layer) (k : string).

Section Join.

Context {D A : Type}.
Variable key : D -> string.

(** First loop of [bindKey]: [nodeByKeyValue], built over the group from
    index [j] on; an element whose key is present already is skipped. *)
Fixpoint nodeByKeyValue (j : nat) (group : list (Elem D A)) (m : gmap string nat)
  : gmap string nat :=
  match group with
  | [] => m
  | e :: g =>
      let k := key (datum e) in
      nodeByKeyValue (S j) g
        (match m !! k with
         | Some _ => m
         | None => <[k := j]> m
         end)
  end.

(** Second loop: for each datum the element it updates ([Some j]) or
    [None] when it enters; the map is returned with the keys that were
    taken removed. *)
Fixpoint bindData (data : list D) (m : gmap string nat)
  : list (option nat) * gmap string nat :=
  match data with
  | [] => ([], m)
  | d :: ds =>
      match m !! key d with
      | Some j =>
          let '(u, m') := bindData ds (delete (key d) m) in (Some j :: u, m')
      | None =>
          let '(u, m') := bindData ds m in (None :: u, m')
      end
  end.

(** The three selections of a join. *)
Record Bound : Type := {
  updateGroup : list (option nat);   (* per datum: the element it is bound to *)
  exitGroup : list bool              (* per element of the group: it exits *)
}.

(** The keys of a group: each element is keyed by its bound datum. *)
Definition groupKeys (group : list (Elem D A)) : list string :=
  (fun e => key (datum e)) <$> group.

(** An element exits when an earlier element had its key (first loop) or
    when it is still in the map after the data were bound (third loop). *)
Definition exits (m1 mf : gmap string nat) (j : nat) (e : Elem D A) : bool :=
  let k := key (datum e) in
  negb (bool_decide (m1 !! k = Some j)) || bool_decide (mf !! k = Some j).

Definition bindKey (group : list (Elem D A)) (data : list D) : Bound :=
  let m1 := nodeByKeyValue 0 group ∅ in
  let '(u, mf) := bindData data m1 in
  {| updateGroup := u; exitGroup := imap (exits m1 mf) group |}.

(** The enter and exit selections as data. *)
Definition entering (group : list (Elem D A)) (data : list D) : list D :=
  omap (fun '(d, u) => match u with None => Some d | Some _ => None end)
       (zip data (updateGroup (bindKey group data))).

Definition exiting (group : list (Elem D A)) (data : list D) : list (Elem D A) :=
  omap (fun '(e, b) => if b : bool then Some e else None)
       (zip group (exitGroup (bindKey group data))).

(** [_next] of an enter node: the first update node after it. *)
Fixpoint next_update (u : list (option nat)) : option nat :=
  match u with
  | [] => None
  | Some j :: _ => Some j
  | None :: u' => next_update u'
  end.

(** [parent.insertBefore(x, next)] where [next] is the old element [j]. *)
Fixpoint insertBefore (j : nat) (x : tag * Elem D A) (dom : list (tag * Elem D A))
  : list (tag * Elem D A) :=
  match dom with
  | [] => [x]
  | (Old j', e) :: dom' =>
      if Nat.eqb j j' then x :: (Old j', e) :: dom'
      else (Old j', e) :: insertBefore j x dom'
  | y :: dom' => y :: insertBefore j x dom'
  end.

(** [enter().append(..)]: each entering datum gets a new element with
    the attributes [init] gives it, placed before its [_next] or at the
    end of the parent. *)
Fixpoint appendEnter (init : D -> A) (i : nat) (data : list D) (u : list (option nat))
    (dom : list (tag * Elem D A)) : list (tag * Elem D A) :=
  match data, u with
  | d :: ds, None :: u' =>
      let x := (New i, {| datum := d; attrs := init d |}) in
      appendEnter init (S i) ds u'
        (match next_update u' with
         | Some j => insertBefore j x dom
         | None => dom ++ [x]
         end)
  | _ :: ds, Some _ :: u' => appendEnter init (S i) ds u' dom
  | _, _ => dom
  end.

(** The datum an old element was bound to in the second loop
    ([node.__data__ = data[i]]), with its index. *)
Fixpoint boundTo (j : nat) (i : nat) (data : list D) (u : list (option nat))
  : option (nat * D) :=
  match data, u with
  | d :: ds, Some j' :: u' => if Nat.eqb j j' then Some (i, d) else boundTo j (S i) ds u'
  | _ :: ds, None :: u' => boundTo j (S i) ds u'
  | _, _ => None
  end.

(** One element after the render.  [style i d a] are the attributes the
    setters leave on the element of datum [d] (at index [i] of the
    data) whose attributes were [a]; an exiting element is removed when
    [remove] holds and left as it is otherwise. *)
Definition rendered (style : nat -> D -> A -> A) (remove : bool) (data : list D)
    (u : list (option nat)) (x : tag * Elem D A) : option (Elem D A) :=
  match x with
  | (New i, e) =>
      Some {| datum := datum e; attrs := style i (datum e) (attrs e) |}
  | (Old j, e) =>
      match boundTo j 0 data u with
      | Some (i, d) => Some {| datum := d; attrs := style i d (attrs e) |}
      | None => if remove then None else Some e
      end
  end.

(** The layer after a whole render. *)
Definition reconcile (init : D -> A) (style : nat -> D -> A -> A) (remove : bool)
    (group : list (Elem D A)) (data : list D) : list (Elem D A) :=
  let u := updateGroup (bindKey group data) in
  let dom := appendEnter init 0 data u (imap (fun j e => (Old j, e)) group) in
  omap (rendered style remove data u) dom.

(** The operations of a render on layer [l]. *)
Definition creates (l : Layer) (group : list (Elem D A)) (data : list D) : list Op :=
  (fun d => Create l (key d)) <$> entering group data.

Definition destroys (l : Layer) (group : list (Elem D A)) (data : list D) : list Op :=
  (fun e => Destroy l (key (datum e))) <$> exiting group data.

End Join.

(** ** Snapshot data *)

Module Location.
Record t : Type := {
  lat : Q;
  lon : Q;
  city : string;
  state : string
}.
End Location.

(** One entry of a distributor's [supplier_relationships]. *)
Module Metrics.
Record t : Type := {
  orders_delivered : Q;
  on_time_rate : Q
}.
End Metrics.

(** The values a node's free-form [state] object holds: numbers,
    strings, booleans, arrays, of which only the length is read, the
    object of the supplier relationships, other objects, and [null]. *)
Module Value.
Inductive t : Type :=
| Num (q : Q)
| Str (s : string)
| Bool (b : bool)
| Arr (length : nat)
| Rels (r : list (string * Metrics.t))
| Obj
| Null.
End Value.

Module SourcingPolicy.
Record t : Type := { type : option string }.
End SourcingPolicy.

Module Properties.
Record t : Type := { sourcing_policy : option SourcingPolicy.t }.
End Properties.

Module Node.
Record t : Type := {
  id : string;
  type : string;
  name : string;
  location : Location.t;
  state : list (string * Value.t);
  properties : option Properties.t
}.
End Node.

Module Delivery.
Record t : Type := {
  order_id : string;
  start_time : option Q;
  duration : option Q
}.
End Delivery.

Module Edge.
Record t : Type := {
  from : string;
  to : string;
  edge_type : string;
  active_orders : Q;
  deliveries : option (list Delivery.t)
}.
End Edge.

(** The datum of a flow circle. *)
Module Particle.
Record t : Type := {
  edge : Edge.t;
  delivery : Delivery.t;
  deliveryIndex : nat;
  key : string
}.
End Particle.

(** The argument of [update]. *)
Module Snapshot.
Record t : Type := {
  nodes : option (list Node.t);
  edges : option (list Edge.t);
  running : option bool;
  time : option Q
}.
End Snapshot.

(** ** Strings *)

Module Str.

(** [s.split(' ')[0]]: the characters before the first space. *)
Fixpoint first_word (s : string) : string :=
  match s with
  | EmptyString => EmptyString
  | String c s' => if Ascii.eqb c " "%char then EmptyString else String c (first_word s')
  end.

Fixpoint drop (n : nat) (s : string) : string :=
  match n, s with
  | S n', String _ s' => drop n' s'
  | _, _ => s
  end.

(** [s.replace(pat, '')]: the first occurrence of [pat] is removed. *)
Fixpoint remove_first (pat s : string) : string :=
  if String.prefix pat s then drop (String.length pat) s
  else match s with
       | EmptyString => EmptyString
       | String c s' => String c (remove_first pat s')
       end.

(** [s.replace('_', ' ')]: the first underscore becomes a space. *)
Fixpoint underscore_to_space (s : string) : string :=
  match s with
  | EmptyString => EmptyString
  | String c s' =>
      if Ascii.eqb c "_"%char then String " "%char s' else String c (underscore_to_space s')
  end.

(** The character class [a-zA-Z0-9]. *)
Definition alnum (c : Ascii.ascii) : bool :=
  let n := Ascii.nat_of_ascii c in
  ((48 <=? n) && (n <=? 57) || (65 <=? n) && (n <=? 90) || (97 <=? n) && (n <=? 122))%nat.

(** [s.replace(/[^a-zA-Z0-9]/g, '_')]. *)
Fixpoint sanitize (s : string) : string :=
  match s with
  | EmptyString => EmptyString
  | String c s' => String (if alnum c then c else "_"%char) (sanitize s')
  end.

End Str.

(** ** Reals: the library functions of the particle offset *)

Module Trig.

Local Open Scope R_scope.

(** [Math.atan2(y, x)]: the angle of the point (x, y), in (-PI, PI]. *)
Definition atan2 (y x : R) : R :=
  if Rlt_dec 0 x then atan (y / x)
  else if Rlt_dec x 0 then
         (if Rle_dec 0 y then atan (y / x) + PI else atan (y / x) - PI)
  else if Rlt_dec 0 y then PI / 2
  else if Rlt_dec y 0 then - (PI / 2)
  else 0.

End Trig.

(** ** What the tooltip and the details panel show *)

(** A row of a supplier list: the display name, [on_time_rate * 100],
    and the relationship it was made from. *)
Module Supplier.
Record t : Type := {
  supplierName : string;
  onTimeRate : Q;
  metrics : Metrics.t
}.
End Supplier.

(** The financial block of a manufacturing centre. *)
Module Financial.
Record t : Type := {
  revenue : Q;
  totalCosts : Q;
  profit : Q;
  profitMargin : Q
}.
End Financial.

(** The lines of the tooltip, in the order they are appended. *)
Module Tip.
Inductive line : Type :=
| Name (s : string)
| Type_ (s : string)
| Location (city state : string)
| Inventory (q : Q)
| Production (q : Q)
| PendingOrders (n : nat)
| Finance (f : Financial.t)
| OrdersPlaced (q : Q)
| Policy (s : string)
| TopSuppliers
| TopSupplier (s : Supplier.t)
| NoHistory.
End Tip.

(** The items of the panel's state list, in the order they are appended. *)
Module Item.
Inductive t : Type :=
| Finance (f : Financial.t)
| Policy (s : string)
| Suppliers
| SupplierRow (color : string) (s : Supplier.t)
| NoSupplierHistory
| Length (k : string) (n : option nat)
| Number (k : string) (q : Q)
| Text (k : string) (v : Value.t).
End Item.

(** The element [#node-details] with the texts of its children. *)
Module Panel.
Record t : Type := {
  display : string;
  name : string;
  type : string;
  location : string * string;
  stateHTML : list Item.t
}.
End Panel.

(** ** Attributes of the drawn elements *)

Module LineAttrs.
Record t : Type := {
  x1 : Q; y1 : Q; x2 : Q; y2 : Q;
  stroke : string;
  stroke_width : Q;
  stroke_opacity : Q
}.
End LineAttrs.

(** A flow circle: [(cx, cy)], unset until the first render that places it. *)
Module FlowAttrs.
Definition t : Type := option (R * R).
End FlowAttrs.

Module CircleAttrs.
Record t : Type := {
  r : Q;
  fill : string;
  stroke : string;
  stroke_width : Q
}.
End CircleAttrs.

(** A node group: the [id] of its circle, its [translate(x,y)] and the
    attributes of the circle, the last two unset until first applied. *)
Module GroupAttrs.
Record t : Type := {
  circle_id : string;
  transform : option (Q * Q);
  circle : option CircleAttrs.t
}.
End GroupAttrs.

Module LabelAttrs.
Record t : Type := {
  x : option Q;
  y : option Q;
  text : option string
}.
End LabelAttrs.

(** ** The component *)

Module NetworkMap.

(** The fields of a [NetworkMap] and, below them, the part of the
    document it draws into: the four element layers, the html of
    [#tooltip] while that element exists, and [#node-details] when the
    page has one. *)
Record t : Type := {
  nodes : list Node.t;
  edges : list Edge.t;
  hoveredNode : option Node.t;
  selectedNode : option Node.t;
  isRunning : bool;
  currentTime : Q;
  lines : list (Elem Edge.t LineAttrs.t);
  flows : list (Elem Particle.t FlowAttrs.t);
  groups : list (Elem Node.t GroupAttrs.t);
  labels : list (Elem Node.t LabelAttrs.t);
  tooltip : option (list Tip.line);
  panel : option Panel.t
}.

Definition set_snapshot (ns : list Node.t) (es : list Edge.t) (run : bool) (time : Q)
    (this : t) : t :=
  {| nodes := ns; edges := es; hoveredNode := hoveredNode this;
     selectedNode := selectedNode this; isRunning := run; currentTime := time;
     lines := lines this; flows := flows this; groups := groups this;
     labels := labels this; tooltip := tooltip this; panel := panel this |}.

Definition set_hoveredNode (h : option Node.t) (this : t) : t :=
  {| nodes := nodes this; edges := edges this; hoveredNode := h;
     selectedNode := selectedNode this; isRunning := isRunning this;
     currentTime := currentTime this;
     lines := lines this; flows := flows this; groups := groups this;
     labels := labels this; tooltip := tooltip this; panel := panel this |}.

Definition set_selectedNode (s : option Node.t) (this : t) : t :=
  {| nodes := nodes this; edges := edges this; hoveredNode := hoveredNode this;
     selectedNode := s; isRunning := isRunning this;
     currentTime := currentTime this;
     lines := lines this; flows := flows this; groups := groups this;
     labels := labels this; tooltip := tooltip this; panel := panel this |}.

Definition set_lines (l : list (Elem Edge.t LineAttrs.t)) (this : t) : t :=
  {| nodes := nodes this; edges := edges this; hoveredNode := hoveredNode this;
     selectedNode := selectedNode this; isRunning := isRunning this;
     currentTime := currentTime this;
     lines := l; flows := flows this; groups := groups this;
     labels := labels this; tooltip := tooltip this; panel := panel this |}.

Definition set_flows (l : list (Elem Particle.t FlowAttrs.t)) (this : t) : t :=
  {| nodes := nodes this; edges := edges this; hoveredNode := hoveredNode this;
     selectedNode := selectedNode this; isRunning := isRunning this;
     currentTime := currentTime this;
     lines := lines this; flows := l; groups := groups this;
     labels := labels this; tooltip := tooltip this; panel := panel this |}.

Definition set_groups (l : list (Elem Node.t GroupAttrs.t)) (this : t) : t :=
  {| nodes := nodes this; edges := edges this; hoveredNode := hoveredNode this;
     selectedNode := selectedNode this; isRunning := isRunning this;
     currentTime := currentTime this;
     lines := lines this; flows := flows this; groups := l;
     labels := labels this; tooltip := tooltip this; panel := panel this |}.

Definition set_labels (l : list (Elem Node.t LabelAttrs.t)) (this : t) : t :=
  {| nodes := nodes this; edges := edges this; hoveredNode := hoveredNode this;
     selectedNode := selectedNode this; isRunning := isRunning this;
     currentTime := currentTime this;
     lines := lines this; flows := flows this; groups := groups this;
     labels := l; tooltip := tooltip this; panel := panel this |}.

Definition set_tooltip (c : option (list Tip.line)) (this : t) : t :=
  {| nodes := nodes this; edges := edges this; hoveredNode := hoveredNode this;
     selectedNode := selectedNode this; isRunning := isRunning this;
     currentTime := currentTime this;
     lines := lines this; flows := flows this; groups := groups this;
     labels := labels this; tooltip := c; panel := panel this |}.

Definition set_panel (p : option Panel.t) (this : t) : t :=
  {| nodes := nodes this; edges := edges this; hoveredNode := hoveredNode this;
     selectedNode := selectedNode this; isRunning := isRunning this;
     currentTime := currentTime this;
     lines := lines this; flows := flows this; groups := groups this;
     labels := labels this; tooltip := tooltip this; panel := p |}.

(** *** Methods run on [this], may throw, and operate on the DOM *)

Definition M (A : Type) : Type := t -> JS.outcome A * t * list Op.

Definition ret {A : Type} (a : A) : M A := fun this => (JS.Ok a, this, []).

Definition bind {A B : Type} (m : M A) (f : A -> M B) : M B :=
  fun this =>
    match m this with
    | (JS.Ok a, this', ops) =>
        let '(o, this'', ops') := f a this' in (o, this'', ops ++ ops')
    | (JS.Throw, this', ops) => (JS.Throw, this', ops)
    end.

Definition throw {A : Type} : M A := fun this => (JS.Throw, this, []).
Definition get : M t := fun this => (JS.Ok this, this, []).
Definition modify (f : t -> t) : M unit := fun this => (JS.Ok tt, f this, []).
Definition perform (ops : list Op) : M unit := fun this => (JS.Ok tt, this, ops).

Notation "'let*' x := m 'in' k" := (bind m (fun x => k))
  (at level 10, x name, m at level 100, k at level 200).
Notation "m >> k" := (bind m (fun _ => k))
  (at level 100, k at level 200, right associativity).

(** The state a call leaves and the operations it performed. *)
Definition after {A : Type} (m : M A) (this : t) : t := snd (fst (m this)).
Definition ops_of {A : Type} (m : M A) (this : t) : list Op := snd (m this).
Definition throws {A : Type} (m : M A) (this : t) : bool :=
  match fst (fst (m this)) with
  | JS.Throw => true
  | JS.Ok _ => false
  end.

(** *** Reading a node's state *)

Definition field (k : string) (st : list (string * Value.t)) : option Value.t :=
  snd <$> JS.find (fun kv => String.eqb (fst kv) k) st.

Definition num_field (k : string) (st : list (string * Value.t)) : option Q :=
  match field k st with
  | Some (Value.Num q) => Some q
  | _ => None
  end.

Definition length_field (k : string) (st : list (string * Value.t)) : option nat :=
  match field k st with
  | Some (Value.Arr n) => Some n
  | _ => None
  end.

Definition rels_field (k : string) (st : list (string * Value.t))
  : option (list (string * Metrics.t)) :=
  match field k st with
  | Some (Value.Rels r) => Some r
  | _ => None
  end.

(** A value is a number ([typeof v === 'number']), is [null], is falsy
    ([null], [0], the empty string, [false]). *)
Definition isNumber (v : Value.t) : bool :=
  match v with
  | Value.Num _ => true
  | _ => false
  end.

Definition isNull (v : Value.t) : bool :=
  match v with
  | Value.Null => true
  | _ => false
  end.

Definition falsy (v : Value.t) : bool :=
  match v with
  | Value.Null | Value.Bool false | Value.Str EmptyString => true
  | Value.Num q => negb (JS.truthy q)
  | _ => false
  end.

(** [(v || 0).toFixed] is not a function: [v] is present and is
    neither falsy nor a number. *)
Definition notNumeric (v : option Value.t) : bool :=
  match v with
  | Some x => negb (falsy x || isNumber x)
  | None => false
  end.

(** [(v || 0) + ..] is a string, which has no [toFixed]: [v] is a
    non-empty string, an array or an object (numbers and booleans add
    up to a number). *)
Definition concatenates (v : option Value.t) : bool :=
  match v with
  | Some (Value.Str (String _ _)) | Some (Value.Arr _)
  | Some (Value.Rels _) | Some Value.Obj => true
  | _ => false
  end.

(** [node.properties?.sourcing_policy?.type] *)
Definition sourcing_policy_type (node : Node.t) : option string :=
  match Node.properties node with
  | Some p =>
      match Properties.sourcing_policy p with
      | Some sp => SourcingPolicy.type sp
      | None => None
      end
  | None => None
  end.

(** *** Edges *)

(** [d => `${d.edge_type}-${d.from}-${d.to}`] *)
Definition edgeKey (d : Edge.t) : string :=
  Edge.edge_type d +:+ "-" +:+ Edge.from d +:+ "-" +:+ Edge.to d.

(** The [stroke] callback. *)
Definition edgeStroke (d : Edge.t) : string :=
  if String.eqb (Edge.edge_type d) "structural" then "rgba(100, 100, 100, 0.2)"
  else if String.eqb (Edge.edge_type d) "order_placement" then "rgba(59, 130, 246, 0.7)"
  else "rgba(239, 68, 68, 0.7)".

(** The [stroke-width] callback. *)
Definition edgeStrokeWidth (d : Edge.t) : Q :=
  if String.eqb (Edge.edge_type d) "structural" then 1
  else if JS.gt (Edge.active_orders d) 0 then 2
  else 1.

(** The [stroke-opacity] callback. *)
Definition edgeStrokeOpacity (d : Edge.t) : Q :=
  if JS.gt (Edge.active_orders d) 0 then 6 # 10 else 2 # 10.

(** *** Flow particles *)

(** [this.edges.filter(d => d.edge_type === 'delivery' && d.active_orders > 0)] *)
Definition activeEdges (es : list Edge.t) : list Edge.t :=
  List.filter
    (fun d => String.eqb (Edge.edge_type d) "delivery" && JS.gt (Edge.active_orders d) 0)
    es.

(** [activeEdges.flatMap(edge => (edge.deliveries || []).map(..))] *)
Definition deliveryParticles (es : list Edge.t) : list Particle.t :=
  List.flat_map
    (fun edge =>
       imap (fun index delivery =>
               {| Particle.edge := edge;
                  Particle.delivery := delivery;
                  Particle.deliveryIndex := index;
                  Particle.key := Delivery.order_id delivery |})
            (JS.or_else (Edge.deliveries edge) []))
    (activeEdges es).

(** [d.delivery.start_time || 0] *)
Definition deliveryStartTime (d : Delivery.t) : Q :=
  JS.or_num (Delivery.start_time d) 0.

(** [d.delivery.duration || 10] *)
Definition deliveryDuration (d : Delivery.t) : Q :=
  JS.or_num (Delivery.duration d) 10.

(** The progress of a delivery at simulation time [time]:
    [(time - start) / duration] clamped to [0, 1] when the duration is
    positive, and 0 otherwise. *)
Definition progress (time : Q) (d : Delivery.t) : Q :=
  if JS.gt (deliveryDuration d) 0
  then JS.max 0 (JS.min 1 ((time - deliveryStartTime d) / deliveryDuration d))
  else 0.

(** [(d.deliveryIndex % 3) - 1] *)
Definition offsetAmount (deliveryIndex : nat) : Z :=
  (Z.of_nat deliveryIndex mod 3 - 1)%Z.

(** The point on the segment: [x1 + progress * (x2 - x1)], and the same
    for [y]. *)
Definition basePosition (p1 p2 : Q * Q) (progress : Q) : Q * Q :=
  (fst p1 + progress * (fst p2 - fst p1), snd p1 + progress * (snd p2 - snd p1)).

(** The values of [cx] and [cy]: the base position moved by
    [offsetAmount] along the perpendicular of the edge. *)
Definition flowPosition (p1 p2 : Q * Q) (progress : Q) (deliveryIndex : nat) : R * R :=
  let b := basePosition p1 p2 progress in
  let angle := Trig.atan2 (Q2R (snd p2 - snd p1)) (Q2R (fst p2 - fst p1)) in
  let perpAngle := (angle + PI / 2)%R in
  ((Q2R (fst b) + cos perpAngle * IZR (offsetAmount deliveryIndex))%R,
   (Q2R (snd b) + sin perpAngle * IZR (offsetAmount deliveryIndex))%R).

(** *** Nodes *)

(** [reduce((sum, n) => sum + (n.state.<k> || 0), 0)] over the nodes of
    type [ty]. *)
Definition total (ty k : string) (ns : list Node.t) : Q :=
  fold_left (fun sum n => sum + JS.or_num (num_field k (Node.state n)) 0)
            (List.filter (fun n => String.eqb (Node.type n) ty) ns) 0.

Definition totalProduction (ns : list Node.t) : Q :=
  total "manufacturing_center" "production_rate" ns.

Definition totalOrders (ns : list Node.t) : Q :=
  total "distributor" "orders_placed" ns.

(** The [r] callback. *)
Definition nodeRadius (ns : list Node.t) (d : Node.t) : Q :=
  if String.eqb (Node.type d) "manufacturing_center" then
    let productionRate := JS.or_num (num_field "production_rate" (Node.state d)) 0 in
    let ratio :=
      if JS.gt (totalProduction ns) 0 then productionRate / totalProduction ns
      else 33 # 100 in
    4 + ratio * 8
  else
    let ordersPlaced := JS.or_num (num_field "orders_placed" (Node.state d)) 0 in
    let ratio :=
      if JS.gt (totalOrders ns) 0 then ordersPlaced / totalOrders ns
      else 125 # 1000 in
    3 + ratio * 6.

(** The [fill] callback. *)
Definition nodeFill (d : Node.t) : string :=
  if String.eqb (Node.type d) "manufacturing_center" then "rgba(16, 185, 129, 0.7)"
  else "rgba(139, 92, 246, 0.7)".

(** [this.selectedNode && d.id === this.selectedNode.id] *)
Definition isSelected (this : t) (d : Node.t) : bool :=
  match selectedNode this with
  | Some s => String.eqb (Node.id d) (Node.id s)
  | None => false
  end.

(** The text of a label. *)
Definition labelText (d : Node.t) : string :=
  if String.eqb (Node.type d) "manufacturing_center" then Str.first_word (Node.name d)
  else Str.remove_first " Distributor" (Node.name d).

Definition nodeKey (d : Node.t) : string := Node.id d.

Definition lonlat (d : Node.t) : Q * Q :=
  (Location.lon (Node.location d), Location.lat (Node.location d)).

(** *** What the tooltip and the panel show of a node *)

(** The financial figures of a manufacturing centre (the tooltip and
    the panel compute them alike). *)
Definition financial (node : Node.t) : Financial.t :=
  let revenue := JS.or_num (num_field "total_revenue" (Node.state node)) 0 in
  let prodCosts := JS.or_num (num_field "total_production_costs" (Node.state node)) 0 in
  let rateCosts := JS.or_num (num_field "total_rate_change_costs" (Node.state node)) 0 in
  let totalCosts := prodCosts + rateCosts in
  let profit := revenue - totalCosts in
  let profitMargin := if JS.gt revenue 0 then profit / revenue * 100 else 0 in
  {| Financial.revenue := revenue;
     Financial.totalCosts := totalCosts;
     Financial.profit := profit;
     Financial.profitMargin := profitMargin |}.

(** The [TypeError]s of the financial block: [revenue.toFixed(0)]
    where [total_revenue || 0] is not a number, and
    [totalCosts.toFixed(0)] where the sum of the two costs is a
    string. *)
Definition financialThrows (node : Node.t) : bool :=
  let st := Node.state node in
  notNumeric (field "total_revenue" st)
  || concatenates (field "total_production_costs" st)
  || concatenates (field "total_rate_change_costs" st).

(** [node.properties?.sourcing_policy?.type || 'nearest_neighbor'] *)
Definition sourcingPolicy (node : Node.t) : string :=
  JS.or_str (sourcing_policy_type node) "nearest_neighbor".

(** [node.state.supplier_relationships || {}], as [Object.entries]
    lists it. *)
Definition relationships (node : Node.t) : list (string * Metrics.t) :=
  JS.or_else (rels_field "supplier_relationships" (Node.state node)) [].

(** [.sort((a, b) => b[1].orders_delivered - a[1].orders_delivered)]:
    descending in the orders delivered, entries that compare equal
    keeping their order (the sort of an array is stable). *)
Fixpoint insertSupplier (x : string * Metrics.t) (l : list (string * Metrics.t))
  : list (string * Metrics.t) :=
  match l with
  | [] => [x]
  | y :: l' =>
      if JS.ge (Metrics.orders_delivered (snd x)) (Metrics.orders_delivered (snd y))
      then x :: y :: l'
      else y :: insertSupplier x l'
  end.

Definition sortSuppliers (l : list (string * Metrics.t)) : list (string * Metrics.t) :=
  foldr insertSupplier [] l.

(** One supplier as both lists show it: the city of the node with that
    id in [this.nodes], or the id itself when there is none. *)
Definition supplierRow (this : t) (entry : string * Metrics.t) : Supplier.t :=
  let '(supplierId, metrics) := entry in
  let supplierNode := JS.find (fun n => String.eqb (Node.id n) supplierId) (nodes this) in
  {| Supplier.supplierName :=
       match supplierNode with
       | Some n => Location.city (Node.location n)
       | None => supplierId
       end;
     Supplier.onTimeRate := Metrics.on_time_rate metrics * 100;
     Supplier.metrics := metrics |}.

Definition when {A B : Type} (o : option A) (f : A -> B) : list B :=
  match o with
  | Some a => [f a]
  | None => []
  end.

(** The html [updateTooltip] builds, when it throws nothing. *)
Definition tooltipContent (this : t) (node : Node.t) : list Tip.line :=
  let st := Node.state node in
  [Tip.Name (Node.name node);
   Tip.Type_ (Node.type node);
   Tip.Location (Location.city (Node.location node)) (Location.state (Node.location node))]
  ++ (if String.eqb (Node.type node) "manufacturing_center" then
        when (num_field "inventory" st) Tip.Inventory
        ++ when (num_field "production_rate" st) Tip.Production
        ++ when (length_field "pending_orders" st) Tip.PendingOrders
        ++ [Tip.Finance (financial node)]
      else [])
  ++ (if String.eqb (Node.type node) "distributor" then
        when (num_field "orders_placed" st) Tip.OrdersPlaced
        ++ [Tip.Policy (sourcingPolicy node)]
        ++ (let sortedSuppliers := take 2 (sortSuppliers (relationships node)) in
            match sortedSuppliers with
            | [] => [Tip.NoHistory]
            | _ => Tip.TopSuppliers :: map (fun e => Tip.TopSupplier (supplierRow this e))
                                           sortedSuppliers
            end)
      else []).

(** The [TypeError]s of [updateTooltip], all in the block of a
    manufacturing centre: [node.state.inventory.toFixed(0)] where the
    inventory is present and not a number,
    [node.state.pending_orders.length] where the pending orders are
    [null], and the financial block.  The content is set by the last
    statement, so nothing has changed when one is thrown. *)
Definition tooltipThrows (node : Node.t) : bool :=
  let st := Node.state node in
  String.eqb (Node.type node) "manufacturing_center"
  && (match field "inventory" st with
      | Some v => negb (isNumber v)
      | None => false
      end
      || match field "pending_orders" st with
         | Some v => isNull v
         | None => false
         end
      || financialThrows node).

(** The colour of a supplier row of the panel. *)
Definition supplierColor (metrics : Metrics.t) : string :=
  if JS.ge (Metrics.on_time_rate metrics) (9 # 10) then "#10b981"
  else if JS.ge (Metrics.on_time_rate metrics) (7 # 10) then "#f59e0b"
  else "#ef4444".

(** [value.length] *)
Definition valueLength (value : Value.t) : option nat :=
  match value with
  | Value.Arr n => Some n
  | Value.Str s => Some (String.length s)
  | _ => None
  end.

Definition shownAbove (key : string) : bool :=
  existsb (String.eqb key)
    ["total_revenue"; "total_production_costs"; "total_rate_change_costs";
     "supplier_relationships"; "fulfillment_times"; "orders_in_delivery"].

(** One turn of the loop over [Object.entries(node.state)], when it
    throws nothing. *)
Definition stateItem (entry : string * Value.t) : list Item.t :=
  let '(key, value) := entry in
  if shownAbove key then []
  else if String.eqb key "pending_orders" || String.eqb key "in_delivery"
  then [Item.Length key (valueLength value)]
  else match value with
       | Value.Num q => [Item.Number key q]
       | Value.Arr _ | Value.Rels _ | Value.Obj | Value.Null => []
       | Value.Str _ | Value.Bool _ => [Item.Text key value]
       end.

(** The [TypeError] of that turn: [value.length] where the value of
    [pending_orders] or [in_delivery] is [null]. *)
Definition stateItemThrows (entry : string * Value.t) : bool :=
  let '(key, value) := entry in
  negb (shownAbove key)
  && (String.eqb key "pending_orders" || String.eqb key "in_delivery")
  && isNull value.

(** The html of [#detail-node-state]. *)
Definition stateHTML (this : t) (node : Node.t) : list Item.t :=
  (if String.eqb (Node.type node) "manufacturing_center"
   then [Item.Finance (financial node)] else [])
  ++ (if String.eqb (Node.type node) "distributor" then
        Item.Policy (sourcingPolicy node)
        :: (let sortedSuppliers := sortSuppliers (relationships node) in
            match sortedSuppliers with
            | [] => [Item.NoSupplierHistory]
            | _ => Item.Suppliers
                   :: map (fun e => Item.SupplierRow (supplierColor (snd e)) (supplierRow this e))
                          sortedSuppliers
            end)
      else [])
  ++ List.flat_map stateItem (Node.state node).

(** The panel as [updateDetailsPanel] fills it. *)
Definition details (this : t) (node : Node.t) : Panel.t :=
  {| Panel.display := "block";
     Panel.name := Node.name node;
     Panel.type := Str.underscore_to_space (Node.type node);
     Panel.location := (Location.city (Node.location node),
                        Location.state (Node.location node));
     Panel.stateHTML := stateHTML this node |}.

(** The [TypeError]s of [updateDetailsPanel]: the financial block of a
    manufacturing centre and the loop over the state.  They are thrown
    while the state list is built, when the panel is shown already and
    its name, type and location are set: [detailsHeader] is the panel
    [p] at that point, its state list not yet replaced. *)
Definition detailsThrows (node : Node.t) : bool :=
  String.eqb (Node.type node) "manufacturing_center" && financialThrows node
  || existsb stateItemThrows (Node.state node).

Definition detailsHeader (node : Node.t) (p : Panel.t) : Panel.t :=
  {| Panel.display := "block";
     Panel.name := Node.name node;
     Panel.type := Str.underscore_to_space (Node.type node);
     Panel.location := (Location.city (Node.location node),
                        Location.state (Node.location node));
     Panel.stateHTML := Panel.stateHTML p |}.

(** The numeric field the radius of a node is computed from. *)
Definition sizeField (d : Node.t) : Q :=
  if String.eqb (Node.type d) "manufacturing_center"
  then JS.or_num (num_field "production_rate" (Node.state d)) 0
  else JS.or_num (num_field "orders_placed" (Node.state d)) 0.

(** *** The methods *)

Section Methods.

(** [this.projection]. *)
Variable projection : Q * Q -> option (Q * Q).

Definition getNodeProjection (nodeId : string) (this : t) : Q * Q :=
  match JS.find (fun n => String.eqb (Node.id n) nodeId) (nodes this) with
  | None => (0, 0)
  | Some node => JS.or_else (projection (lonlat node)) (0, 0)
  end.

(** The attributes the setters of [renderEdges] give a line. *)
Definition lineStyle (this : t) (d : Edge.t) : LineAttrs.t :=
  {| LineAttrs.x1 := fst (getNodeProjection (Edge.from d) this);
     LineAttrs.y1 := snd (getNodeProjection (Edge.from d) this);
     LineAttrs.x2 := fst (getNodeProjection (Edge.to d) this);
     LineAttrs.y2 := snd (getNodeProjection (Edge.to d) this);
     LineAttrs.stroke := edgeStroke d;
     LineAttrs.stroke_width := edgeStrokeWidth d;
     LineAttrs.stroke_opacity := edgeStrokeOpacity d |}.

(** The body of [allFlows.each]: the circle keeps its position when
    [!x1 || !x2], and is placed by the simulation time otherwise. *)
Definition placeFlow (this : t) (d : Particle.t) (a : FlowAttrs.t) : FlowAttrs.t :=
  let p1 := getNodeProjection (Edge.from (Particle.edge d)) this in
  let p2 := getNodeProjection (Edge.to (Particle.edge d)) this in
  if negb (JS.truthy (fst p1)) || negb (JS.truthy (fst p2)) then a
  else Some (flowPosition p1 p2
               (progress (currentTime this) (Particle.delivery d))
               (Particle.deliveryIndex d)).

(** The flow circles after the join on [d.key], each placed. *)
Definition renderedFlows (this : t) : list (Elem Particle.t FlowAttrs.t) :=
  reconcile Particle.key (fun _ => None) (fun _ d a => placeFlow this d a) true
            (flows this) (deliveryParticles (edges this)).

Definition renderOrderFlows : M unit :=
  let* this := get in
  perform (creates Particle.key Flows (flows this) (deliveryParticles (edges this))) >>
  modify (set_flows (renderedFlows this)) >>
  perform (destroys Particle.key Flows (flows this) (deliveryParticles (edges this))).

(** The lines after the join on [edgeKey], each with its attributes (a
    line that enters gets them in the same chain). *)
Definition renderedLines (this : t) : list (Elem Edge.t LineAttrs.t) :=
  reconcile edgeKey (lineStyle this) (fun _ d _ => lineStyle this d) true
            (lines this) (edges this).

Definition renderEdges : M unit :=
  let* this := get in
  perform (creates edgeKey Lines (lines this) (edges this)) >>
  modify (set_lines (renderedLines this)) >>
  perform (destroys edgeKey Lines (lines this) (edges this)) >>
  renderOrderFlows.

(** The index of the first node whose location does not project: the
    callback that reads [this.projection(..)] as a pair throws there. *)
Fixpoint firstUnprojectable (i : nat) (data : list Node.t) : option nat :=
  match data with
  | [] => None
  | d :: ds =>
      match projection (lonlat d) with
      | None => Some i
      | Some _ => firstUnprojectable (S i) ds
      end
  end.

Definition labelInit (d : Node.t) : LabelAttrs.t :=
  {| LabelAttrs.x := None; LabelAttrs.y := None; LabelAttrs.text := None |}.

(** [.attr('x', ..)] alone, and the three setters of a label. *)
Definition labelX (d : Node.t) (a : LabelAttrs.t) : LabelAttrs.t :=
  {| LabelAttrs.x := fst <$> projection (lonlat d);
     LabelAttrs.y := LabelAttrs.y a;
     LabelAttrs.text := LabelAttrs.text a |}.

Definition labelStyle (d : Node.t) : LabelAttrs.t :=
  {| LabelAttrs.x := fst <$> projection (lonlat d);
     LabelAttrs.y := snd <$> projection (lonlat d);
     LabelAttrs.text := Some (labelText d) |}.

(** The labels after the join on [d.id]: all setters applied and the
    exit selection removed; or, when the [x] setter throws at index [f],
    [x] set on the labels before [f] and nothing removed. *)
Definition renderedLabels (this : t) : list (Elem Node.t LabelAttrs.t) :=
  reconcile nodeKey labelInit (fun _ d _ => labelStyle d) true
            (labels this) (nodes this).

Definition cutLabels (f : nat) (this : t) : list (Elem Node.t LabelAttrs.t) :=
  reconcile nodeKey labelInit (fun i d a => if (i <? f)%nat then labelX d a else a) false
            (labels this) (nodes this).

Definition renderLabels : M unit :=
  let* this := get in
  perform (creates nodeKey Labels (labels this) (nodes this)) >>
  match firstUnprojectable 0 (nodes this) with
  | Some f => modify (set_labels (cutLabels f this)) >> throw
  | None =>
      modify (set_labels (renderedLabels this)) >>
      perform (destroys nodeKey Labels (labels this) (nodes this))
  end.

Definition groupInit (d : Node.t) : GroupAttrs.t :=
  {| GroupAttrs.circle_id := Str.sanitize (Node.id d);
     GroupAttrs.transform := None;
     GroupAttrs.circle := None |}.

(** [.attr('transform', ..)] alone, and all the setters of a group. *)
Definition groupTransform (d : Node.t) (a : GroupAttrs.t) : GroupAttrs.t :=
  {| GroupAttrs.circle_id := GroupAttrs.circle_id a;
     GroupAttrs.transform := projection (lonlat d);
     GroupAttrs.circle := GroupAttrs.circle a |}.

Definition groupStyle (this : t) (d : Node.t) (a : GroupAttrs.t) : GroupAttrs.t :=
  {| GroupAttrs.circle_id := GroupAttrs.circle_id a;
     GroupAttrs.transform := projection (lonlat d);
     GroupAttrs.circle :=
       Some {| CircleAttrs.r := nodeRadius (nodes this) d;
               CircleAttrs.fill := nodeFill d;
               CircleAttrs.stroke := if isSelected this d then "#fff" else "none";
               CircleAttrs.stroke_width := if isSelected this d then 3 else 0 |} |}.

(** The node groups after the join on [d.id]: all setters applied and
    the exit selection removed; or, when the [transform] setter throws
    at index [f], the transform set on the groups before [f] and
    nothing removed. *)
Definition renderedGroups (this : t) : list (Elem Node.t GroupAttrs.t) :=
  reconcile nodeKey groupInit (fun _ d a => groupStyle this d a) true
            (groups this) (nodes this).

Definition cutGroups (f : nat) (this : t) : list (Elem Node.t GroupAttrs.t) :=
  reconcile nodeKey groupInit
            (fun i d a => if (i <? f)%nat then groupTransform d a else a) false
            (groups this) (nodes this).

Definition renderNodes : M unit :=
  let* this := get in
  perform (creates nodeKey Groups (groups this) (nodes this)) >>
  match firstUnprojectable 0 (nodes this) with
  | Some f => modify (set_groups (cutGroups f this)) >> throw
  | None =>
      modify (set_groups (renderedGroups this)) >>
      perform (destroys nodeKey Groups (groups this) (nodes this)) >>
      renderLabels
  end.

Definition updateTooltip (node : Node.t) : M unit :=
  let* this := get in
  match tooltip this with
  | None => ret tt
  | Some _ =>
      if tooltipThrows node then throw
      else modify (set_tooltip (Some (tooltipContent this node)))
  end.

Definition showTooltip (node : Node.t) : M unit :=
  modify (set_hoveredNode (Some node)) >>
  modify (set_tooltip (Some [])) >>
  updateTooltip node.

Definition hideTooltip : M unit :=
  modify (set_hoveredNode None) >>
  modify (set_tooltip None).

Definition updateDetailsPanel (node : Node.t) : M unit :=
  let* this := get in
  match panel this with
  | None => ret tt
  | Some p =>
      if detailsThrows node
      then modify (set_panel (Some (detailsHeader node p))) >> throw
      else modify (set_panel (Some (details this node)))
  end.

Definition hideDetailsPanel : M unit :=
  let* this := get in
  match panel this with
  | None => ret tt
  | Some p =>
      modify (set_panel
                (Some {| Panel.display := "none";
                         Panel.name := Panel.name p;
                         Panel.type := Panel.type p;
                         Panel.location := Panel.location p;
                         Panel.stateHTML := Panel.stateHTML p |}))
  end.

Definition selectNode (node : option Node.t) : M unit :=
  modify (set_selectedNode node) >>
  renderNodes >>
  match node with
  | Some n => updateDetailsPanel n
  | None => hideDetailsPanel
  end.

(** "Update tooltip if hovering" and "Update details panel if node is
    selected": the two closing blocks of [update]. *)
Definition refreshTooltip : M unit :=
  let* this := get in
  match hoveredNode this with
  | Some h =>
      match JS.find (fun n => String.eqb (Node.id n) (Node.id h)) (nodes this) with
      | Some updatedNode => updateTooltip updatedNode
      | None => ret tt
      end
  | None => ret tt
  end.

Definition refreshDetails : M unit :=
  let* this := get in
  match selectedNode this with
  | Some s =>
      match JS.find (fun n => String.eqb (Node.id n) (Node.id s)) (nodes this) with
      | Some updatedNode => updateDetailsPanel updatedNode
      | None => ret tt
      end
  | None => ret tt
  end.

(** [this.nodes = state.nodes || []] and the three assignments after it. *)
Definition store (state : Snapshot.t) (this : t) : t :=
  set_snapshot (JS.or_else (Snapshot.nodes state) [])
               (JS.or_else (Snapshot.edges state) [])
               (JS.or_else (Snapshot.running state) false)
               (JS.or_num (Snapshot.time state) 0)
               this.

Definition update (state : Snapshot.t) : M unit :=
  modify (store state) >>
  renderEdges >>
  renderNodes >>
  refreshTooltip >>
  refreshDetails.

(** A decimal digit. *)
Definition digit (c : Ascii.ascii) : bool :=
  let n := Ascii.nat_of_ascii c in ((48 <=? n) && (n <=? 57))%nat.

(** Whether [`#${s}`] is a selector, for a string [s] of letters,
    digits and underscores: a CSS identifier is not empty and does not
    start with a digit. *)
Definition idSelector (s : string) : bool :=
  match s with
  | EmptyString => false
  | String c _ => negb (digit c)
  end.

(** [this.g.select(`#${nodeId.replace(/[^a-zA-Z0-9]/g, '_')}`).node()].
    Below [this.g] only the circles of the node groups carry an id, so
    the selector matches the first group, in document order, whose
    circle has that id; [node()] is [null] when there is none.  The
    [querySelector] behind [select] throws when the selector is not
    valid. *)
Definition getNodeElement (nodeId : string) : M (option (Elem Node.t GroupAttrs.t)) :=
  let* this := get in
  let id := Str.sanitize nodeId in
  if idSelector id
  then ret (JS.find (fun g => String.eqb (GroupAttrs.circle_id (attrs g)) id) (groups this))
  else throw.

End Methods.

(** [this.projection] on a map of a given size.  [init] and [resize]
    set the translate of the projection to the centre of the map,
    [[width / 2, height / 2]], and a d3 projection adds its translate
    to every point it computes; [base] is the same projection with the
    translate [[0, 0]]. *)
Definition centred (base : Q * Q -> option (Q * Q)) (width height : Q) (p : Q * Q)
  : option (Q * Q) :=
  (fun q => (fst q + width / 2, snd q + height / 2)) <$> base p.

(** [resize(width, height)]: the projection is centred on the new size,
    and the edges and the nodes are rendered again. *)
Definition resize (base : Q * Q -> option (Q * Q)) (width height : Q) : M unit :=
  renderEdges (centred base width height) >>
  renderNodes (centred base width height).

(** A map that has rendered nothing yet, on a page with a details
    panel (hidden, as the page's style sheet has it). *)
Definition empty : t :=
  {| nodes := []; edges := []; hoveredNode := None; selectedNode := None;
     isRunning := false; currentTime := 0;
     lines := []; flows := []; groups := []; labels := [];
     tooltip := None;
     panel := Some {| Panel.display := "none"; Panel.name := ""; Panel.type := "";
                      Panel.location := ("", ""); Panel.stateHTML := [] |} |}.

End NetworkMap.

(** ** Sample data

    A projection that is defined on a band of longitudes only, two
    nodes inside the band and one outside, and the snapshots the
    examples below run on. *)

Module Sample.

Import NetworkMap.

Definition projection (p : Q * Q) : option (Q * Q) :=
  if JS.gt (fst p) (-130) && JS.gt (-60) (fst p)
  then Some (10 * (fst p + 130), 10 * (55 - snd p))
  else None.

Definition node (id type name city : string) (lat lon : Q)
    (state : list (string * Value.t)) : Node.t :=
  {| Node.id := id; Node.type := type; Node.name := name;
     Node.location := {| Location.lat := lat; Location.lon := lon;
                         Location.city := city; Location.state := "" |};
     Node.state := state; Node.properties := None |}.

Definition chicago : Node.t :=
  node "chicago_center" "manufacturing_center" "Chicago Manufacturing Center"
       "Chicago" 41 (-87) [("production_rate", Value.Num 100)].

Definition new_york : Node.t :=
  node "distributor_ny" "distributor" "New York Distributor"
       "New York" 40 (-74) [("orders_placed", Value.Num 10)].

Definition boston : Node.t :=
  node "distributor_bos" "distributor" "Boston Distributor"
       "Boston" 42 (-71) [("orders_placed", Value.Num 30)].

(** A node outside the frame of the projection. *)
Definition london : Node.t :=
  node "distributor_ldn" "distributor" "London Distributor"
       "London" 51 0 [("orders_placed", Value.Num 1)].

Definition delivery (order_id : string) (start_time duration : option Q) : Delivery.t :=
  {| Delivery.order_id := order_id;
     Delivery.start_time := start_time;
     Delivery.duration := duration |}.

Definition edge (edge_type from to : string) (active_orders : Q)
    (deliveries : list Delivery.t) : Edge.t :=
  {| Edge.from := from; Edge.to := to; Edge.edge_type := edge_type;
     Edge.active_orders := active_orders; Edge.deliveries := Some deliveries |}.

Definition zero_duration : Delivery.t := delivery "order_7" (Some 0) (Some 0).

Definition structural_idle : Edge.t :=
  edge "structural" "chicago_center" "distributor_ny" 0 [].

Definition structural_active : Edge.t :=
  edge "structural" "chicago_center" "distributor_ny" 2 [].

Definition snapshot (nodes : list Node.t) (edges : list Edge.t) (time : Q) : Snapshot.t :=
  {| Snapshot.nodes := Some nodes; Snapshot.edges := Some edges;
     Snapshot.running := Some true; Snapshot.time := Some time |}.

(** Chicago delivers order 1 to New York: the delivery starts at 0 and
    takes 10; the snapshot is taken at time 5. *)
Definition two_nodes : Snapshot.t :=
  snapshot [chicago; new_york]
           [edge "delivery" "chicago_center" "distributor_ny" 1
                 [delivery "order_1" (Some 0) (Some 10)]]
           5.

(** The same snapshot a little later, New York having placed more
    orders; a snapshot without New York; one with a node in London. *)
Definition new_york_busy : Node.t :=
  node "distributor_ny" "distributor" "New York Distributor"
       "New York" 40 (-74) [("orders_placed", Value.Num 99)].

Definition two_nodes_later : Snapshot.t :=
  snapshot [chicago; new_york_busy]
           [edge "delivery" "chicago_center" "distributor_ny" 1
                 [delivery "order_1" (Some 0) (Some 10)]]
           7.

Definition chicago_alone : Snapshot.t := snapshot [chicago] [] 6.

(** The first snapshot, taken when order 1 starts; and the particle of
    order 1, the first delivery of its edge. *)
Definition two_nodes_start : Snapshot.t :=
  snapshot [chicago; new_york]
           [edge "delivery" "chicago_center" "distributor_ny" 1
                 [delivery "order_1" (Some 0) (Some 10)]]
           0.

Definition order_1 : Particle.t :=
  {| Particle.edge := edge "delivery" "chicago_center" "distributor_ny" 1
                           [delivery "order_1" (Some 0) (Some 10)];
     Particle.delivery := delivery "order_1" (Some 0) (Some 10);
     Particle.deliveryIndex := 0;
     Particle.key := "order_1" |}.

(** Order 2 leaves Chicago for New York at time 2 and takes 8; the
    snapshot is taken at time 4.  And the particle of order 2. *)
Definition two_nodes_underway : Snapshot.t :=
  snapshot [chicago; new_york]
           [edge "delivery" "chicago_center" "distributor_ny" 1
                 [delivery "order_2" (Some 2) (Some 8)]]
           4.

Definition order_2 : Particle.t :=
  {| Particle.edge := edge "delivery" "chicago_center" "distributor_ny" 1
                           [delivery "order_2" (Some 2) (Some 8)];
     Particle.delivery := delivery "order_2" (Some 2) (Some 8);
     Particle.deliveryIndex := 0;
     Particle.key := "order_2" |}.

Definition with_london : Snapshot.t := snapshot [chicago; london; new_york] [] 0.

(** Four nodes whose ids contain hyphens, and two delivery edges
    between different pairs of them. *)
Definition hyphenated : Snapshot.t :=
  snapshot [node "depot-east" "manufacturing_center" "Depot East" "Albany" 42 (-73) [];
            node "hub" "distributor" "Hub Distributor" "Columbus" 40 (-83) [];
            node "depot" "manufacturing_center" "Depot" "Detroit" 42 (-83) [];
            node "east-hub" "distributor" "East Hub Distributor" "Newark" 40 (-74) []]
           [edge "delivery" "depot-east" "hub" 0 [];
            edge "delivery" "depot" "east-hub" 0 []]
           0.

(** The map after the first snapshot, the pointer over New York and
    New York clicked. *)
Definition watched : NetworkMap.t :=
  after (selectNode projection (Some new_york))
        (after (showTooltip new_york)
               (after (update projection two_nodes) NetworkMap.empty)).


(** Chicago with an inventory that is a string and pending orders
    that are [null], and Chicago without any state. *)
Definition mistyped : Node.t :=
  node "chicago_center" "manufacturing_center" "Chicago Manufacturing Center"
       "Chicago" 41 (-87)
       [("inventory", Value.Str "120"); ("pending_orders", Value.Null);
        ("production_rate", Value.Num 100)].


(** A delivery edge from Chicago to a distributor that is not a node of
    the snapshot; and the snapshot object without any field. *)
Definition dangling : Snapshot.t :=
  snapshot [chicago]
           [edge "delivery" "chicago_center" "distributor_ny" 1
                 [delivery "order_1" (Some 0) (Some 10)]]
           5.

Definition nothing : Snapshot.t :=
  {| Snapshot.nodes := None; Snapshot.edges := None;
     Snapshot.running := None; Snapshot.time := None |}.

(** Three suppliers already in the order of their deliveries, the first
    two with the same count. *)
Definition ranked : list (string * Metrics.t) :=
  [("pittsburgh_center", {| Metrics.orders_delivered := 4; Metrics.on_time_rate := 1 |});
   ("chicago_center", {| Metrics.orders_delivered := 4; Metrics.on_time_rate := 1 # 2 |});
   ("nashville_center", {| Metrics.orders_delivered := 1; Metrics.on_time_rate := 1 |})].

End Sample.

(** ** Notions the properties are stated with *)

(** A field is missing, or it is the number 0. *)
Definition absent_or_zero (x : option Q) : Prop :=
  match x with
  | None => True
  | Some q => q == 0
  end.

Section JoinNotions.

Context {D A : Type}.
Variable key : D -> string.

(** The index of the first element of the group that carries a key. *)
Fixpoint firstIndex (k : string) (group : list (Elem D A)) : option nat :=
  match group with
  | [] => None
  | e :: g => if decide (key (datum e) = k) then Some 0%nat else S <$> firstIndex k g
  end.

(** The elements the data are bound to. *)
Definition targets (u : list (option nat)) : list nat := omap (fun j => j) u.

(** No two keys of the map share an element. *)
Definition injective (m : gmap string nat) : Prop :=
  forall k k' j, m !! k = Some j -> m !! k' = Some j -> k = k'.

(** The data that enter. *)
Fixpoint enterData (ds : list D) (u : list (option nat)) : list D :=
  match ds, u with
  | d :: ds', None :: u' => d :: enterData ds' u'
  | _ :: ds', Some _ :: u' => enterData ds' u'
  | _, _ => []
  end.

(** The elements [appendEnter] creates. *)
Fixpoint newElems (init : D -> A) (i : nat) (ds : list D) (u : list (option nat))
  : list (tag * Elem D A) :=
  match ds, u with
  | d :: ds', None :: u' =>
      (New i, {| datum := d; attrs := init d |}) :: newElems init (S i) ds' u'
  | _ :: ds', Some _ :: u' => newElems init (S i) ds' u'
  | _, _ => []
  end.

End JoinNotions.

Section UpdateNotions.

Import NetworkMap.

Variable projection : Q * Q -> option (Q * Q).

(** The state the closing blocks of [update] leave when they return. *)
Definition tooltipRefreshed (this : t) : t :=
  match hoveredNode this with
  | Some h =>
      match JS.find (fun n => String.eqb (Node.id n) (Node.id h)) (nodes this) with
      | Some updatedNode =>
          match tooltip this with
          | None => this
          | Some _ => set_tooltip (Some (tooltipContent this updatedNode)) this
          end
      | None => this
      end
  | None => this
  end.

Definition detailsRefreshed (this : t) : t :=
  match selectedNode this with
  | Some s =>
      match JS.find (fun n => String.eqb (Node.id n) (Node.id s)) (nodes this) with
      | Some updatedNode =>
          match panel this with
          | None => this
          | Some _ => set_panel (Some (details this updatedNode)) this
          end
      | None => this
      end
  | None => this
  end.

(** Whether the closing blocks of [update] throw: the tooltip, or the
    panel, is there and is refreshed from a node on which
    [updateTooltip], or [updateDetailsPanel], throws.  And the state
    the second block leaves when it throws. *)
Definition tooltipFails (this : t) : bool :=
  match hoveredNode this with
  | Some h =>
      match JS.find (fun n => String.eqb (Node.id n) (Node.id h)) (nodes this) with
      | Some updatedNode =>
          match tooltip this with
          | None => false
          | Some _ => tooltipThrows updatedNode
          end
      | None => false
      end
  | None => false
  end.

Definition detailsFails (this : t) : bool :=
  match selectedNode this with
  | Some s =>
      match JS.find (fun n => String.eqb (Node.id n) (Node.id s)) (nodes this) with
      | Some updatedNode =>
          match panel this with
          | None => false
          | Some _ => detailsThrows updatedNode
          end
      | None => false
      end
  | None => false
  end.

Definition detailsAborted (this : t) : t :=
  match selectedNode this with
  | Some s =>
      match JS.find (fun n => String.eqb (Node.id n) (Node.id s)) (nodes this) with
      | Some updatedNode =>
          match panel this with
          | None => this
          | Some p => set_panel (Some (detailsHeader updatedNode p)) this
          end
      | None => this
      end
  | None => this
  end.

(** The state after [renderEdges]. *)
Definition edgesRendered (this : t) : t :=
  set_flows (renderedFlows projection (set_lines (renderedLines projection this) this))
            (set_lines (renderedLines projection this) this).

(** The state after [renderNodes], when it returns. *)
Definition nodesRendered (this : t) : t :=
  set_labels (renderedLabels projection this)
             (set_groups (renderedGroups projection this) this).

Definition nodesOps (this : t) : list Op :=
  creates nodeKey Groups (groups this) (nodes this)
  ++ destroys nodeKey Groups (groups this) (nodes this)
  ++ creates nodeKey Labels (labels this) (nodes this)
  ++ destroys nodeKey Labels (labels this) (nodes this).

Definition edgesOps (this : t) : list Op :=
  creates edgeKey Lines (lines this) (edges this)
  ++ destroys edgeKey Lines (lines this) (edges this)
  ++ creates Particle.key Flows (flows this) (deliveryParticles (edges this))
  ++ destroys Particle.key Flows (flows this) (deliveryParticles (edges this)).

(** The nodes and the edges [update] stores. *)
Definition nodesOf (state : Snapshot.t) : list Node.t :=
  JS.or_else (Snapshot.nodes state) [].

Definition edgesOf (state : Snapshot.t) : list Edge.t :=
  JS.or_else (Snapshot.edges state) [].

End UpdateNotions.

(** The node of the snapshot that carries the id of [n], if any. *)
Definition refreshed (state : Snapshot.t) (n : Node.t) : option Node.t :=
  JS.find (fun m => String.eqb (Node.id m) (Node.id n)) (nodesOf state).






(** [a] is listed before [b]: it has delivered at least as many orders. *)
Definition before (a b : string * Metrics.t) : Prop :=
  Metrics.orders_delivered (snd b) <= Metrics.orders_delivered (snd a).

(** What a call returns, or that it throws. *)
Definition returned {A : Type} (m : NetworkMap.M A) (this : NetworkMap.t) : JS.outcome A :=
  fst (fst (m this)).

(** [x] lies between [a] and [b], whichever of the two is larger. *)
Definition between (a b x : Q) : Prop := (a <= x <= b) \/ (b <= x <= a).

(** The sum of a list of numbers, and the nodes of one type. *)
Definition Qsum (l : list Q) : Q := foldr Qplus 0 l.

Definition ofType (ty : string) (ns : list Node.t) : list Node.t :=
  List.filter (fun n => String.eqb (Node.type n) ty) ns.

(** A supplier relationship with [v] orders delivered. *)
Definition delivered (v : Q) (e : string * Metrics.t) : bool :=
  Qeq_bool (Metrics.orders_delivered (snd e)) v.

(** The panel once [hideDetailsPanel] has hidden it. *)
Definition hidden (p : Panel.t) : Panel.t :=
  {| Panel.display := "none"; Panel.name := Panel.name p; Panel.type := Panel.type p;
     Panel.location := Panel.location p; Panel.stateHTML := Panel.stateHTML p |}.

(** Every circle carries the sanitized id of the node its group is
    bound to. *)
Definition circlesNamed (gs : list (Elem Node.t GroupAttrs.t)) : Prop :=
  forall g, g ∈ gs -> GroupAttrs.circle_id (attrs g) = Str.sanitize (Node.id (datum g)).

(** The key of a row of the general state list of the panel. *)
Definition itemKey (i : Item.t) : option string :=
  match i with
  | Item.Length k _ | Item.Number k _ | Item.Text k _ => Some k
  | _ => None
  end.

(** The keys shown by the length of their value, the values shown as
    they are, and the entries of a state object that get a row. *)
Definition counted (key : string) : bool :=
  String.eqb key "pending_orders" || String.eqb key "in_delivery".

Definition scalar (v : Value.t) : bool :=
  match v with
  | Value.Num _ | Value.Str _ | Value.Bool _ => true
  | _ => false
  end.

Definition listed (entry : string * Value.t) : bool :=
  negb (NetworkMap.shownAbove (fst entry)) && (counted (fst entry) || scalar (snd entry)).

(** Whether the tooltip and the panel announce suppliers ([true], the
    heading of the supplier list) or their absence ([false]), and
    whether a node has supplier relationships. *)
Definition tipHistory (c : list Tip.line) : list bool :=
  omap (fun l => match l with
                 | Tip.TopSuppliers => Some true
                 | Tip.NoHistory => Some false
                 | _ => None
                 end) c.

Definition panelHistory (c : list Item.t) : list bool :=
  omap (fun i => match i with
                 | Item.Suppliers => Some true
                 | Item.NoSupplierHistory => Some false
                 | _ => None
                 end) c.

Definition hasSuppliers (node : Node.t) : bool :=
  match NetworkMap.relationships node with
  | [] => false
  | _ :: _ => true
  end.

(** [pat] occurs in [s]. *)
Fixpoint occurs (pat s : string) : bool :=
  String.prefix pat s
  || match s with
     | EmptyString => false
     | String _ s' => occurs pat s'
     end.

Section SelectionNotions.

Context {D A : Type}.
Variable key : D -> string.

(** A datum whose key no element of the group carries, and an element
    whose key no datum carries. *)
Definition isNew (group : list (Elem D A)) (d : D) : bool :=
  bool_decide (key d ∉ groupKeys key group).

Definition isGone (ds : list D) (e : Elem D A) : bool :=
  bool_decide (key (datum e) ∉ key <$> ds).

End SelectionNotions.

(** No two elements of a layer carry the same key. *)
Definition keysDistinct (this : NetworkMap.t) : Prop :=
  NoDup (groupKeys NetworkMap.edgeKey (NetworkMap.lines this)) /\
  NoDup (groupKeys Particle.key (NetworkMap.flows this)) /\
  NoDup (groupKeys NetworkMap.nodeKey (NetworkMap.groups this)) /\
  NoDup (groupKeys NetworkMap.nodeKey (NetworkMap.labels this)).

(** * Properties *)

Import NetworkMap.

(** ** Comparisons and defaults *)

Lemma gt_spec a b : JS.gt a b = true <-> b < a.
Proof. unfold JS.gt. rewrite Qgt_alt. destruct (a ?= b); split; congruence. Qed.

Lemma gt_false a b : JS.gt a b = false <-> a <= b.
Proof. unfold JS.gt. rewrite Qle_alt. destruct (a ?= b); split; congruence. Qed.

Lemma ge_spec a b : JS.ge a b = true <-> b <= a.
Proof. unfold JS.ge. rewrite Qge_alt. destruct (a ?= b); split; congruence. Qed.

Lemma ge_false a b : JS.ge a b = false <-> a < b.
Proof. unfold JS.ge. rewrite Qlt_alt. destruct (a ?= b); split; congruence. Qed.

Lemma truthy_spec x : JS.truthy x = true <-> ~ x == 0.
Proof.
  unfold JS.truthy. rewrite negb_true_iff.
  destruct (Qeq_bool x 0) eqn:E.
  - apply Qeq_bool_iff in E. split; [discriminate | tauto].
  - split; [| reflexivity]. intros _ H. apply Qeq_bool_iff in H. congruence.
Qed.

Lemma truthy_false x : JS.truthy x = false <-> x == 0.
Proof. unfold JS.truthy. rewrite negb_false_iff. apply Qeq_bool_iff. Qed.

Ltac case_gt a b :=
  let E := fresh "E" in
  destruct (JS.gt a b) eqn:E; [apply gt_spec in E | apply gt_false in E].

Ltac clamp_cases x :=
  unfold JS.max, JS.min; case_gt 1 x;
  match goal with |- context [JS.gt ?a ?b] => case_gt a b end.

Lemma clamp_bounds x : 0 <= JS.max 0 (JS.min 1 x) <= 1.
Proof. clamp_cases x; Lqa.lra. Qed.

Lemma clamp_zero x : JS.max 0 (JS.min 1 x) == 0 <-> x <= 0.
Proof. clamp_cases x; split; intros; Lqa.lra. Qed.

Lemma clamp_one x : JS.max 0 (JS.min 1 x) == 1 <-> 1 <= x.
Proof. clamp_cases x; split; intros; Lqa.lra. Qed.

Lemma clamp_id x : 0 <= x <= 1 -> JS.max 0 (JS.min 1 x) == x.
Proof. intros [H0 H1]. clamp_cases x; Lqa.lra. Qed.

Lemma div_le_0 a d : 0 < d -> (a / d <= 0 <-> a <= 0).
Proof.
  intros Hd. split; intros H.
  - destruct (Qlt_le_dec 0 a) as [Ha | Ha]; [exfalso | assumption].
    assert (0 < a / d) by (apply Qlt_shift_div_l; Lqa.lra). Lqa.lra.
  - apply Qle_shift_div_r; Lqa.lra.
Qed.

Lemma div_ge_1 a d : 0 < d -> (1 <= a / d <-> d <= a).
Proof.
  intros Hd. split; intros H.
  - destruct (Qlt_le_dec a d) as [Ha | Ha]; [exfalso | assumption].
    assert (a / d < 1) by (apply Qlt_shift_div_r; Lqa.lra). Lqa.lra.
  - apply Qle_shift_div_l; Lqa.lra.
Qed.

(** ** Progress of a flow particle *)

Lemma progress_positive_duration time d :
  0 < deliveryDuration d ->
  progress time d
  = JS.max 0 (JS.min 1 ((time - deliveryStartTime d) / deliveryDuration d)).
Proof. intros H. unfold progress. apply gt_spec in H. now rewrite H. Qed.

Lemma progress_bounds time d : 0 <= progress time d <= 1.
Proof. unfold progress. destruct (JS.gt _ 0); [apply clamp_bounds | Lqa.lra]. Qed.

Lemma progress_zero_iff time d :
  0 < deliveryDuration d ->
  (progress time d == 0 <-> time <= deliveryStartTime d).
Proof.
  intros Hd. rewrite progress_positive_duration by assumption.
  rewrite clamp_zero, div_le_0 by assumption. split; intros; Lqa.lra.
Qed.

Lemma progress_one_iff time d :
  0 < deliveryDuration d ->
  (progress time d == 1 <-> deliveryStartTime d + deliveryDuration d <= time).
Proof.
  intros Hd. rewrite progress_positive_duration by assumption.
  rewrite clamp_one, div_ge_1 by assumption. split; intros; Lqa.lra.
Qed.

Lemma progress_nonpositive_duration time d :
  deliveryDuration d <= 0 -> progress time d = 0.
Proof. intros Hd. unfold progress. apply gt_false in Hd. now rewrite Hd. Qed.

Lemma progress_at_start time d : time == deliveryStartTime d -> progress time d == 0.
Proof.
  intros E. destruct (Qlt_le_dec 0 (deliveryDuration d)) as [Hd | Hd].
  - apply (progress_zero_iff time d Hd). rewrite E. apply Qle_refl.
  - now rewrite progress_nonpositive_duration.
Qed.

Lemma progress_at_end time d :
  0 < deliveryDuration d ->
  time == deliveryStartTime d + deliveryDuration d -> progress time d == 1.
Proof.
  intros Hd E. apply (progress_one_iff time d Hd). rewrite E. apply Qle_refl.
Qed.

Lemma or_num_default x d : absent_or_zero x -> JS.or_num x d = d.
Proof.
  destruct x as [q |]; simpl; [| reflexivity].
  intros H. apply truthy_false in H. now rewrite H.
Qed.

Lemma or_num_present q d : ~ q == 0 -> JS.or_num (Some q) d = q.
Proof. intros H. apply truthy_spec in H. simpl. now rewrite H. Qed.

(** The start time the code uses is the field, and 0 when the field is
    missing; the duration it uses is the field when that is not 0. *)
Lemma deliveryStartTime_field d s :
  Delivery.start_time d = Some s \/ (Delivery.start_time d = None /\ s == 0) ->
  deliveryStartTime d == s.
Proof.
  unfold deliveryStartTime. intros [E | [E Hs]]; rewrite E; simpl.
  - destruct (JS.truthy s) eqn:T; [reflexivity |].
    apply truthy_false in T. now rewrite T.
  - now rewrite Hs.
Qed.

Lemma deliveryDuration_field d x :
  (Delivery.duration d = Some x /\ ~ x == 0)
  \/ (absent_or_zero (Delivery.duration d) /\ x == 10) ->
  deliveryDuration d == x.
Proof.
  unfold deliveryDuration. intros [[E Hx] | [E Hx]].
  - rewrite E, or_num_present by assumption. reflexivity.
  - rewrite or_num_default by assumption. now rewrite Hx.
Qed.

(** C1, as the code has it.  The progress of every delivery lies in
    [0, 1].  Let [s] be the [start_time] field of the delivery (0 when
    the field is missing) and [x] its [duration] field (10 when the
    field is missing or 0).  When [x] is positive, the progress is 0
    exactly when [time <= s], it is 1 exactly when [s + x <= time], and
    in between it is [(time - s) / x]; when [x] is negative the
    progress is 0 at every time. *)
Theorem progress_clamped (time : Q) (d : Delivery.t) :
  0 <= progress time d <= 1 /\
  forall s x : Q,
    Delivery.start_time d = Some s \/ (Delivery.start_time d = None /\ s == 0) ->
    (Delivery.duration d = Some x /\ ~ x == 0)
    \/ (absent_or_zero (Delivery.duration d) /\ x == 10) ->
    (0 < x ->
     (progress time d == 0 <-> time <= s) /\
     (progress time d == 1 <-> s + x <= time) /\
     (s <= time <= s + x -> progress time d == (time - s) / x)) /\
    (x < 0 -> progress time d == 0).
Proof.
  split; [apply progress_bounds |]. intros s x Hs Hx.
  apply deliveryStartTime_field in Hs. apply deliveryDuration_field in Hx.
  split.
  - intros Hpos. assert (Hd : 0 < deliveryDuration d) by now rewrite Hx.
    pose proof (progress_zero_iff time d Hd) as H0.
    pose proof (progress_one_iff time d Hd) as H1.
    rewrite Hs in H0. rewrite Hs, Hx in H1.
    split; [exact H0 | split; [exact H1 |]].
    intros [Hl Hu]. rewrite progress_positive_duration by assumption.
    assert (E : (time - deliveryStartTime d) / deliveryDuration d == (time - s) / x)
      by now rewrite Hs, Hx.
    rewrite clamp_id; [exact E |]. rewrite E. split.
    + apply Qle_shift_div_l; [assumption | Lqa.lra].
    + apply Qle_shift_div_r; [assumption | Lqa.lra].
  - intros Hneg. rewrite progress_nonpositive_duration; [reflexivity |].
    rewrite Hx. Lqa.lra.
Qed.

(** C1 at a delivery that starts at 2 and lasts 4, seen at time 3: it
    has made a quarter of its way. *)
Lemma progress_clamped_witness :
  0 <= progress 3 (Sample.delivery "order_1" (Some 2) (Some 4)) <= 1 /\
  ~ progress 3 (Sample.delivery "order_1" (Some 2) (Some 4)) == 0 /\
  ~ progress 3 (Sample.delivery "order_1" (Some 2) (Some 4)) == 1 /\
  progress 3 (Sample.delivery "order_1" (Some 2) (Some 4)) == 1 # 4.
Proof.
  destruct (progress_clamped 3 (Sample.delivery "order_1" (Some 2) (Some 4)))
    as (Hb & H).
  destruct (H 2 4) as [Hpos _].
  - left. reflexivity.
  - left. split; [reflexivity | discriminate].
  - destruct Hpos as (H0 & H1 & Hv); [reflexivity |].
    split; [exact Hb | split; [| split]].
    + intros E. apply H0 in E. vm_compute in E. apply E. reflexivity.
    + intros E. apply H1 in E. vm_compute in E. apply E. reflexivity.
    + rewrite Hv; [reflexivity |]. split; discriminate.
Defined.

(** C1 as the claim states it fails at a delivery whose duration is 0:
    at time 5 the delivery window [0 + 0 <= 5] is over, and the
    progress is 1/2. *)
Lemma progress_zero_duration_not_one :
  ~ (progress 5 Sample.zero_duration == 1 <-> 0 + 0 <= 5).
Proof.
  intros [_ H]. assert (E : progress 5 Sample.zero_duration == 1 # 2) by reflexivity.
  rewrite E in H. specialize (H ltac:(Lqa.lra)). discriminate H.
Qed.

(** C10.  A missing or zero [start_time] is read as 0, and a missing
    or zero [duration] as 10: the particle of such a delivery moves
    along its edge for 10 units of simulation time after the start, and
    reaches the end (progress 1) exactly from [start + 10] on. *)
Theorem default_start_and_duration (time : Q) (d : Delivery.t) :
  (absent_or_zero (Delivery.start_time d) -> deliveryStartTime d = 0) /\
  (absent_or_zero (Delivery.duration d) ->
   deliveryDuration d = 10 /\
   progress time d = JS.max 0 (JS.min 1 ((time - deliveryStartTime d) / 10)) /\
   (progress time d == 0 <-> time <= deliveryStartTime d) /\
   (progress time d == 1 <-> deliveryStartTime d + 10 <= time)).
Proof.
  split; intros H.
  - now apply or_num_default.
  - assert (E : deliveryDuration d = 10) by now apply or_num_default.
    split; [exact E |].
    assert (Hd : 0 < deliveryDuration d) by (rewrite E; reflexivity).
    pose proof (progress_zero_iff time d Hd) as H0.
    pose proof (progress_one_iff time d Hd) as H1. rewrite E in H1.
    rewrite <- E at 1. split; [| split]; try assumption.
    now apply progress_positive_duration.
Qed.

(** C10 at a delivery of duration 0 that starts at 0, seen at time 5:
    it is half way. *)
Lemma default_start_and_duration_witness :
  deliveryDuration Sample.zero_duration = 10 /\
  progress 5 Sample.zero_duration
  = JS.max 0 (JS.min 1 ((5 - deliveryStartTime Sample.zero_duration) / 10)).
Proof.
  destruct (default_start_and_duration 5 Sample.zero_duration) as [_ H].
  destruct H as (E & P & _); [reflexivity |].
  exact (conj E P).
Defined.
(** ** The data join *)

Section JoinFacts.

Context {D A : Type}.
Variable key : D -> string.

Lemma nodeByKeyValue_lookup (group : list (Elem D A)) : forall j0 m k,
  nodeByKeyValue key j0 group m !! k
  = match m !! k with
    | Some j => Some j
    | None => (fun i => (j0 + i)%nat) <$> firstIndex key k group
    end.
Proof.
  induction group as [| e g IH]; intros j0 m k; simpl.
  - now destruct (m !! k).
  - rewrite IH. destruct (m !! key (datum e)) eqn:E0.
    + destruct (m !! k) eqn:Ek; [reflexivity |].
      destruct (decide (key (datum e) = k)) as [E | _]; [congruence |].
      destruct (firstIndex key k g); simpl; f_equal; lia.
    + destruct (decide (key (datum e) = k)) as [E | Hne].
      * rewrite <- E, lookup_insert_eq, E0. simpl. f_equal. lia.
      * rewrite lookup_insert_ne by assumption.
        destruct (m !! k); [reflexivity |].
        destruct (firstIndex key k g); simpl; f_equal; lia.
Qed.

Lemma nodeByKeyValue_first (group : list (Elem D A)) k :
  nodeByKeyValue key 0 group ∅ !! k = firstIndex key k group.
Proof.
  rewrite nodeByKeyValue_lookup, lookup_empty.
  now destruct (firstIndex key k group).
Qed.

Lemma firstIndex_Some k (group : list (Elem D A)) j :
  firstIndex key k group = Some j ->
  exists e, group !! j = Some e /\ key (datum e) = k.
Proof.
  revert j. induction group as [| e g IH]; intros j; simpl; [discriminate |].
  destruct (decide (key (datum e) = k)) as [E | _].
  - intros [= <-]. eauto.
  - destruct (firstIndex key k g) as [j' |]; [| discriminate].
    intros [= <-]. apply IH. reflexivity.
Qed.

Lemma firstIndex_is_Some k (group : list (Elem D A)) :
  k ∈ groupKeys key group -> is_Some (firstIndex key k group).
Proof.
  unfold groupKeys. induction group as [| e g IH]; simpl.
  - intros H. inversion H.
  - intros H. destruct (decide (key (datum e) = k)); [eauto |].
    apply elem_of_cons in H as [H | H]; [congruence |].
    destruct (IH H) as [j ->]. eauto.
Qed.

Lemma firstIndex_NoDup (group : list (Elem D A)) j e :
  NoDup (groupKeys key group) -> group !! j = Some e ->
  firstIndex key (key (datum e)) group = Some j.
Proof.
  unfold groupKeys. revert j. induction group as [| e0 g IH]; intros j Hnd Hj; [discriminate |].
  simpl in *. apply NoDup_cons in Hnd as [Hnotin Hnd].
  destruct j as [| j]; simpl in Hj.
  - injection Hj as ->. now rewrite decide_True.
  - rewrite decide_False.
    + now rewrite (IH j Hnd Hj).
    + intros E. apply Hnotin. rewrite E.
      apply list_elem_of_fmap. exists e. split; [reflexivity |].
      eapply list_elem_of_lookup_2; eassumption.
Qed.

(** The second loop, without the case distinction: deleting a key that
    is absent changes nothing. *)
Lemma bindData_cons d ds m :
  bindData key (d :: ds) m
  = (m !! key d :: fst (bindData key ds (delete (key d) m)),
     snd (bindData key ds (delete (key d) m))).
Proof.
  simpl. destruct (m !! key d) eqn:E.
  - now destruct (bindData key ds (delete (key d) m)).
  - rewrite delete_id by assumption. now destruct (bindData key ds m).
Qed.

Lemma bindData_length ds : forall m, length (fst (bindData key ds m)) = length ds.
Proof.
  induction ds as [| d ds IH]; intros m; [reflexivity |].
  rewrite bindData_cons. simpl. now rewrite IH.
Qed.

Lemma bindData_final ds : forall m k,
  snd (bindData key ds m) !! k
  = if decide (k ∈ key <$> ds) then None else m !! k.
Proof.
  induction ds as [| d ds IH]; intros m k.
  - cbn [bindData snd]. case_decide as H; [inversion H | reflexivity].
  - rewrite bindData_cons. cbn [snd]. rewrite IH, fmap_cons.
    destruct (decide (k ∈ key <$> ds)) as [Hin | Hnotin].
    + rewrite decide_True; [reflexivity | now apply elem_of_cons; right].
    + destruct (decide (k = key d)) as [-> | Hne].
      * rewrite lookup_delete_eq. rewrite decide_True; [reflexivity | apply elem_of_cons; now left].
      * rewrite lookup_delete_ne by congruence.
        rewrite decide_False; [reflexivity |].
        intros H. apply elem_of_cons in H as [H | H]; congruence.
Qed.

(** Every datum whose key the map holds updates, when the keys of the
    data are pairwise distinct. *)
Lemma bindData_all_update ds : forall m,
  NoDup (key <$> ds) ->
  (forall d, d ∈ ds -> is_Some (m !! key d)) ->
  Forall is_Some (fst (bindData key ds m)).
Proof.
  induction ds as [| d ds IH]; intros m Hnd Hin; [constructor |].
  rewrite bindData_cons. simpl in *. apply NoDup_cons in Hnd as [Hnotin Hnd].
  constructor.
  - apply Hin. now left.
  - apply IH; [assumption |]. intros d' Hd'.
    rewrite lookup_delete_ne.
    + apply Hin. now right.
    + intros E. apply Hnotin. rewrite E. apply list_elem_of_fmap. eauto.
Qed.

(** The elements the data are bound to are pairwise distinct elements
    of the group. *)
Lemma bindData_targets ds : forall m,
  injective m ->
  NoDup (targets (fst (bindData key ds m))) /\
  (forall j, j ∈ targets (fst (bindData key ds m)) -> exists k, m !! k = Some j).
Proof.
  induction ds as [| d ds IH]; intros m Hinj.
  - cbn. split; [constructor | intros j H; inversion H].
  - rewrite bindData_cons. unfold targets in *. cbn [fst].
    assert (Hinj' : injective (delete (key d) m)).
    { intros k k' j H1 H2. apply lookup_delete_Some in H1 as [_ H1].
      apply lookup_delete_Some in H2 as [_ H2]. eauto. }
    destruct (IH _ Hinj') as [Hnd Hrange].
    assert (Hsub : forall j, j ∈ targets (fst (bindData key ds (delete (key d) m))) ->
                   exists k, k <> key d /\ m !! k = Some j).
    { intros j Hj. destruct (Hrange j Hj) as [k Hk].
      apply lookup_delete_Some in Hk as [Hne Hk]. eauto. }
    destruct (m !! key d) as [j0 |] eqn:E; simpl.
    + split.
      * apply NoDup_cons. split; [| assumption].
        intros Hj. destruct (Hsub _ Hj) as (k & Hne & Hk).
        apply Hne. eapply Hinj; eassumption.
      * intros j Hj. apply elem_of_cons in Hj as [-> | Hj]; [eauto |].
        destruct (Hsub _ Hj) as (k & _ & Hk). eauto.
    + split; [assumption |]. intros j Hj.
      destruct (Hsub _ Hj) as (k & _ & Hk). eauto.
Qed.

Lemma nodeByKeyValue_injective (group : list (Elem D A)) :
  injective (nodeByKeyValue key 0 group ∅).
Proof.
  intros k k' j H1 H2. rewrite nodeByKeyValue_first in H1, H2.
  apply firstIndex_Some in H1 as (e1 & G1 & <-).
  apply firstIndex_Some in H2 as (e2 & G2 & <-). congruence.
Qed.

(** *** The elements of a layer after a render *)

Lemma insertBefore_perm j (x : tag * Elem D A) dom : insertBefore j x dom ≡ₚ x :: dom.
Proof.
  induction dom as [| [[j' | i'] e] dom IH]; simpl; [reflexivity | |].
  - destruct (Nat.eqb j j'); [reflexivity |]. rewrite IH. apply perm_swap.
  - rewrite IH. apply perm_swap.
Qed.

Lemma appendEnter_perm (init : D -> A) ds : forall i u dom,
  appendEnter init i ds u dom ≡ₚ dom ++ newElems init i ds u.
Proof.
  induction ds as [| d ds IH]; intros i u dom; simpl.
  - now rewrite app_nil_r.
  - destruct u as [| [j |] u]; [now rewrite app_nil_r | apply IH |].
    rewrite IH. destruct (next_update u) as [j |].
    + rewrite insertBefore_perm. simpl. apply Permutation_middle.
    + rewrite <- app_assoc. reflexivity.
Qed.

Lemma rendered_new style remove data u0 (init : D -> A) ds : forall i u,
  datum <$> omap (rendered style remove data u0) (newElems init i ds u)
  = enterData ds u.
Proof.
  induction ds as [| d ds IH]; intros i u; [reflexivity |].
  destruct u as [| [j |] u']; simpl; [reflexivity | apply IH |].
  f_equal. apply IH.
Qed.

Lemma boundTo_index j (ds : list D) : forall i u,
  snd <$> boundTo j i ds u = snd <$> boundTo j 0 ds u.
Proof.
  induction ds as [| d ds IH]; intros i u; [reflexivity |].
  destruct u as [| [j' |] u']; simpl; [reflexivity | |].
  - destruct (Nat.eqb j j'); [reflexivity |]. now rewrite IH, (IH 1%nat).
  - now rewrite IH, (IH 1%nat).
Qed.

Lemma boundTo_None j (ds : list D) : forall i u,
  j ∉ targets u -> boundTo j i ds u = None.
Proof.
  induction ds as [| d ds IH]; intros i u Hj; [reflexivity |].
  destruct u as [| [j' |] u']; simpl; [reflexivity | |].
  - unfold targets in Hj. simpl in Hj. apply not_elem_of_cons in Hj as [Hne Hj].
    destruct (Nat.eqb_spec j j'); [congruence |]. now apply IH.
  - now apply IH.
Qed.

Lemma rendered_old style data u (g : list (Elem D A)) : forall j0,
  datum <$> omap (rendered style true data u) (imap (fun j e => (Old (j0 + j), e)) g)
  = omap (fun j => snd <$> boundTo j 0 data u) (seq j0 (length g)).
Proof.
  induction g as [| e g IH]; intros j0; [reflexivity |].
  rewrite imap_cons. simpl. rewrite Nat.add_0_r.
  rewrite (imap_ext _ (fun j e => (Old (S j0 + j), e))).
  2:{ intros j x _. simpl. f_equal. f_equal. lia. }
  destruct (boundTo j0 0 data u) as [[i d] |]; simpl; [f_equal |]; exact (IH (S j0)).
Qed.

Lemma omap_pointwise {B C : Type} (f g : B -> option C) (l : list B) :
  (forall x, f x = g x) -> omap f l = omap g l.
Proof.
  intros H. induction l as [| x l IH]; [reflexivity |].
  csimpl. now rewrite H, IH.
Qed.

Lemma omap_point {B : Type} (f : nat -> option B) (b : B) j0 : forall l : list nat,
  NoDup l -> j0 ∈ l -> f j0 = None ->
  omap (fun j => if Nat.eqb j j0 then Some b else f j) l ≡ₚ b :: omap f l.
Proof.
  induction l as [| j l IH]; intros Hnd Hin Hf; [inversion Hin |].
  apply NoDup_cons in Hnd as [Hnotin Hnd]. simpl.
  destruct (Nat.eqb_spec j j0) as [-> | Hne].
  - rewrite Hf. constructor.
    clear IH Hin Hnd. induction l as [| x l IH]; [reflexivity |].
    apply not_elem_of_cons in Hnotin as [Hne Hnotin]. simpl.
    destruct (Nat.eqb_spec x j0); [congruence |].
    destruct (f x); [constructor |]; now apply IH.
  - apply elem_of_cons in Hin as [-> | Hin]; [congruence |].
    destruct (f j); [| now apply IH].
    rewrite IH by assumption. apply perm_swap.
Qed.

(** The data bound to old elements, with those that enter, are the data. *)
Lemma bound_perm n (ds : list D) : forall i u,
  length u = length ds ->
  NoDup (targets u) -> (forall j, j ∈ targets u -> (j < n)%nat) ->
  omap (fun j => snd <$> boundTo j i ds u) (seq 0 n) ++ enterData ds u ≡ₚ ds.
Proof.
  induction ds as [| d ds IH]; intros i u Hlen Hnd Hlt.
  - simpl. rewrite app_nil_r. clear. induction (seq 0 n); [reflexivity | assumption].
  - destruct u as [| [j0 |] u']; [discriminate | |]; simpl in Hlen;
      injection Hlen as Hlen; unfold targets in *; simpl in Hnd, Hlt.
    + apply NoDup_cons in Hnd as [Hnotin Hnd].
      rewrite (omap_pointwise _
                 (fun j => if Nat.eqb j j0 then Some d
                           else snd <$> boundTo j (S i) ds u')).
      2:{ intros j. simpl. now destruct (Nat.eqb j j0). }
      rewrite (omap_point (fun j => snd <$> boundTo j (S i) ds u') d j0).
      * simpl. constructor. apply IH; [assumption .. |].
        intros j Hj. apply Hlt. now right.
      * apply NoDup_seq.
      * apply elem_of_seq. split; [lia |]. simpl. apply Hlt. now left.
      * now rewrite boundTo_None.
    + simpl. rewrite <- Permutation_middle. constructor. now apply IH.
Qed.

Lemma bindKey_update (group : list (Elem D A)) ds :
  updateGroup (bindKey key group ds)
  = fst (bindData key ds (nodeByKeyValue key 0 group ∅)).
Proof. unfold bindKey. now destruct (bindData key ds _). Qed.

Lemma bindKey_exit (group : list (Elem D A)) ds :
  exitGroup (bindKey key group ds)
  = imap (exits key (nodeByKeyValue key 0 group ∅)
                (snd (bindData key ds (nodeByKeyValue key 0 group ∅)))) group.
Proof. unfold bindKey. now destruct (bindData key ds _). Qed.

Lemma bindKey_targets (group : list (Elem D A)) ds :
  NoDup (targets (updateGroup (bindKey key group ds))) /\
  (forall j, j ∈ targets (updateGroup (bindKey key group ds)) ->
             (j < length group)%nat).
Proof.
  rewrite bindKey_update.
  destruct (bindData_targets ds _ (nodeByKeyValue_injective group)) as [Hnd Hr].
  split; [assumption |]. intros j Hj. destruct (Hr j Hj) as [k Hk].
  rewrite nodeByKeyValue_first in Hk.
  apply firstIndex_Some in Hk as (e & He & _).
  eapply lookup_lt_Some; eassumption.
Qed.

(** After a render that removes the exit selection, the data bound to
    the elements of the layer are the data of the join, each once. *)
Lemma reconcile_data init style (group : list (Elem D A)) ds :
  datum <$> reconcile key init style true group ds ≡ₚ ds.
Proof.
  unfold reconcile. rewrite appendEnter_perm, omap_app, fmap_app.
  rewrite rendered_new. rewrite (rendered_old _ _ _ group 0). simpl.
  destruct (bindKey_targets group ds) as [Hnd Hlt].
  apply bound_perm; try assumption.
  rewrite bindKey_update. apply bindData_length.
Qed.

(** After a render that was cut short before the exit selection was
    removed, every datum is still bound to an element. *)
Lemma reconcile_data_kept init style (group : list (Elem D A)) ds d :
  d ∈ ds -> d ∈ datum <$> reconcile key init style false group ds.
Proof.
  intros Hd. rewrite <- (reconcile_data init style group ds) in Hd.
  unfold reconcile in *.
  apply list_elem_of_fmap in Hd as (e & -> & He).
  apply list_elem_of_omap in He as (x & Hx & Hr).
  apply list_elem_of_fmap. exists e. split; [reflexivity |].
  apply list_elem_of_omap. exists x. split; [assumption |].
  destruct x as [[j | i] e0]; simpl in *; [| assumption].
  destruct (boundTo j 0 ds _) as [[i d'] |]; [assumption | discriminate].
Qed.

Lemma omap_nil {B C : Type} (f : B -> option C) (l : list B) :
  Forall (fun x => f x = None) l -> omap f l = [].
Proof.
  induction 1 as [| x l Hx _ IH]; [reflexivity |]. csimpl. now rewrite Hx.
Qed.

(** No datum enters when the keys of the data are pairwise distinct and
    each is the key of an element of the group. *)
Lemma entering_nil (group : list (Elem D A)) ds :
  NoDup (key <$> ds) ->
  (forall d, d ∈ ds -> key d ∈ groupKeys key group) ->
  entering key group ds = [].
Proof.
  intros Hnd Hin. unfold entering. rewrite bindKey_update.
  assert (Hall : Forall is_Some (fst (bindData key ds (nodeByKeyValue key 0 group ∅)))).
  { apply bindData_all_update; [assumption |]. intros d Hd.
    rewrite nodeByKeyValue_first. apply firstIndex_is_Some. now apply Hin. }
  apply omap_nil. apply Forall_forall. intros [d o] Hz.
  apply elem_of_zip_r in Hz. rewrite Forall_forall in Hall.
  now destruct (Hall o Hz) as [j ->].
Qed.

(** No element exits when the keys of the group are pairwise distinct
    and each is the key of a datum. *)
Lemma exiting_nil (group : list (Elem D A)) ds :
  NoDup (groupKeys key group) ->
  (forall k, k ∈ groupKeys key group -> k ∈ key <$> ds) ->
  exiting key group ds = [].
Proof.
  intros Hnd Hin. unfold exiting. rewrite bindKey_exit.
  apply omap_nil. apply Forall_lookup. intros j [e b] Hz.
  apply lookup_zip_with_Some in Hz as (e' & b' & [= <- <-] & He & Hb).
  rewrite list_lookup_imap, He in Hb. simpl in Hb. injection Hb as <-.
  unfold exits. rewrite nodeByKeyValue_first, (firstIndex_NoDup group j e) by assumption.
  rewrite bindData_final. rewrite decide_True.
  - rewrite bool_decide_true by reflexivity. now rewrite bool_decide_false.
  - apply Hin. unfold groupKeys. apply list_elem_of_fmap. exists e.
    split; [reflexivity |]. eapply list_elem_of_lookup_2; eassumption.
Qed.

Lemma reconcile_keys init style (group : list (Elem D A)) ds :
  groupKeys key (reconcile key init style true group ds) ≡ₚ key <$> ds.
Proof.
  unfold groupKeys.
  change ((key ∘ datum) <$> reconcile key init style true group ds ≡ₚ key <$> ds).
  now rewrite list_fmap_compose, reconcile_data.
Qed.

(** A render of the data that a layer was just rendered from creates
    and removes nothing. *)
Lemma reconcile_again init style (group : list (Elem D A)) ds :
  NoDup (key <$> ds) ->
  entering key (reconcile key init style true group ds) ds = [] /\
  exiting key (reconcile key init style true group ds) ds = [].
Proof.
  intros Hnd. pose proof (reconcile_keys init style group ds) as Hk. split.
  - apply entering_nil; [assumption |]. intros d Hd. rewrite Hk.
    apply list_elem_of_fmap. eauto.
  - apply exiting_nil; [now rewrite Hk |]. intros k. now rewrite Hk.
Qed.

Lemma reconcile_kept_again init style (group : list (Elem D A)) ds :
  NoDup (key <$> ds) ->
  entering key (reconcile key init style false group ds) ds = [].
Proof.
  intros Hnd. apply entering_nil; [assumption |]. intros d Hd.
  unfold groupKeys.
  change (key d ∈ (key ∘ datum) <$> reconcile key init style false group ds).
  rewrite list_fmap_compose.
  apply list_elem_of_fmap. exists d. split; [reflexivity |].
  now apply reconcile_data_kept.
Qed.

(** *** The exit selection is what a render removes *)

Lemma targets_iff ds : forall m j,
  j ∈ targets (fst (bindData key ds m)) <-> exists d, d ∈ ds /\ m !! key d = Some j.
Proof.
  induction ds as [| d ds IH]; intros m j.
  - cbn. split; [intros H; inversion H | intros (d & H & _); inversion H].
  - rewrite bindData_cons. unfold targets in *. cbn [fst].
    assert (E : j ∈ omap (fun o : option nat => o)
                       (m !! key d :: fst (bindData key ds (delete (key d) m)))
                <-> m !! key d = Some j \/
                    j ∈ omap (fun o : option nat => o)
                          (fst (bindData key ds (delete (key d) m)))).
    { csimpl. destruct (m !! key d) as [j0 |].
      - rewrite elem_of_cons. split; intros [H | H]; auto; left; congruence.
      - split; [auto | intros [H | H]; [discriminate | assumption]]. }
    rewrite E, IH. clear E. split.
    + intros [H | (d' & Hd' & H)].
      * exists d. split; [now left | assumption].
      * apply lookup_delete_Some in H as [_ H]. exists d'. split; [now right | assumption].
    + intros (d' & Hd' & H). apply elem_of_cons in Hd' as [-> | Hd']; [now left |].
      destruct (decide (key d = key d')) as [E | Hne].
      * left. now rewrite E.
      * right. exists d'. split; [assumption |]. now rewrite lookup_delete_ne.
Qed.

Lemma boundTo_is_Some j (ds : list D) : forall i u,
  length u = length ds -> j ∈ targets u -> is_Some (boundTo j i ds u).
Proof.
  induction ds as [| d ds IH]; intros i u Hlen Hj.
  - destruct u; [inversion Hj | discriminate].
  - destruct u as [| [j' |] u']; [discriminate | |]; simpl in Hlen;
      injection Hlen as Hlen; unfold targets in *; simpl in *.
    + destruct (Nat.eqb_spec j j'); [eauto |].
      apply elem_of_cons in Hj as [-> | Hj]; [congruence | now apply IH].
    + now apply IH.
Qed.

(** An element of the group is in the exit selection exactly when no
    datum was bound to it. *)
Lemma exit_iff_unbound (group : list (Elem D A)) ds j e :
  group !! j = Some e ->
  exitGroup (bindKey key group ds) !! j = Some true
  <-> boundTo j 0 ds (updateGroup (bindKey key group ds)) = None.
Proof.
  intros He. rewrite bindKey_exit, bindKey_update, list_lookup_imap, He. simpl.
  set (m1 := nodeByKeyValue key 0 group ∅).
  assert (Hb : is_Some (boundTo j 0 ds (fst (bindData key ds m1)))
               <-> m1 !! key (datum e) = Some j /\ key (datum e) ∈ key <$> ds).
  { split.
    - intros Hs. destruct (decide (j ∈ targets (fst (bindData key ds m1)))) as [Hj | Hj].
      + apply targets_iff in Hj as (d & Hd & Hm). pose proof Hm as Hf.
        unfold m1 in Hf. rewrite nodeByKeyValue_first in Hf.
        apply firstIndex_Some in Hf as (e' & He' & Hk).
        assert (e' = e) by congruence. subst e'. rewrite Hk. split; [assumption |].
        apply list_elem_of_fmap. eauto.
      + rewrite (boundTo_None j ds 0 _ Hj) in Hs. now destruct Hs.
    - intros [Hm Hk]. apply boundTo_is_Some; [apply bindData_length |].
      apply list_elem_of_fmap in Hk as (d & Hk & Hd).
      apply targets_iff. exists d. split; [assumption | congruence]. }
  unfold exits. rewrite bindData_final. fold m1.
  destruct (boundTo j 0 ds (fst (bindData key ds m1))) as [p |] eqn:E.
  - destruct Hb as [Hb _]. destruct (Hb ltac:(eauto)) as [Hm Hk].
    rewrite decide_True by assumption.
    rewrite bool_decide_true by assumption. rewrite bool_decide_false by discriminate.
    simpl. split; discriminate.
  - split; [reflexivity | intros _]. f_equal.
    destruct (bool_decide (m1 !! key (datum e) = Some j)) eqn:B1; [| reflexivity].
    apply bool_decide_eq_true in B1. simpl.
    destruct (decide (key (datum e) ∈ key <$> ds)) as [Hk | Hk].
    + destruct Hb as [_ Hb]. destruct (Hb (conj B1 Hk)) as [? ?]. discriminate.
    + now apply bool_decide_true.
Qed.

End JoinFacts.

(** ** Edges *)

(** C8, as the code has it.  The colour of a line depends on the
    category alone; a structural line has width 1 whatever its activity
    count; a pending-order or delivery line has width 2 when the count
    is positive and 1 otherwise; and the stroke opacity of every line,
    structural ones included, is 0.6 when the count is positive and 0.2
    otherwise. *)
Theorem edge_style (d : Edge.t) :
  (Edge.edge_type d = "structural" ->
   edgeStroke d = "rgba(100, 100, 100, 0.2)" /\ edgeStrokeWidth d = 1) /\
  (Edge.edge_type d = "order_placement" ->
   edgeStroke d = "rgba(59, 130, 246, 0.7)" /\
   edgeStrokeWidth d = if JS.gt (Edge.active_orders d) 0 then 2 else 1) /\
  (Edge.edge_type d = "delivery" ->
   edgeStroke d = "rgba(239, 68, 68, 0.7)" /\
   edgeStrokeWidth d = if JS.gt (Edge.active_orders d) 0 then 2 else 1) /\
  (0 < Edge.active_orders d -> edgeStrokeOpacity d = 6 # 10) /\
  (Edge.active_orders d <= 0 -> edgeStrokeOpacity d = 2 # 10).
Proof.
  unfold edgeStroke, edgeStrokeWidth, edgeStrokeOpacity.
  split; [| split; [| split; [| split]]].
  - intros ->. split; reflexivity.
  - intros ->. split; reflexivity.
  - intros ->. split; reflexivity.
  - intros H. apply gt_spec in H. now rewrite H.
  - intros H. apply gt_false in H. now rewrite H.
Qed.

(** C8 at an active delivery edge: red, width 2, opacity 0.6. *)
Lemma edge_style_witness :
  let d := Sample.edge "delivery" "chicago_center" "distributor_ny" 3 [] in
  edgeStroke d = "rgba(239, 68, 68, 0.7)" /\
  edgeStrokeWidth d = 2 /\
  edgeStrokeOpacity d = 6 # 10.
Proof.
  intros d. destruct (edge_style d) as (_ & _ & Hd & Ha & _).
  destruct Hd as [Hs Hw]; [reflexivity |].
  split; [exact Hs | split; [exact Hw | apply Ha; reflexivity]].
Defined.

(** C8 as the claim states it fails on the opacity of structural
    edges: two structural edges that differ in their activity count
    alone are drawn with different opacities. *)
Lemma structural_opacity_follows_activity :
  Edge.edge_type Sample.structural_idle = "structural" /\
  Edge.edge_type Sample.structural_active = "structural" /\
  edgeStrokeOpacity Sample.structural_idle = 2 # 10 /\
  edgeStrokeOpacity Sample.structural_active = 6 # 10 /\
  edgeStrokeOpacity Sample.structural_active <> edgeStrokeOpacity Sample.structural_idle.
Proof. split; [| split; [| split; [| split]]]; try reflexivity. discriminate. Qed.

(** ** Node radius *)

Lemma fold_left_sum (f : Node.t -> Q) (l : list Node.t) : forall a,
  fold_left (fun sum n => sum + f n) l a == a + Qsum (f <$> l).
Proof.
  induction l as [| n l IH]; intros a; cbn [fold_left].
  - change (Qsum (f <$> [])) with 0. ring.
  - rewrite IH. change (Qsum (f <$> n :: l)) with (f n + Qsum (f <$> l)). ring.
Qed.

(** The total of a type is the sum of the field over the nodes of that
    type. *)
Lemma total_sum (ty k : string) (ns : list Node.t) :
  total ty k ns
  == Qsum ((fun n => JS.or_num (num_field k (Node.state n)) 0) <$> ofType ty ns).
Proof. unfold total. rewrite fold_left_sum. unfold ofType. ring. Qed.

Lemma ofType_pair ty ns a b :
  ofType ty ns = [a; b] -> Node.type a = ty /\ Node.type b = ty.
Proof.
  intros E.
  assert (H : forall n, n ∈ ofType ty ns -> Node.type n = ty).
  { intros n Hn. unfold ofType in Hn. apply list_elem_of_In, filter_In in Hn as [_ Hn].
    now apply String.eqb_eq. }
  rewrite E in H. split; apply H; [left | right; left].
Qed.

Lemma num_field_Num k st q : field k st = Some (Value.Num q) -> num_field k st = Some q.
Proof. unfold num_field. now intros ->. Qed.

Lemma share_le f g T : 0 < T -> f <= g -> f / T <= g / T.
Proof.
  intros HT H. unfold Qdiv. apply Qmult_le_compat_r; [exact H |].
  apply Qlt_le_weak, Qinv_lt_0_compat, HT.
Qed.

Lemma share_lt f g T : 0 < T -> f < g -> f / T < g / T.
Proof.
  intros HT H. unfold Qdiv. apply Qmult_lt_compat_r; [| exact H].
  apply Qinv_lt_0_compat, HT.
Qed.

(** C7.  The radius of a manufacturing centre is 4 plus its share of
    the production of all manufacturing centres of the snapshot (its
    production rate divided by the sum of theirs) times the span of the
    range [4, 12]; the radius of any other node, a distributor, is 3
    plus its share of the orders placed by all distributors times the
    span of the range [3, 9]; when the sum is not positive the share is
    replaced by 0.33 and 0.125.  So among the nodes of one type the
    radius grows with the field, strictly when the sum is positive.  In
    a snapshot whose nodes of one type are two nodes with the fields 10
    and 30, the first has share 10/40, the second 30/40, the first has
    the smaller radius and both radii lie in the range of the type. *)
Theorem node_radius (ns : list Node.t) (d : Node.t) :
  let production := fun n => JS.or_num (num_field "production_rate" (Node.state n)) 0 in
  let orders := fun n => JS.or_num (num_field "orders_placed" (Node.state n)) 0 in
  let produced := Qsum (production <$> ofType "manufacturing_center" ns) in
  let ordered := Qsum (orders <$> ofType "distributor" ns) in
  (Node.type d = "manufacturing_center" ->
   (0 < produced -> nodeRadius ns d == 4 + production d / produced * (12 - 4)) /\
   (produced <= 0 -> nodeRadius ns d == 4 + (33 # 100) * (12 - 4))) /\
  (Node.type d <> "manufacturing_center" ->
   (0 < ordered -> nodeRadius ns d == 3 + orders d / ordered * (9 - 3)) /\
   (ordered <= 0 -> nodeRadius ns d == 3 + (125 # 1000) * (9 - 3))) /\
  (forall e : Node.t,
     Node.type d = "manufacturing_center" -> Node.type e = "manufacturing_center" ->
     (production d <= production e -> nodeRadius ns d <= nodeRadius ns e) /\
     (production d < production e -> 0 < produced -> nodeRadius ns d < nodeRadius ns e)) /\
  (forall e : Node.t,
     Node.type d <> "manufacturing_center" -> Node.type e <> "manufacturing_center" ->
     (orders d <= orders e -> nodeRadius ns d <= nodeRadius ns e) /\
     (orders d < orders e -> 0 < ordered -> nodeRadius ns d < nodeRadius ns e)) /\
  (forall a b : Node.t,
     ofType "manufacturing_center" ns = [a; b] ->
     field "production_rate" (Node.state a) = Some (Value.Num 10) ->
     field "production_rate" (Node.state b) = Some (Value.Num 30) ->
     nodeRadius ns a == 4 + (10 # 40) * (12 - 4) /\
     nodeRadius ns b == 4 + (30 # 40) * (12 - 4) /\
     nodeRadius ns a < nodeRadius ns b /\
     4 <= nodeRadius ns a <= 12 /\ 4 <= nodeRadius ns b <= 12) /\
  (forall a b : Node.t,
     ofType "distributor" ns = [a; b] ->
     field "orders_placed" (Node.state a) = Some (Value.Num 10) ->
     field "orders_placed" (Node.state b) = Some (Value.Num 30) ->
     nodeRadius ns a == 3 + (10 # 40) * (9 - 3) /\
     nodeRadius ns b == 3 + (30 # 40) * (9 - 3) /\
     nodeRadius ns a < nodeRadius ns b /\
     3 <= nodeRadius ns a <= 9 /\ 3 <= nodeRadius ns b <= 9).
Proof.
  cbn zeta.
  pose proof (total_sum "manufacturing_center" "production_rate" ns) as EP.
  pose proof (total_sum "distributor" "orders_placed" ns) as EO.
  fold (totalProduction ns) in EP. fold (totalOrders ns) in EO.
  set (production := fun n => JS.or_num (num_field "production_rate" (Node.state n)) 0) in *.
  set (orders := fun n => JS.or_num (num_field "orders_placed" (Node.state n)) 0) in *.
  assert (Rm : forall n, Node.type n = "manufacturing_center" ->
                 nodeRadius ns n
                 = 4 + (if JS.gt (totalProduction ns) 0
                        then production n / totalProduction ns else 33 # 100) * 8).
  { intros n Ht. unfold nodeRadius. now rewrite Ht. }
  assert (Rd : forall n, Node.type n <> "manufacturing_center" ->
                 nodeRadius ns n
                 = 3 + (if JS.gt (totalOrders ns) 0
                        then orders n / totalOrders ns else 125 # 1000) * 6).
  { intros n Ht. unfold nodeRadius. apply String.eqb_neq in Ht. now rewrite Ht. }
  rewrite <- EP, <- EO.
  split; [| split; [| split; [| split; [| split]]]].
  - intros Ht. rewrite (Rm d Ht). split; intros H.
    + pose proof H as G. apply gt_spec in G. rewrite G. ring.
    + pose proof H as G. apply gt_false in G. rewrite G. ring.
  - intros Ht. rewrite (Rd d Ht). split; intros H.
    + pose proof H as G. apply gt_spec in G. rewrite G. ring.
    + pose proof H as G. apply gt_false in G. rewrite G. ring.
  - intros e Hd He. rewrite (Rm d Hd), (Rm e He).
    case_gt (totalProduction ns) 0; split; intros H; try Lqa.lra.
    + pose proof (share_le _ _ _ E H). Lqa.lra.
    + intros _. pose proof (share_lt _ _ _ E H). Lqa.lra.
  - intros e Hd He. rewrite (Rd d Hd), (Rd e He).
    case_gt (totalOrders ns) 0; split; intros H; try Lqa.lra.
    + pose proof (share_le _ _ _ E H). Lqa.lra.
    + intros _. pose proof (share_lt _ _ _ E H). Lqa.lra.
  - intros a b Hab Fa Fb. destruct (ofType_pair _ _ _ _ Hab) as [Ha Hb].
    rewrite Hab in EP. rewrite (Rm a Ha), (Rm b Hb).
    assert (Pa : production a = 10).
    { unfold production. now rewrite (num_field_Num _ _ _ Fa). }
    assert (Pb : production b = 30).
    { unfold production. now rewrite (num_field_Num _ _ _ Fb). }
    assert (ET : totalProduction ns == 40).
    { rewrite EP. cbn. rewrite Pa, Pb. reflexivity. }
    assert (G : JS.gt (totalProduction ns) 0 = true) by (apply gt_spec; rewrite ET; reflexivity).
    rewrite G, Pa, Pb, ET. repeat split; reflexivity || discriminate.
  - intros a b Hab Fa Fb. destruct (ofType_pair _ _ _ _ Hab) as [Ha Hb].
    assert (Na : Node.type a <> "manufacturing_center") by (rewrite Ha; discriminate).
    assert (Nb : Node.type b <> "manufacturing_center") by (rewrite Hb; discriminate).
    rewrite Hab in EO. rewrite (Rd a Na), (Rd b Nb).
    assert (Pa : orders a = 10).
    { unfold orders. now rewrite (num_field_Num _ _ _ Fa). }
    assert (Pb : orders b = 30).
    { unfold orders. now rewrite (num_field_Num _ _ _ Fb). }
    assert (ET : totalOrders ns == 40).
    { rewrite EO. cbn. rewrite Pa, Pb. reflexivity. }
    assert (G : JS.gt (totalOrders ns) 0 = true) by (apply gt_spec; rewrite ET; reflexivity).
    rewrite G, Pa, Pb, ET. repeat split; reflexivity || discriminate.
Qed.

(** C7 at Chicago, New York (10 orders placed) and Boston (30 orders
    placed): the two distributors share the orders 10 to 30. *)
Lemma node_radius_witness :
  nodeRadius [Sample.chicago; Sample.new_york; Sample.boston] Sample.new_york
  == 3 + (10 # 40) * (9 - 3) /\
  nodeRadius [Sample.chicago; Sample.new_york; Sample.boston] Sample.boston
  == 3 + (30 # 40) * (9 - 3) /\
  nodeRadius [Sample.chicago; Sample.new_york; Sample.boston] Sample.new_york
  < nodeRadius [Sample.chicago; Sample.new_york; Sample.boston] Sample.boston.
Proof.
  destruct (node_radius [Sample.chicago; Sample.new_york; Sample.boston] Sample.new_york)
    as (_ & _ & _ & _ & _ & H).
  destruct (H Sample.new_york Sample.boston) as (Ea & Eb & L & _); try reflexivity.
  exact (conj Ea (conj Eb L)).
Defined.

(** *** The range of the radius *)

Lemma fold_sum_ge (f : Node.t -> Q) (l : list Node.t) : forall a,
  (forall n, n ∈ l -> 0 <= f n) ->
  a <= fold_left (fun sum n => sum + f n) l a /\
  (forall d, d ∈ l -> a + f d <= fold_left (fun sum n => sum + f n) l a).
Proof.
  induction l as [| n l IH]; intros a Hpos; simpl.
  - split; [Lqa.lra | intros d H; inversion H].
  - assert (Hn : 0 <= f n) by (apply Hpos; now left).
    destruct (IH (a + f n)) as [H1 H2]; [intros m Hm; apply Hpos; now right |].
    split; [Lqa.lra |]. intros d Hd. apply elem_of_cons in Hd as [-> | Hd]; [exact H1 |].
    specialize (H2 d Hd). Lqa.lra.
Qed.

Lemma total_ge (ty k : string) (ns : list Node.t) (d : Node.t) :
  (forall n, n ∈ ns -> 0 <= JS.or_num (num_field k (Node.state n)) 0) ->
  d ∈ ns -> Node.type d = ty ->
  0 <= JS.or_num (num_field k (Node.state d)) 0 <= total ty k ns.
Proof.
  intros Hpos Hd Ht. split; [now apply Hpos |]. unfold total.
  destruct (fold_sum_ge (fun n => JS.or_num (num_field k (Node.state n)) 0)
              (List.filter (fun n => String.eqb (Node.type n) ty) ns) 0) as [_ H].
  - intros n Hn. apply list_elem_of_In, filter_In in Hn as [Hn _].
    apply Hpos. now apply list_elem_of_In.
  - specialize (H d). rewrite Qplus_0_l in H. apply H.
    apply list_elem_of_In, filter_In. split; [now apply list_elem_of_In |].
    now apply String.eqb_eq.
Qed.

Lemma ratio_in_unit x y : 0 <= x <= y -> 0 < y -> 0 <= x / y <= 1.
Proof.
  intros [H0 H1] Hy. split.
  - apply Qle_shift_div_l; Lqa.lra.
  - apply Qle_shift_div_r; Lqa.lra.
Qed.

(** X21.  When no node has a negative production rate or a negative
    count of orders placed, the radius of every node of the snapshot
    lies in the range of its type: 4 to 12 for a manufacturing centre,
    3 to 9 for a distributor. *)
Lemma node_radius_in_range (ns : list Node.t) (d : Node.t) :
  (forall n, n ∈ ns ->
             0 <= JS.or_num (num_field "production_rate" (Node.state n)) 0 /\
             0 <= JS.or_num (num_field "orders_placed" (Node.state n)) 0) ->
  d ∈ ns ->
  (Node.type d = "manufacturing_center" -> 4 <= nodeRadius ns d <= 12) /\
  (Node.type d = "distributor" -> 3 <= nodeRadius ns d <= 9).
Proof.
  intros Hpos Hd. split; intros Ht; unfold nodeRadius; rewrite Ht; simpl.
  - case_gt (totalProduction ns) 0; [| split; discriminate].
    destruct (ratio_in_unit
                (JS.or_num (num_field "production_rate" (Node.state d)) 0)
                (totalProduction ns)); [| assumption | Lqa.lra].
    apply total_ge; [intros n Hn; now apply Hpos | assumption .. ].
  - case_gt (totalOrders ns) 0; [| split; discriminate].
    destruct (ratio_in_unit
                (JS.or_num (num_field "orders_placed" (Node.state d)) 0)
                (totalOrders ns)); [| assumption | Lqa.lra].
    apply total_ge; [intros n Hn; now apply Hpos | assumption .. ].
Qed.

(** X21 at Boston among Chicago, New York and Boston. *)
Lemma node_radius_in_range_witness :
  3 <= nodeRadius [Sample.chicago; Sample.new_york; Sample.boston] Sample.boston <= 9.
Proof.
  apply (node_radius_in_range [Sample.chicago; Sample.new_york; Sample.boston]
           Sample.boston).
  - intros n Hn.
    repeat (apply elem_of_cons in Hn as [-> | Hn]); [.. | inversion Hn];
      split; vm_compute; discriminate.
  - right. right. left.
  - reflexivity.
Defined.

(** ** Running the methods *)

Section Runs.

Variable projection : Q * Q -> option (Q * Q).

Lemma renderOrderFlows_run (this : t) :
  renderOrderFlows projection this
  = (JS.Ok tt, set_flows (renderedFlows projection this) this,
     creates Particle.key Flows (flows this) (deliveryParticles (edges this))
     ++ destroys Particle.key Flows (flows this) (deliveryParticles (edges this))).
Proof. reflexivity. Qed.

Lemma renderEdges_run (this : t) :
  renderEdges projection this
  = (JS.Ok tt,
     set_flows (renderedFlows projection (set_lines (renderedLines projection this) this))
               (set_lines (renderedLines projection this) this),
     creates edgeKey Lines (lines this) (edges this)
     ++ destroys edgeKey Lines (lines this) (edges this)
     ++ creates Particle.key Flows (flows this) (deliveryParticles (edges this))
     ++ destroys Particle.key Flows (flows this) (deliveryParticles (edges this))).
Proof. reflexivity. Qed.

Lemma renderLabels_run (this : t) :
  renderLabels projection this
  = match firstUnprojectable projection 0 (nodes this) with
    | Some f =>
        (JS.Throw, set_labels (cutLabels projection f this) this,
         creates nodeKey Labels (labels this) (nodes this))
    | None =>
        (JS.Ok tt, set_labels (renderedLabels projection this) this,
         creates nodeKey Labels (labels this) (nodes this)
         ++ destroys nodeKey Labels (labels this) (nodes this))
    end.
Proof.
  unfold renderLabels, bind, get, perform, modify, throw.
  destruct (firstUnprojectable projection 0 (nodes this)); simpl;
    now rewrite ?app_nil_r.
Qed.

Lemma renderNodes_run (this : t) :
  renderNodes projection this
  = match firstUnprojectable projection 0 (nodes this) with
    | Some f =>
        (JS.Throw, set_groups (cutGroups projection f this) this,
         creates nodeKey Groups (groups this) (nodes this))
    | None =>
        (JS.Ok tt,
         set_labels (renderedLabels projection this)
                    (set_groups (renderedGroups projection this) this),
         creates nodeKey Groups (groups this) (nodes this)
         ++ destroys nodeKey Groups (groups this) (nodes this)
         ++ creates nodeKey Labels (labels this) (nodes this)
         ++ destroys nodeKey Labels (labels this) (nodes this))
    end.
Proof.
  unfold renderNodes. unfold bind at 1 2. unfold get, perform. simpl.
  destruct (firstUnprojectable projection 0 (nodes this)) eqn:E.
  - unfold bind, modify, throw. simpl. now rewrite ?app_nil_r.
  - unfold bind at 1 2. unfold modify, perform. simpl.
    rewrite renderLabels_run. simpl. rewrite E. reflexivity.
Qed.

Lemma updateTooltip_run (node : Node.t) (this : t) :
  updateTooltip node this
  = match tooltip this with
    | None => (JS.Ok tt, this, [])
    | Some _ =>
        if tooltipThrows node then (JS.Throw, this, [])
        else (JS.Ok tt, set_tooltip (Some (tooltipContent this node)) this, [])
    end.
Proof.
  unfold updateTooltip, bind, get. simpl.
  destruct (tooltip this); [| reflexivity]. now destruct (tooltipThrows node).
Qed.

Lemma updateDetailsPanel_run (node : Node.t) (this : t) :
  updateDetailsPanel node this
  = match panel this with
    | None => (JS.Ok tt, this, [])
    | Some p =>
        if detailsThrows node
        then (JS.Throw, set_panel (Some (detailsHeader node p)) this, [])
        else (JS.Ok tt, set_panel (Some (details this node)) this, [])
    end.
Proof.
  unfold updateDetailsPanel, bind, get. simpl.
  destruct (panel this); [| reflexivity]. now destruct (detailsThrows node).
Qed.

Lemma refreshTooltip_run (this : t) :
  refreshTooltip this
  = if tooltipFails this then (JS.Throw, this, [])
    else (JS.Ok tt, tooltipRefreshed this, []).
Proof.
  unfold refreshTooltip, tooltipRefreshed, tooltipFails, bind, get. simpl.
  destruct (hoveredNode this) as [h |]; [| reflexivity].
  destruct (JS.find _ (nodes this)); [| reflexivity].
  rewrite updateTooltip_run. destruct (tooltip this); [| reflexivity].
  now destruct (tooltipThrows _).
Qed.

Lemma refreshDetails_run (this : t) :
  refreshDetails this
  = if detailsFails this then (JS.Throw, detailsAborted this, [])
    else (JS.Ok tt, detailsRefreshed this, []).
Proof.
  unfold refreshDetails, detailsRefreshed, detailsFails, detailsAborted, bind, get. simpl.
  destruct (selectedNode this) as [h |]; [| reflexivity].
  destruct (JS.find _ (nodes this)); [| reflexivity].
  rewrite updateDetailsPanel_run. destruct (panel this); [| reflexivity].
  now destruct (detailsThrows _).
Qed.

(** Refreshing the tooltip does not change what the panel is refreshed
    from. *)
Lemma detailsFails_tooltipRefreshed (this : t) :
  detailsFails (tooltipRefreshed this) = detailsFails this.
Proof.
  unfold detailsFails, tooltipRefreshed.
  destruct (hoveredNode this); [| reflexivity].
  destruct (JS.find _ (nodes this)); [| reflexivity].
  now destruct (tooltip this).
Qed.

(** [update], by whether a node of the snapshot fails to project and
    whether a closing block throws. *)
Lemma update_run (state : Snapshot.t) (this : t) :
  update projection state this
  = let e := edgesRendered projection (store state this) in
    match firstUnprojectable projection 0 (nodes e) with
    | Some f =>
        (JS.Throw, set_groups (cutGroups projection f e) e,
         edgesOps (store state this)
         ++ creates nodeKey Groups (groups e) (nodes e))
    | None =>
        let r := nodesRendered projection e in
        (if tooltipFails r || detailsFails r then JS.Throw else JS.Ok tt,
         if tooltipFails r then r
         else if detailsFails r then detailsAborted (tooltipRefreshed r)
              else detailsRefreshed (tooltipRefreshed r),
         edgesOps (store state this) ++ nodesOps e)
    end.
Proof.
  unfold update. unfold bind at 1 2. unfold modify.
  rewrite renderEdges_run. fold (edgesRendered projection (store state this)).
  fold (edgesOps (store state this)). cbn zeta. unfold bind at 1.
  rewrite renderNodes_run.
  destruct (firstUnprojectable projection 0
              (nodes (edgesRendered projection (store state this)))).
  - reflexivity.
  - fold (nodesRendered projection (edgesRendered projection (store state this))).
    set (r := nodesRendered projection (edgesRendered projection (store state this))).
    unfold bind. rewrite refreshTooltip_run.
    destruct (tooltipFails r) eqn:Et; cbn [orb].
    + now rewrite app_nil_r.
    + rewrite refreshDetails_run, detailsFails_tooltipRefreshed.
      destruct (detailsFails r); cbn [app]; now rewrite ?app_nil_r.
Qed.

End Runs.

(** ** The state after [update] *)

Section Snapshots.

Variable projection : Q * Q -> option (Q * Q).

Lemma tooltipRefreshed_frame (this : t) :
  currentTime (tooltipRefreshed this) = currentTime this /\
  nodes (tooltipRefreshed this) = nodes this /\
  edges (tooltipRefreshed this) = edges this /\
  lines (tooltipRefreshed this) = lines this /\
  flows (tooltipRefreshed this) = flows this /\
  groups (tooltipRefreshed this) = groups this /\
  labels (tooltipRefreshed this) = labels this /\
  hoveredNode (tooltipRefreshed this) = hoveredNode this /\
  selectedNode (tooltipRefreshed this) = selectedNode this /\
  panel (tooltipRefreshed this) = panel this.
Proof.
  unfold tooltipRefreshed. destruct (hoveredNode this) eqn:E; [| now rewrite E].
  destruct (JS.find _ _); [| now rewrite E].
  destruct (tooltip this); simpl; now rewrite E.
Qed.

Lemma detailsRefreshed_frame (this : t) :
  currentTime (detailsRefreshed this) = currentTime this /\
  nodes (detailsRefreshed this) = nodes this /\
  edges (detailsRefreshed this) = edges this /\
  lines (detailsRefreshed this) = lines this /\
  flows (detailsRefreshed this) = flows this /\
  groups (detailsRefreshed this) = groups this /\
  labels (detailsRefreshed this) = labels this /\
  hoveredNode (detailsRefreshed this) = hoveredNode this /\
  selectedNode (detailsRefreshed this) = selectedNode this /\
  tooltip (detailsRefreshed this) = tooltip this.
Proof.
  unfold detailsRefreshed. destruct (selectedNode this) eqn:E; [| now rewrite E].
  destruct (JS.find _ _); [| now rewrite E].
  destruct (panel this); simpl; now rewrite E.
Qed.

Lemma detailsAborted_frame (this : t) :
  currentTime (detailsAborted this) = currentTime this /\
  nodes (detailsAborted this) = nodes this /\
  edges (detailsAborted this) = edges this /\
  lines (detailsAborted this) = lines this /\
  flows (detailsAborted this) = flows this /\
  groups (detailsAborted this) = groups this /\
  labels (detailsAborted this) = labels this /\
  hoveredNode (detailsAborted this) = hoveredNode this /\
  selectedNode (detailsAborted this) = selectedNode this /\
  tooltip (detailsAborted this) = tooltip this.
Proof.
  unfold detailsAborted. destruct (selectedNode this) eqn:E; [| now rewrite E].
  destruct (JS.find _ _); [| now rewrite E].
  destruct (panel this); simpl; now rewrite E.
Qed.

Lemma tooltipRefreshed_tooltip (x : t) :
  tooltip (tooltipRefreshed x)
  = match hoveredNode x with
    | Some h =>
        match JS.find (fun n => String.eqb (Node.id n) (Node.id h)) (nodes x) with
        | Some u => (fun _ => tooltipContent x u) <$> tooltip x
        | None => tooltip x
        end
    | None => tooltip x
    end.
Proof.
  unfold tooltipRefreshed. destruct (hoveredNode x); [| reflexivity].
  destruct (JS.find _ _); [| reflexivity].
  destruct (tooltip x) eqn:E; [reflexivity | exact E].
Qed.

Lemma detailsRefreshed_panel (x : t) :
  panel (detailsRefreshed x)
  = match selectedNode x with
    | Some s =>
        match JS.find (fun n => String.eqb (Node.id n) (Node.id s)) (nodes x) with
        | Some u => (fun _ => details x u) <$> panel x
        | None => panel x
        end
    | None => panel x
    end.
Proof.
  unfold detailsRefreshed. destruct (selectedNode x); [| reflexivity].
  destruct (JS.find _ _); [| reflexivity].
  destruct (panel x) eqn:E; [reflexivity | exact E].
Qed.

Lemma detailsAborted_panel (x : t) :
  panel (detailsAborted x)
  = match selectedNode x with
    | Some s =>
        match JS.find (fun n => String.eqb (Node.id n) (Node.id s)) (nodes x) with
        | Some u => detailsHeader u <$> panel x
        | None => panel x
        end
    | None => panel x
    end.
Proof.
  unfold detailsAborted. destruct (selectedNode x); [| reflexivity].
  destruct (JS.find _ _); [| reflexivity].
  destruct (panel x) eqn:E; [reflexivity | exact E].
Qed.

(** What [update] leaves: the snapshot is stored, the lines and the
    flow circles are rendered from it, and the hover and selection
    fields are as before; the groups and labels are rendered too unless
    a node fails to project, in which case [update] throws; and then
    the tooltip and the panel are refreshed, unless that throws. *)
Lemma update_after state this :
  let e := edgesRendered projection (store state this) in
  let r := nodesRendered projection e in
  let this' := after (update projection state) this in
  nodes this' = nodesOf state /\
  edges this' = edgesOf state /\
  currentTime this' = JS.or_num (Snapshot.time state) 0 /\
  lines this' = renderedLines projection (store state this) /\
  flows this' = flows e /\
  hoveredNode this' = hoveredNode this /\
  selectedNode this' = selectedNode this /\
  match firstUnprojectable projection 0 (nodesOf state) with
  | Some f =>
      throws (update projection state) this = true /\
      groups this' = cutGroups projection f e /\
      labels this' = labels this /\
      tooltip this' = tooltip this /\
      panel this' = panel this
  | None =>
      throws (update projection state) this = tooltipFails r || detailsFails r /\
      groups this' = renderedGroups projection e /\
      labels this' = renderedLabels projection e /\
      this' = (if tooltipFails r then r
               else if detailsFails r then detailsAborted (tooltipRefreshed r)
                    else detailsRefreshed (tooltipRefreshed r))
  end.
Proof.
  cbn zeta. unfold after, throws. rewrite update_run. cbn zeta.
  change (nodes (edgesRendered projection (store state this))) with (nodesOf state).
  destruct (firstUnprojectable projection 0 (nodesOf state)) as [f |]; cbn [fst snd].
  - repeat split.
  - set (r := nodesRendered projection (edgesRendered projection (store state this))).
    destruct (tooltipRefreshed_frame r)
      as (T1 & T2 & T3 & T4 & T5 & T6 & T7 & T8 & T9 & _).
    destruct (detailsRefreshed_frame (tooltipRefreshed r))
      as (D1 & D2 & D3 & D4 & D5 & D6 & D7 & D8 & D9 & _).
    destruct (detailsAborted_frame (tooltipRefreshed r))
      as (A1 & A2 & A3 & A4 & A5 & A6 & A7 & A8 & A9 & _).
    destruct (tooltipFails r); [repeat split |].
    destruct (detailsFails r); cbn [orb].
    + rewrite A1, A2, A3, A4, A5, A6, A7, A8, A9, T1, T2, T3, T4, T5, T6, T7, T8, T9.
      repeat split.
    + rewrite D1, D2, D3, D4, D5, D6, D7, D8, D9, T1, T2, T3, T4, T5, T6, T7, T8, T9.
      repeat split.
Qed.

(** An [update] that returns: every node projects and the closing
    blocks throw nothing. *)
Lemma update_returned state this :
  throws (update projection state) this = false ->
  let r := nodesRendered projection (edgesRendered projection (store state this)) in
  firstUnprojectable projection 0 (nodesOf state) = None /\
  tooltipFails r = false /\ detailsFails r = false /\
  after (update projection state) this = detailsRefreshed (tooltipRefreshed r).
Proof.
  intros Hok. cbn zeta.
  destruct (update_after state this) as (_ & _ & _ & _ & _ & _ & _ & Hc).
  cbn zeta in Hc.
  destruct (firstUnprojectable projection 0 (nodesOf state)) as [f |].
  - destruct Hc as [Ht _]. congruence.
  - destruct Hc as (Ht & _ & _ & Hthis). rewrite Hok in Ht.
    symmetry in Ht. apply orb_false_elim in Ht as [Ht Hd].
    rewrite Ht, Hd in Hthis. auto.
Qed.

Lemma update_ops state this :
  let e := edgesRendered projection (store state this) in
  ops_of (update projection state) this
  = edgesOps (store state this)
    ++ match firstUnprojectable projection 0 (nodesOf state) with
       | Some _ => creates nodeKey Groups (groups this) (nodesOf state)
       | None => nodesOps e
       end.
Proof.
  cbn zeta. unfold ops_of. rewrite update_run. cbn zeta.
  change (nodes (edgesRendered projection (store state this))) with (nodesOf state).
  now destruct (firstUnprojectable projection 0 (nodesOf state)).
Qed.

(** *** Particles *)




(** *** A snapshot applied twice *)

Lemma creates_nil {D A : Type} (key : D -> string) l (group : list (Elem D A)) ds :
  entering key group ds = [] -> creates key l group ds = [].
Proof. unfold creates. now intros ->. Qed.

Lemma destroys_nil {D A : Type} (key : D -> string) l (group : list (Elem D A)) ds :
  exiting key group ds = [] -> destroys key l group ds = [].
Proof. unfold destroys. now intros ->. Qed.

(** C6, as the code has it.  When the ids of the nodes, the keys of the
    edges ([edgeKey]) and the order ids of the delivery particles of a
    snapshot are pairwise distinct, applying the snapshot a second time
    performs no operation on the DOM: nothing is created and nothing is
    removed in any of the four layers. *)
Theorem update_twice (state : Snapshot.t) (this : t) :
  NoDup (nodeKey <$> nodesOf state) ->
  NoDup (edgeKey <$> edgesOf state) ->
  NoDup (Particle.key <$> deliveryParticles (edgesOf state)) ->
  ops_of (update projection state) (after (update projection state) this) = [].
Proof.
  intros Hn He Hp. rewrite update_ops. cbn zeta.
  destruct (update_after state this) as (_ & _ & _ & Hl & Hf & _ & _ & Hg).
  cbn zeta in Hl, Hf, Hg.
  set (this' := after (update projection state) this) in *.
  assert (Hedges : edgesOps (store state this') = []).
  { unfold edgesOps.
    change (lines (store state this')) with (lines this').
    change (flows (store state this')) with (flows this').
    change (edges (store state this')) with (edgesOf state).
    rewrite Hl, Hf.
    destruct (reconcile_again edgeKey (lineStyle projection (store state this))
                (fun _ d _ => lineStyle projection (store state this) d)
                (lines this) (edgesOf state) He) as [E1 E2].
    destruct (reconcile_again Particle.key (fun _ => None)
                (fun _ d a => placeFlow projection
                                (set_lines (renderedLines projection (store state this))
                                           (store state this)) d a)
                (flows this) (deliveryParticles (edgesOf state)) Hp) as [E3 E4].
    rewrite (creates_nil _ _ _ _ E1), (destroys_nil _ _ _ _ E2).
    rewrite (creates_nil _ _ _ _ E3), (destroys_nil _ _ _ _ E4). reflexivity. }
  rewrite Hedges. cbn [app].
  destruct (firstUnprojectable projection 0 (nodesOf state)) as [f |].
  - destruct Hg as (_ & Hg & _). rewrite Hg.
    apply creates_nil. apply (reconcile_kept_again nodeKey). exact Hn.
  - destruct Hg as (_ & Hg & Hb & _). unfold nodesOps.
    change (groups (edgesRendered projection (store state this'))) with (groups this').
    change (labels (edgesRendered projection (store state this'))) with (labels this').
    change (nodes (edgesRendered projection (store state this'))) with (nodesOf state).
    rewrite Hg, Hb.
    destruct (reconcile_again nodeKey (groupInit)
                (fun _ d a => groupStyle projection
                                (edgesRendered projection (store state this)) d a)
                (groups this) (nodesOf state) Hn) as [E1 E2].
    destruct (reconcile_again nodeKey (labelInit)
                (fun _ d _ => labelStyle projection d)
                (labels this) (nodesOf state) Hn) as [E3 E4].
    rewrite (creates_nil _ _ _ _ E1), (destroys_nil _ _ _ _ E2).
    rewrite (creates_nil _ _ _ _ E3), (destroys_nil _ _ _ _ E4). reflexivity.
Qed.

End Snapshots.

(** The first application of a snapshot to an empty map creates one
    element per edge, particle, node and label. *)
Example first_update_creates :
  ops_of (update Sample.projection Sample.two_nodes) NetworkMap.empty
  = [Create Lines "delivery-chicago_center-distributor_ny"; Create Flows "order_1";
     Create Groups "chicago_center"; Create Groups "distributor_ny";
     Create Labels "chicago_center"; Create Labels "distributor_ny"].
Proof. vm_compute. reflexivity. Qed.

(** C6 at a snapshot of two nodes and one delivery edge, applied to an
    empty map and then again. *)
Lemma update_twice_witness :
  ops_of (update Sample.projection Sample.two_nodes)
         (after (update Sample.projection Sample.two_nodes) NetworkMap.empty) = [].
Proof.
  apply update_twice; apply (bool_decide_unpack _); vm_compute; exact I.
Defined.

(** C6 as the claim states it fails when two edges share a key.  The
    two delivery edges of the sample snapshot differ in both endpoints,
    and both have the key [delivery-depot-east-hub]: every application
    of the snapshot after the first creates a line and removes one. *)
Lemma colliding_edge_keys_drawn_anew :
  NoDup (nodeKey <$> nodesOf Sample.hyphenated) /\
  NoDup ((fun e => (Edge.edge_type e, Edge.from e, Edge.to e))
           <$> edgesOf Sample.hyphenated) /\
  edgeKey <$> edgesOf Sample.hyphenated
  = ["delivery-depot-east-hub"; "delivery-depot-east-hub"] /\
  ops_of (update Sample.projection Sample.hyphenated)
         (after (update Sample.projection Sample.hyphenated) NetworkMap.empty)
  = [Create Lines "delivery-depot-east-hub"; Destroy Lines "delivery-depot-east-hub"].
Proof.
  split; [| split; [| split]].
  - apply (bool_decide_unpack _). vm_compute. exact I.
  - apply (bool_decide_unpack _). vm_compute. exact I.
  - vm_compute. reflexivity.
  - vm_compute. reflexivity.
Qed.

(** ** Hover and selection across snapshots *)

Lemma find_Some {A : Type} (pred : A -> bool) (l : list A) (x : A) :
  JS.find pred l = Some x -> x ∈ l /\ pred x = true.
Proof.
  induction l as [| y l IH]; simpl; [discriminate |].
  destruct (pred y) eqn:E.
  - intros [= ->]. split; [now left | assumption].
  - intros H. destruct (IH H). split; [now right | assumption].
Qed.

Lemma find_None {A : Type} (pred : A -> bool) (l : list A) :
  JS.find pred l = None <-> forall x, x ∈ l -> pred x = false.
Proof.
  induction l as [| y l IH]; simpl.
  - split; [intros _ x H; inversion H | reflexivity].
  - destruct (pred y) eqn:E.
    + split; [discriminate |]. intros H. rewrite (H y) in E; [discriminate | now left].
    + rewrite IH. split.
      * intros H x Hx. apply elem_of_cons in Hx as [-> | Hx]; auto.
      * intros H x Hx. apply H. now right.
Qed.

Lemma supplierRow_nodes (x y : t) entry :
  nodes x = nodes y -> supplierRow x entry = supplierRow y entry.
Proof. intros E. unfold supplierRow. destruct entry. now rewrite E. Qed.

Lemma tooltipContent_nodes (x y : t) node :
  nodes x = nodes y -> tooltipContent x node = tooltipContent y node.
Proof.
  intros E. unfold tooltipContent.
  assert (M : forall l, map (fun e => Tip.TopSupplier (supplierRow x e)) l
                        = map (fun e => Tip.TopSupplier (supplierRow y e)) l).
  { intros l. apply map_ext. intros a. now rewrite (supplierRow_nodes x y a E). }
  now rewrite M.
Qed.

Lemma details_nodes (x y : t) node :
  nodes x = nodes y -> details x node = details y node.
Proof.
  intros E. unfold details, stateHTML.
  assert (M : forall l,
             map (fun e => Item.SupplierRow (supplierColor (snd e)) (supplierRow x e)) l
             = map (fun e => Item.SupplierRow (supplierColor (snd e)) (supplierRow y e)) l).
  { intros l. apply map_ext. intros a. now rewrite (supplierRow_nodes x y a E). }
  now rewrite M.
Qed.

Section Selection.

Variable projection : Q * Q -> option (Q * Q).

Lemma refreshed_None state n :
  refreshed state n = None <-> forall m, m ∈ nodesOf state -> Node.id m <> Node.id n.
Proof.
  unfold refreshed. rewrite find_None. split; intros H m Hm.
  - apply String.eqb_neq. now apply H.
  - apply String.eqb_neq. now apply H.
Qed.

Lemma firstUnprojectable_None (data : list Node.t) : forall i,
  firstUnprojectable projection i data = None
  <-> forall n, n ∈ data -> projection (lonlat n) <> None.
Proof.
  induction data as [| d ds IH]; intros i; simpl.
  - split; [intros _ n H; inversion H | reflexivity].
  - destruct (projection (lonlat d)) eqn:E.
    + rewrite IH. split.
      * intros H n Hn. apply elem_of_cons in Hn as [-> | Hn]; [congruence | auto].
      * intros H n Hn. apply H. now right.
    + split; [discriminate |]. intros H. exfalso. apply (H d); [now left | assumption].
Qed.

Lemma unprojectable_first (data : list Node.t) n i :
  n ∈ data -> projection (lonlat n) = None ->
  exists f, firstUnprojectable projection i data = Some f.
Proof.
  intros Hn Hp. destruct (firstUnprojectable projection i data) as [f |] eqn:E; [eauto |].
  exfalso. eapply firstUnprojectable_None in E; eauto.
Qed.

(** C3, as the code has it.  [update] never changes the hovered or the
    selected node.  When [update] returns: if no node of the snapshot
    carries the id of the selected node, the details panel is left as
    it was (it is not hidden); if one does, the panel, when the page
    has one, is filled anew from that node; and likewise for the
    hovered node and the tooltip.  When a node of the snapshot does not
    project, [update] throws and the panel and the tooltip are left as
    they were.  Whenever [update] throws, nothing is cleared either:
    the tooltip is as it was or refreshed, and the panel is as it was
    or shown under the name, type and location of the refreshed node,
    its state list as it was. *)
Theorem update_keeps_selection (state : Snapshot.t) (this : t) :
  let this' := after (update projection state) this in
  hoveredNode this' = hoveredNode this /\
  selectedNode this' = selectedNode this /\
  (throws (update projection state) this = false ->
   (forall s, selectedNode this = Some s ->
      match refreshed state s with
      | None => panel this' = panel this
      | Some updatedNode =>
          Node.id updatedNode = Node.id s /\
          panel this' = (fun _ => details this' updatedNode) <$> panel this
      end) /\
   (forall h, hoveredNode this = Some h ->
      match refreshed state h with
      | None => tooltip this' = tooltip this
      | Some updatedNode =>
          Node.id updatedNode = Node.id h /\
          tooltip this' = (fun _ => tooltipContent this' updatedNode) <$> tooltip this
      end) /\
   (selectedNode this = None -> panel this' = panel this) /\
   (hoveredNode this = None -> tooltip this' = tooltip this)) /\
  ((exists n, n ∈ nodesOf state /\ projection (lonlat n) = None) ->
   throws (update projection state) this = true /\
   panel this' = panel this /\ tooltip this' = tooltip this) /\
  (throws (update projection state) this = true ->
   (tooltip this' = tooltip this \/
    exists h u, hoveredNode this = Some h /\ refreshed state h = Some u /\
                tooltip this' = (fun _ => tooltipContent this' u) <$> tooltip this) /\
   (panel this' = panel this \/
    exists s u, selectedNode this = Some s /\ refreshed state s = Some u /\
                panel this' = detailsHeader u <$> panel this)).
Proof.
  cbn zeta.
  destruct (update_after projection state this) as (Hn & _ & _ & _ & _ & Hh & Hs & Hc).
  cbn zeta in *. split; [exact Hh | split; [exact Hs |]].
  set (this' := after (update projection state) this) in *.
  set (r := nodesRendered projection (edgesRendered projection (store state this))) in *.
  destruct (tooltipRefreshed_frame r) as (_ & Tn & _ & _ & _ & _ & _ & Th & Ts & Tp).
  change (panel r) with (panel this) in Tp.
  change (selectedNode r) with (selectedNode this) in Ts.
  change (nodes r) with (nodesOf state) in Tn.
  assert (Etip : tooltip (tooltipRefreshed r)
                 = match hoveredNode this with
                   | Some h =>
                       match refreshed state h with
                       | Some u => (fun _ => tooltipContent this' u) <$> tooltip this
                       | None => tooltip this
                       end
                   | None => tooltip this
                   end).
  { rewrite tooltipRefreshed_tooltip.
    change (hoveredNode r) with (hoveredNode this).
    change (nodes r) with (nodesOf state). change (tooltip r) with (tooltip this).
    destruct (hoveredNode this) as [h |]; [| reflexivity].
    unfold refreshed. destruct (JS.find _ (nodesOf state)) as [u |]; [| reflexivity].
    destruct (tooltip this) as [c |]; cbn; [| reflexivity].
    f_equal. apply tooltipContent_nodes. symmetry. exact Hn. }
  assert (Epan : panel (detailsRefreshed (tooltipRefreshed r))
                 = match selectedNode this with
                   | Some s =>
                       match refreshed state s with
                       | Some u => (fun _ => details this' u) <$> panel this
                       | None => panel this
                       end
                   | None => panel this
                   end).
  { rewrite detailsRefreshed_panel, Ts, Tn, Tp.
    destruct (selectedNode this) as [s |]; [| reflexivity].
    unfold refreshed. destruct (JS.find _ (nodesOf state)) as [u |]; [| reflexivity].
    destruct (panel this) as [p |]; cbn; [| reflexivity].
    f_equal. apply details_nodes. rewrite Tn. symmetry. exact Hn. }
  assert (Eab : panel (detailsAborted (tooltipRefreshed r))
                = match selectedNode this with
                  | Some s =>
                      match refreshed state s with
                      | Some u => detailsHeader u <$> panel this
                      | None => panel this
                      end
                  | None => panel this
                  end).
  { rewrite detailsAborted_panel, Ts, Tn, Tp. reflexivity. }
  split; [| split].
  - intros Hok.
    destruct (update_returned projection state this Hok) as (_ & _ & _ & Hthis).
    cbn zeta in Hthis. fold this' r in Hthis.
    assert (Htip : tooltip this' = tooltip (tooltipRefreshed r)).
    { rewrite Hthis. apply detailsRefreshed_frame. }
    rewrite Etip in Htip. rewrite <- Hthis in Epan.
    split; [| split; [| split]].
    + intros s Es. rewrite Es in Epan. destruct (refreshed state s) as [u |] eqn:Eu.
      * split; [| exact Epan]. apply find_Some in Eu as [_ Eu]. now apply String.eqb_eq.
      * exact Epan.
    + intros h Eh. rewrite Eh in Htip. destruct (refreshed state h) as [u |] eqn:Eu.
      * split; [| exact Htip]. apply find_Some in Eu as [_ Eu]. now apply String.eqb_eq.
      * exact Htip.
    + intros Es. now rewrite Es in Epan.
    + intros Eh. now rewrite Eh in Htip.
  - intros (n & Hin & Hp). destruct (unprojectable_first _ _ 0%nat Hin Hp) as [f Ef].
    rewrite Ef in Hc. destruct Hc as (Ht & _ & _ & Htip & Hpan). auto.
  - intros Hthrow.
    destruct (firstUnprojectable projection 0 (nodesOf state)) as [f |].
    { destruct Hc as (_ & _ & _ & Htip & Hpan). auto. }
    destruct Hc as (Ht & _ & _ & Hthis). rewrite Hthrow in Ht.
    destruct (tooltipFails r) eqn:Ef.
    { rewrite Hthis. split; left; reflexivity. }
    destruct (detailsFails r) eqn:Ed; [| discriminate].
    assert (Htip : tooltip this' = tooltip (tooltipRefreshed r)).
    { rewrite Hthis. apply detailsAborted_frame. }
    rewrite Etip in Htip. rewrite <- Hthis in Eab. split.
    + destruct (hoveredNode this) as [h |]; [| now left].
      destruct (refreshed state h) as [u |] eqn:Eu; [| now left].
      right. exists h, u. auto.
    + destruct (selectedNode this) as [s |]; [| now left].
      destruct (refreshed state s) as [u |] eqn:Eu; [| now left].
      right. exists s, u. auto.
Qed.

(** *** Nodes that do not project *)

(** A node whose location the projection maps to [null]. *)
Lemma firstUnprojectable_Some (data : list Node.t) i :
  is_Some (firstUnprojectable projection i data)
  <-> exists n, n ∈ data /\ projection (lonlat n) = None.
Proof.
  split.
  - intros [f E].
    destruct (decide (Exists (fun n => projection (lonlat n) = None) data)) as [Hex | Hno].
    + apply Exists_exists in Hex. exact Hex.
    + assert (firstUnprojectable projection i data = None); [| congruence].
      apply firstUnprojectable_None. intros n Hn Hp. apply Hno.
      apply Exists_exists. eauto.
  - intros (n & Hn & Hp). destruct (unprojectable_first _ _ i Hn Hp) as [f E]. eauto.
Qed.

(** [renderNodes] throws exactly when a node of the map has a location
    that the projection maps to [null]. *)
Lemma renderNodes_throws_iff (this : t) :
  throws (renderNodes projection) this = true
  <-> exists n, n ∈ nodes this /\ projection (lonlat n) = None.
Proof.
  rewrite <- (firstUnprojectable_Some (nodes this) 0). unfold throws.
  rewrite renderNodes_run.
  destruct (firstUnprojectable projection 0 (nodes this)) as [f |]; cbn [fst].
  - split; eauto.
  - split; [discriminate | intros [f E]; discriminate].
Qed.

(** [update] throws exactly when a node of the snapshot has a location
    that the projection maps to [null], or when the tooltip or the
    panel is refreshed from a node on which that throws. *)
Lemma update_throws_iff (state : Snapshot.t) (this : t) :
  let r := nodesRendered projection (edgesRendered projection (store state this)) in
  throws (update projection state) this = true
  <-> (exists n, n ∈ nodesOf state /\ projection (lonlat n) = None)
      \/ tooltipFails r = true \/ detailsFails r = true.
Proof.
  cbn zeta. rewrite <- (firstUnprojectable_Some (nodesOf state) 0).
  destruct (update_after projection state this) as (_ & _ & _ & _ & _ & _ & _ & Hc).
  cbn zeta in Hc.
  destruct (firstUnprojectable projection 0 (nodesOf state)) as [f |] eqn:E.
  - destruct Hc as [-> _]. split; [intros _; left; eauto | reflexivity].
  - destruct Hc as [-> _]. rewrite orb_true_iff. split.
    + intros H. right. exact H.
    + intros [[f Hf] | H]; [discriminate | exact H].
Qed.

(** The endpoints of edges do fall back to the origin. *)
Lemma getNodeProjection_fallback (nodeId : string) (this : t) :
  ((forall n, n ∈ nodes this -> Node.id n <> nodeId) ->
   getNodeProjection projection nodeId this = (0, 0)) /\
  (forall n, JS.find (fun m => String.eqb (Node.id m) nodeId) (nodes this) = Some n ->
             projection (lonlat n) = None ->
             getNodeProjection projection nodeId this = (0, 0)).
Proof.
  unfold getNodeProjection. split.
  - intros H. assert (E : JS.find (fun n => String.eqb (Node.id n) nodeId) (nodes this) = None).
    { apply find_None. intros n Hn. apply String.eqb_neq. now apply H. }
    now rewrite E.
  - intros n -> ->. reflexivity.
Qed.

End Selection.

(** C3 at the watched map and a later snapshot in which New York has
    placed more orders: New York stays selected, and the panel shows
    the new count. *)
Lemma update_keeps_selection_witness :
  selectedNode (after (update Sample.projection Sample.two_nodes_later) Sample.watched)
  = Some Sample.new_york /\
  Panel.stateHTML
    <$> panel (after (update Sample.projection Sample.two_nodes_later) Sample.watched)
  = Some [Item.Policy "nearest_neighbor"; Item.NoSupplierHistory;
          Item.Number "orders_placed" 99].
Proof.
  destruct (update_keeps_selection Sample.projection Sample.two_nodes_later Sample.watched)
    as (_ & Hs & Hok & _).
  split.
  - rewrite Hs. vm_compute. reflexivity.
  - destruct Hok as (Hp & _); [vm_compute; reflexivity |].
    specialize (Hp Sample.new_york ltac:(vm_compute; reflexivity)).
    change (refreshed Sample.two_nodes_later Sample.new_york)
      with (Some Sample.new_york_busy) in Hp.
    destruct Hp as [_ ->]. vm_compute. reflexivity.
Defined.

(** C3 as the claim states it fails when the selected and hovered node
    is absent from the snapshot: New York is still the selected and the
    hovered node, the panel is still displayed and the tooltip is still
    there. *)
Lemma stale_selection_survives :
  refreshed Sample.chicago_alone Sample.new_york = None /\
  throws (update Sample.projection Sample.chicago_alone) Sample.watched = false /\
  selectedNode (after (update Sample.projection Sample.chicago_alone) Sample.watched)
  = Some Sample.new_york /\
  hoveredNode (after (update Sample.projection Sample.chicago_alone) Sample.watched)
  = Some Sample.new_york /\
  Panel.display
    <$> panel (after (update Sample.projection Sample.chicago_alone) Sample.watched)
  = Some "block" /\
  tooltip (after (update Sample.projection Sample.chicago_alone) Sample.watched) <> None.
Proof.
  split; [| split; [| split; [| split; [| split]]]]; vm_compute; try reflexivity.
  discriminate.
Qed.

(** C4 on the code: a snapshot with a node in London, which the sample
    projection maps to [null].  [update] throws; the group of Chicago,
    which precedes London, has its transform, the groups of London and
    New York have none, and no label is drawn. *)
Theorem unprojectable_node_aborts_update :
  Sample.projection (lonlat Sample.london) = None /\
  throws (update Sample.projection Sample.with_london) NetworkMap.empty = true /\
  (fun g => GroupAttrs.transform (attrs g))
    <$> groups (after (update Sample.projection Sample.with_london) NetworkMap.empty)
  = [Some (430, 140); None; None] /\
  labels (after (update Sample.projection Sample.with_london) NetworkMap.empty) = [].
Proof. split; [| split; [| split]]; vm_compute; reflexivity. Qed.

(** ** Tooltip and details panel *)

Lemma insertSupplier_perm x l : insertSupplier x l ≡ₚ x :: l.
Proof.
  induction l as [| y l IH]; simpl; [reflexivity |].
  destruct (JS.ge _ _); [reflexivity |]. rewrite IH. apply perm_swap.
Qed.


Lemma before_trans a b c : before a b -> before b c -> before a c.
Proof. unfold before. intros. Lqa.lra. Qed.

Lemma insertSupplier_sorted x l :
  StronglySorted before l -> StronglySorted before (insertSupplier x l).
Proof.
  induction 1 as [| y l Hs IH Hall]; simpl.
  - repeat constructor.
  - destruct (JS.ge _ _) eqn:E.
    + apply ge_spec in E. constructor; [now constructor |].
      constructor; [exact E |].
      eapply Forall_impl; [exact Hall |]. intros z Hz. eapply before_trans; eassumption.
    + apply ge_false in E. constructor; [exact IH |].
      rewrite insertSupplier_perm. constructor; [| exact Hall].
      unfold before. Lqa.lra.
Qed.

Lemma sortSuppliers_sorted l : StronglySorted before (sortSuppliers l).
Proof.
  induction l as [| x l IH]; [constructor |].
  unfold sortSuppliers in *. simpl. now apply insertSupplier_sorted.
Qed.








(** *** The errors of the tooltip and of the panel *)














(** ** Position of a flow particle *)

Lemma offsetAmount_zero_iff (index : nat) :
  offsetAmount index = 0%Z <-> (index mod 3 = 1)%nat.
Proof.
  unfold offsetAmount.
  change (Z.of_nat index mod 3)%Z with (Z.of_nat index mod Z.of_nat 3)%Z.
  rewrite <- Nat2Z.inj_mod. lia.
Qed.

Lemma offsetAmount_range (index : nat) :
  offsetAmount index = (-1)%Z \/ offsetAmount index = 0%Z \/ offsetAmount index = 1%Z.
Proof.
  unfold offsetAmount.
  assert (B := Z.mod_pos_bound (Z.of_nat index) 3 ltac:(lia)). lia.
Qed.

Lemma basePosition_start p1 p2 q :
  q == 0 ->
  fst (basePosition p1 p2 q) == fst p1 /\ snd (basePosition p1 p2 q) == snd p1.
Proof. intros E. unfold basePosition. simpl. rewrite E. split; ring. Qed.

Lemma basePosition_end p1 p2 q :
  q == 1 ->
  fst (basePosition p1 p2 q) == fst p2 /\ snd (basePosition p1 p2 q) == snd p2.
Proof. intros E. unfold basePosition. simpl. rewrite E. split; ring. Qed.

Lemma basePosition_half p1 p2 q :
  q == 1 # 2 ->
  fst (basePosition p1 p2 q) == (fst p1 + fst p2) / 2 /\
  snd (basePosition p1 p2 q) == (snd p1 + snd p2) / 2.
Proof. intros E. unfold basePosition. simpl. rewrite E. split; field. Qed.

(** The circle is drawn at distance [|offsetAmount|] from the point on
    the segment. *)
Lemma flowPosition_distance p1 p2 q index :
  let b := basePosition p1 p2 q in
  let pos := flowPosition p1 p2 q index in
  ((fst pos - Q2R (fst b)) * (fst pos - Q2R (fst b))
   + (snd pos - Q2R (snd b)) * (snd pos - Q2R (snd b))
   = IZR (offsetAmount index) * IZR (offsetAmount index))%R.
Proof.
  cbn zeta. unfold flowPosition. cbn [fst snd].
  set (a := (Trig.atan2 _ _ + PI / 2)%R).
  assert (H := sin2_cos2 a). unfold Rsqr in H.
  set (o := IZR (offsetAmount index)).
  transitivity (o * o * (sin a * sin a + cos a * cos a))%R; [ring |].
  rewrite H. ring.
Qed.

Lemma flowPosition_on_segment p1 p2 q index :
  offsetAmount index = 0%Z ->
  flowPosition p1 p2 q index
  = (Q2R (fst (basePosition p1 p2 q)), Q2R (snd (basePosition p1 p2 q))).
Proof. intros E. unfold flowPosition. rewrite E. f_equal; ring. Qed.

Lemma placeFlow_placed projection (this : t) (d : Particle.t) (a : FlowAttrs.t) :
  ~ fst (getNodeProjection projection (Edge.from (Particle.edge d)) this) == 0 ->
  ~ fst (getNodeProjection projection (Edge.to (Particle.edge d)) this) == 0 ->
  placeFlow projection this d a
  = Some (flowPosition
            (getNodeProjection projection (Edge.from (Particle.edge d)) this)
            (getNodeProjection projection (Edge.to (Particle.edge d)) this)
            (progress (currentTime this) (Particle.delivery d))
            (Particle.deliveryIndex d)).
Proof.
  intros H1 H2. unfold placeFlow.
  apply truthy_spec in H1, H2. now rewrite H1, H2.
Qed.


Lemma progress_half time d :
  deliveryStartTime d == 0 -> deliveryDuration d == 10 -> time == 5 ->
  progress time d == 1 # 2.
Proof.
  intros Es Ed Et.
  assert (Hd : 0 < deliveryDuration d) by (rewrite Ed; reflexivity).
  rewrite progress_positive_duration by assumption.
  assert (E : (time - deliveryStartTime d) / deliveryDuration d == 1 # 2).
  { rewrite Es, Ed, Et. reflexivity. }
  rewrite clamp_id; [exact E |]. rewrite E. split; discriminate.
Qed.

Lemma placeFlow_state projection (x y : t) d a :
  nodes x = nodes y -> currentTime x = currentTime y ->
  placeFlow projection x d a = placeFlow projection y d a.
Proof.
  intros En Et. unfold placeFlow, getNodeProjection. now rewrite En, Et.
Qed.

(** Every element of a rendered layer has the attributes the setters
    gave it. *)
Lemma reconcile_styled {D A : Type} (key : D -> string) init style
    (group : list (Elem D A)) ds e :
  e ∈ reconcile key init style true group ds ->
  exists i a, attrs e = style i (datum e) a.
Proof.
  unfold reconcile. intros H. apply list_elem_of_omap in H as ([[j | i] e0] & _ & H).
  - simpl in H. destruct (boundTo j 0 ds _) as [[i d] |]; [| discriminate].
    injection H as <-. simpl. eauto.
  - simpl in H. injection H as <-. simpl. eauto.
Qed.

(** *** The direction of the stagger *)

Section Polar.
Local Open Scope R_scope.

Lemma atan_polar (y x : R) :
  x <> 0 ->
  sin (atan (y / x)) * x = cos (atan (y / x)) * y /\ 0 < cos (atan (y / x)).
Proof.
  intros Hx.
  pose proof (atan_bound (y / x)) as [Hl Hu].
  assert (Hc : 0 < cos (atan (y / x))) by (apply cos_gt_0; Lra.lra).
  split; [| exact Hc].
  pose proof (tan_atan (y / x)) as Ht. unfold tan in Ht.
  assert (Hs : sin (atan (y / x)) = y / x * cos (atan (y / x))).
  { rewrite <- Ht at 2. field. Lra.lra. }
  rewrite Hs. field. exact Hx.
Qed.

(** The angle [atan2 y x] is the direction of [(x, y)]: its cosine and
    its sine, scaled by the length of the vector, are [x] and [y]. *)
Lemma atan2_polar (y x : R) :
  cos (Trig.atan2 y x) * sqrt (x * x + y * y) = x /\
  sin (Trig.atan2 y x) * sqrt (x * x + y * y) = y.
Proof.
  set (c := cos (Trig.atan2 y x)). set (s := sin (Trig.atan2 y x)).
  assert (Hcs : c * c + s * s = 1).
  { pose proof (sin2_cos2 (Trig.atan2 y x)) as H. unfold Rsqr in H. fold c s in H. Lra.lra. }
  assert (Hdir : s * x = c * y /\ 0 <= x * c + y * s).
  { unfold c, s, Trig.atan2.
    destruct (Rlt_dec 0 x) as [Hx | Hx].
    - destruct (atan_polar y x ltac:(Lra.lra)) as [E Hc]. split; [exact E |].
      set (c0 := cos (atan (y / x))) in *. set (s0 := sin (atan (y / x))) in *.
      assert (0 <= x * (x * c0 + y * s0)).
      { replace (x * (x * c0 + y * s0)) with (c0 * (x * x + y * y)).
        - apply Rmult_le_pos; [Lra.lra | Lra.nra].
        - transitivity (x * x * c0 + y * (s0 * x)); [rewrite E |]; ring. }
      Lra.nra.
    - destruct (Rlt_dec x 0) as [Hx' | Hx'].
      + destruct (atan_polar y x ltac:(Lra.lra)) as [E Hc].
        set (c0 := cos (atan (y / x))) in *. set (s0 := sin (atan (y / x))) in *.
        assert (H0 : 0 <= - x * (- (x * c0) - y * s0)).
        { replace (- x * (- (x * c0) - y * s0)) with (c0 * (x * x + y * y)).
          - apply Rmult_le_pos; [Lra.lra | Lra.nra].
          - transitivity (x * x * c0 + y * (s0 * x)); [rewrite E |]; ring. }
        destruct (Rle_dec 0 y).
        * rewrite neg_cos, neg_sin. fold c0 s0. split; [Lra.lra | Lra.nra].
        * rewrite cos_minus, sin_minus, cos_PI, sin_PI. fold c0 s0. split; [Lra.lra | Lra.nra].
      + assert (x = 0) by Lra.lra. subst x.
        destruct (Rlt_dec 0 y); [rewrite cos_PI2, sin_PI2; split; Lra.lra |].
        destruct (Rlt_dec y 0); [rewrite cos_neg, sin_neg, cos_PI2, sin_PI2; split; Lra.lra |].
        assert (y = 0) by Lra.lra. subst y. split; Lra.lra. }
  destruct Hdir as [Hd Hpos].
  assert (HL : sqrt (x * x + y * y) = x * c + y * s).
  { apply sqrt_lem_1; [Lra.nra | exact Hpos |].
    transitivity ((x * x + y * y) * (c * c + s * s) - (s * x - c * y) * (s * x - c * y));
      [ring |].
    rewrite Hcs, Hd. ring. }
  rewrite HL. split.
  - transitivity (x * (c * c + s * s) - s * (s * x - c * y)); [ring |].
    rewrite Hcs, Hd. ring.
  - transitivity (y * (c * c + s * s) + c * (s * x - c * y)); [ring |].
    rewrite Hcs, Hd. ring.
Qed.
End Polar.

Lemma atan2_origin : Trig.atan2 0 0 = 0%R.
Proof.
  unfold Trig.atan2.
  destruct (Rlt_dec 0 0); [Lra.lra |]. reflexivity.
Qed.

(** Where [flowPosition] puts a circle: off the point of the segment
    along the direction of the edge turned by a quarter turn. *)
Lemma flowPosition_offset p1 p2 q index :
  let b := basePosition p1 p2 q in
  let pos := flowPosition p1 p2 q index in
  let dx := Q2R (fst p2 - fst p1) in
  let dy := Q2R (snd p2 - snd p1) in
  let o := IZR (offsetAmount index) in
  ((fst pos - Q2R (fst b)) * sqrt (dx * dx + dy * dy) = - (o * dy))%R /\
  ((snd pos - Q2R (snd b)) * sqrt (dx * dx + dy * dy) = o * dx)%R /\
  (dx = 0%R -> dy = 0%R -> pos = (Q2R (fst b), (Q2R (snd b) + o)%R)).
Proof.
  cbn zeta. unfold flowPosition. cbn [fst snd].
  set (dx := Q2R (fst p2 - fst p1)). set (dy := Q2R (snd p2 - snd p1)).
  set (o := IZR (offsetAmount index)).
  destruct (atan2_polar dy dx) as [Hc Hs].
  split; [| split].
  - rewrite cos_plus, cos_PI2, sin_PI2.
    transitivity (- (o * (sin (Trig.atan2 dy dx) * sqrt (dx * dx + dy * dy))))%R; [ring |].
    now rewrite Hs.
  - rewrite sin_plus, cos_PI2, sin_PI2.
    transitivity (o * (cos (Trig.atan2 dy dx) * sqrt (dx * dx + dy * dy)))%R; [ring |].
    now rewrite Hc.
  - intros -> ->. rewrite atan2_origin, Rplus_0_l, cos_PI2, sin_PI2. f_equal; ring.
Qed.

Lemma or_num_time t : JS.or_num (Some t) 0 == t.
Proof.
  simpl. destruct (JS.truthy t) eqn:T; [reflexivity |].
  apply truthy_false in T. now rewrite T.
Qed.

Lemma offsetAmount_mod (index : nat) :
  offsetAmount index = (Z.of_nat (index mod 3) - 1)%Z.
Proof.
  unfold offsetAmount. rewrite Nat2Z.inj_mod. reflexivity.
Qed.

Section Position.

Variable projection : Q * Q -> option (Q * Q).

(** Every flow circle is placed by [placeFlow] on the stored snapshot. *)
Lemma flows_placed (state : Snapshot.t) (this0 : t) c :
  c ∈ flows (after (update projection state) this0) ->
  exists a, attrs c
            = placeFlow projection (after (update projection state) this0) (datum c) a.
Proof.
  destruct (update_after projection state this0) as (Hn & _ & Ht & _ & Hf & _).
  cbn zeta in *. rewrite Hf. intros Hc.
  apply reconcile_styled in Hc as (i & a & Hc). exists a. rewrite Hc.
  apply placeFlow_state; [now rewrite Hn | now rewrite Ht].
Qed.

(** C2, as the code has it.  Every flow circle is placed by
    [placeFlow], at the time the snapshot carries.  For a particle
    whose two endpoints project to a non-zero [x], the position is the
    point [b] of the segment at the progress of the delivery, moved by
    the offset [(index mod 3) - 1] along the perpendicular of the edge:
    along the direction of the edge turned by a quarter turn, that is
    [(-dy, dx)] scaled to length 1, where [(dx, dy)] leads from the
    projected source to the projected destination (and along [(0, 1)]
    when the two coincide).  So the position is at distance
    [|offset|] from [b], and on [b] itself when the offset is 0, which
    is the case of index 1 and not of index 0, whose offset is -1.
    With [s] the [start_time] field of the delivery (0 when it is
    missing) and [x] its [duration] field (10 when it is missing or 0),
    the point [b] is the projected source when the time is [s], the
    projected destination when it is [s + x] and [x] is positive, and
    the midpoint for a delivery that starts at 0 and lasts 10, seen at
    time 5. *)
Theorem particle_position (state : Snapshot.t) (this0 : t) (d : Particle.t)
    (a : FlowAttrs.t) :
  let this := after (update projection state) this0 in
  let p1 := getNodeProjection projection (Edge.from (Particle.edge d)) this in
  let p2 := getNodeProjection projection (Edge.to (Particle.edge d)) this in
  let dl := Particle.delivery d in
  let b := basePosition p1 p2 (progress (currentTime this) dl) in
  let dx := Q2R (fst p2 - fst p1) in
  let dy := Q2R (snd p2 - snd p1) in
  let o := IZR (offsetAmount (Particle.deliveryIndex d)) in
  (forall c, c ∈ flows this ->
             exists a', attrs c = placeFlow projection this (datum c) a') /\
  (forall t, Snapshot.time state = Some t -> currentTime this == t) /\
  offsetAmount (Particle.deliveryIndex d)
  = (Z.of_nat (Particle.deliveryIndex d mod 3) - 1)%Z /\
  offsetAmount 0 = (-1)%Z /\ offsetAmount 1 = 0%Z /\
  (~ fst p1 == 0 -> ~ fst p2 == 0 ->
   exists pos,
     placeFlow projection this d a = Some pos /\
     ((fst pos - Q2R (fst b)) * sqrt (dx * dx + dy * dy) = - (o * dy))%R /\
     ((snd pos - Q2R (snd b)) * sqrt (dx * dx + dy * dy) = o * dx)%R /\
     (dx = 0%R -> dy = 0%R -> pos = (Q2R (fst b), (Q2R (snd b) + o)%R)) /\
     ((fst pos - Q2R (fst b)) * (fst pos - Q2R (fst b))
      + (snd pos - Q2R (snd b)) * (snd pos - Q2R (snd b)) = o * o)%R /\
     (offsetAmount (Particle.deliveryIndex d) = 0%Z ->
      pos = (Q2R (fst b), Q2R (snd b)))) /\
  (forall s x : Q,
     Delivery.start_time dl = Some s \/ (Delivery.start_time dl = None /\ s == 0) ->
     (Delivery.duration dl = Some x /\ ~ x == 0)
     \/ (absent_or_zero (Delivery.duration dl) /\ x == 10) ->
     (currentTime this == s -> fst b == fst p1 /\ snd b == snd p1) /\
     (0 < x -> currentTime this == s + x -> fst b == fst p2 /\ snd b == snd p2) /\
     (s == 0 -> x == 10 -> currentTime this == 5 ->
      fst b == (fst p1 + fst p2) / 2 /\ snd b == (snd p1 + snd p2) / 2)).
Proof.
  cbn zeta. split; [| split; [| split; [| split; [| split; [| split]]]]].
  - intros c. apply flows_placed.
  - intros t Ht.
    destruct (update_after projection state this0) as (_ & _ & -> & _).
    rewrite Ht. apply or_num_time.
  - apply offsetAmount_mod.
  - reflexivity.
  - reflexivity.
  - intros H1 H2. eexists. split; [now apply placeFlow_placed |].
    destruct (flowPosition_offset
                (getNodeProjection projection (Edge.from (Particle.edge d))
                   (after (update projection state) this0))
                (getNodeProjection projection (Edge.to (Particle.edge d))
                   (after (update projection state) this0))
                (progress (currentTime (after (update projection state) this0))
                          (Particle.delivery d))
                (Particle.deliveryIndex d)) as (Hx & Hy & Hz).
    split; [exact Hx | split; [exact Hy | split; [exact Hz | split]]].
    + apply flowPosition_distance.
    + apply flowPosition_on_segment.
  - intros s x Hs Hx.
    apply deliveryStartTime_field in Hs. apply deliveryDuration_field in Hx.
    split; [| split].
    + intros E. apply basePosition_start. apply progress_at_start. now rewrite Hs.
    + intros Hpos E. apply basePosition_end. apply progress_at_end.
      * now rewrite Hx.
      * now rewrite Hs, Hx.
    + intros Es Ed Et. apply basePosition_half. apply progress_half.
      * now rewrite Hs.
      * now rewrite Hx.
      * exact Et.
Qed.

End Position.

(** C2 at the sample snapshot in which order 2 left Chicago (430, 140)
    at time 2 for New York (560, 150), takes 8 and is seen at time 4: it
    has made a quarter of the way, to (462.5, 142.5), and its circle,
    of index 0 and offset -1, is drawn off that point along (10, -130),
    the edge (130, 10) turned back by a quarter turn. *)
Lemma particle_position_witness :
  exists pos,
    placeFlow Sample.projection
              (after (update Sample.projection Sample.two_nodes_underway) NetworkMap.empty)
              Sample.order_2 None = Some pos /\
    ((fst pos - Q2R (925 # 2)) * sqrt (Q2R 130 * Q2R 130 + Q2R 10 * Q2R 10) = Q2R 10)%R /\
    ((snd pos - Q2R (285 # 2)) * sqrt (Q2R 130 * Q2R 130 + Q2R 10 * Q2R 10) = - Q2R 130)%R.
Proof.
  destruct (particle_position Sample.projection Sample.two_nodes_underway NetworkMap.empty
              Sample.order_2 None) as (_ & _ & _ & _ & _ & Hpos & Hb).
  cbn zeta in Hpos, Hb.
  destruct Hpos as (pos & Hp & Hx & Hy & _).
  - vm_compute. discriminate.
  - vm_compute. discriminate.
  - exists pos. split; [exact Hp |].
    set (this := after (update Sample.projection Sample.two_nodes_underway) NetworkMap.empty) in *.
    set (p1 := getNodeProjection Sample.projection (Edge.from (Particle.edge Sample.order_2)) this)
      in *.
    set (p2 := getNodeProjection Sample.projection (Edge.to (Particle.edge Sample.order_2)) this)
      in *.
    set (b := basePosition p1 p2 (progress (currentTime this) (Particle.delivery Sample.order_2)))
      in *.
    assert (Ebx : Q2R (fst b) = Q2R (925 # 2)) by (apply Qeq_eqR; reflexivity).
    assert (Eby : Q2R (snd b) = Q2R (285 # 2)) by (apply Qeq_eqR; reflexivity).
    assert (Edx : Q2R (fst p2 - fst p1) = Q2R 130) by (apply Qeq_eqR; reflexivity).
    assert (Edy : Q2R (snd p2 - snd p1) = Q2R 10) by (apply Qeq_eqR; reflexivity).
    rewrite Ebx, Edx, Edy in Hx. rewrite Eby, Edx, Edy in Hy.
    change (offsetAmount (Particle.deliveryIndex Sample.order_2)) with (-1)%Z in Hx, Hy.
    split; [rewrite Hx | rewrite Hy]; Lra.lra.
Defined.

(** C2 as the claim states it fails for the particle of index 0: its
    stagger offset is -1, not 0.  In the sample snapshot taken at the
    start time of order 1, whose source Chicago projects to (430, 140),
    the one flow circle is placed, and not at (430, 140). *)
Lemma index0_particle_beside_source :
  offsetAmount 0 <> 0%Z /\
  getNodeProjection Sample.projection "chicago_center"
    (after (update Sample.projection Sample.two_nodes_start) NetworkMap.empty)
  = (430, 140) /\
  currentTime (after (update Sample.projection Sample.two_nodes_start) NetworkMap.empty)
  == deliveryStartTime (Particle.delivery Sample.order_1) /\
  datum <$> flows (after (update Sample.projection Sample.two_nodes_start) NetworkMap.empty)
  = [Sample.order_1] /\
  forall c : Elem Particle.t FlowAttrs.t,
    c ∈ flows (after (update Sample.projection Sample.two_nodes_start) NetworkMap.empty) ->
    exists pos, attrs c = Some pos /\ pos <> (Q2R 430, Q2R 140).
Proof.
  split; [discriminate |]. split; [vm_compute; reflexivity |].
  split; [vm_compute; reflexivity |].
  assert (Hd : datum <$> flows (after (update Sample.projection Sample.two_nodes_start)
                                      NetworkMap.empty) = [Sample.order_1]).
  { vm_compute. reflexivity. }
  split; [exact Hd |]. intros c Hc.
  assert (Ec : @datum Particle.t FlowAttrs.t c = Sample.order_1).
  { assert (H : @datum Particle.t FlowAttrs.t c
                ∈ datum <$> flows (after (update Sample.projection
                                             Sample.two_nodes_start)
                                          NetworkMap.empty)).
    { apply list_elem_of_fmap. eauto. }
    rewrite Hd in H. now apply list_elem_of_singleton in H. }
  destruct (flows_placed _ _ _ _ Hc) as [a Ha]. rewrite Ec in Ha.
  rewrite placeFlow_placed in Ha by (vm_compute; discriminate).
  eexists. split; [exact Ha |]. intros E.
  pose proof (flowPosition_distance
                (getNodeProjection Sample.projection
                   (Edge.from (Particle.edge Sample.order_1))
                   (after (update Sample.projection Sample.two_nodes_start) NetworkMap.empty))
                (getNodeProjection Sample.projection
                   (Edge.to (Particle.edge Sample.order_1))
                   (after (update Sample.projection Sample.two_nodes_start) NetworkMap.empty))
                (progress (currentTime (after (update Sample.projection
                                                  Sample.two_nodes_start) NetworkMap.empty))
                          (Particle.delivery Sample.order_1))
                (Particle.deliveryIndex Sample.order_1)) as Hdist.
  cbn zeta in Hdist. rewrite E in Hdist. cbn [fst snd] in Hdist.
  destruct (basePosition_start
              (getNodeProjection Sample.projection
                 (Edge.from (Particle.edge Sample.order_1))
                 (after (update Sample.projection Sample.two_nodes_start) NetworkMap.empty))
              (getNodeProjection Sample.projection
                 (Edge.to (Particle.edge Sample.order_1))
                 (after (update Sample.projection Sample.two_nodes_start) NetworkMap.empty))
              (progress (currentTime (after (update Sample.projection
                                                Sample.two_nodes_start) NetworkMap.empty))
                        (Particle.delivery Sample.order_1))) as [Hx Hy].
  { apply progress_at_start. vm_compute. reflexivity. }
  apply Qeq_eqR in Hx, Hy. rewrite Hx, Hy in Hdist.
  replace (Q2R (fst (getNodeProjection Sample.projection
                 (Edge.from (Particle.edge Sample.order_1))
                 (after (update Sample.projection Sample.two_nodes_start) NetworkMap.empty))))
    with (Q2R 430) in Hdist by (apply Qeq_eqR; reflexivity).
  replace (Q2R (snd (getNodeProjection Sample.projection
                 (Edge.from (Particle.edge Sample.order_1))
                 (after (update Sample.projection Sample.two_nodes_start) NetworkMap.empty))))
    with (Q2R 140) in Hdist by (apply Qeq_eqR; reflexivity).
  change (offsetAmount (Particle.deliveryIndex Sample.order_1)) with (-1)%Z in Hdist.
  Lra.lra.
Qed.

(** * Further properties *)

(** ** Flow particles over time *)

Lemma clamp_mono x y : x <= y -> JS.max 0 (JS.min 1 x) <= JS.max 0 (JS.min 1 y).
Proof.
  intros H. unfold JS.max, JS.min.
  case_gt 1 x; case_gt 1 y;
    repeat match goal with |- context [JS.gt ?a ?b] => case_gt a b end; Lqa.lra.
Qed.

Lemma div_mono a b d : 0 < d -> a <= b -> a / d <= b / d.
Proof.
  intros Hd H. unfold Qdiv. apply Qmult_le_compat_r; [exact H |].
  apply Qlt_le_weak, Qinv_lt_0_compat, Hd.
Qed.

(** X1.  The progress of a delivery never decreases as the simulation
    time advances, whatever its start time and its duration (missing,
    zero and negative ones included): a particle does not move back
    towards its source. *)
Theorem progress_monotone (t1 t2 : Q) (d : Delivery.t) :
  t1 <= t2 -> progress t1 d <= progress t2 d.
Proof.
  intros H. unfold progress. case_gt (deliveryDuration d) 0; [| Lqa.lra].
  apply clamp_mono, div_mono; [assumption | Lqa.lra].
Qed.

(** X1 at a delivery that starts at 0 and lasts 10, seen at times 3
    and 7. *)
Lemma progress_monotone_witness :
  progress 3 (Sample.delivery "order_1" (Some 0) (Some 10))
  <= progress 7 (Sample.delivery "order_1" (Some 0) (Some 10)).
Proof. apply progress_monotone. vm_compute. discriminate. Defined.

Lemma between_combination a b q : 0 <= q <= 1 -> between a b (a + q * (b - a)).
Proof.
  intros [H0 H1]. unfold between.
  destruct (Qlt_le_dec b a) as [Hba | Hab].
  - right. assert (0 <= q * (a - b)) by (apply Qmult_le_0_compat; Lqa.lra).
    assert (0 <= (1 - q) * (a - b)) by (apply Qmult_le_0_compat; Lqa.lra). Lqa.lra.
  - left. assert (0 <= q * (b - a)) by (apply Qmult_le_0_compat; Lqa.lra).
    assert (0 <= (1 - q) * (b - a)) by (apply Qmult_le_0_compat; Lqa.lra). Lqa.lra.
Qed.

(** X2.  At every simulation time, before the start of the delivery and
    after its end included, the point a particle is interpolated to
    lies on the segment between the two endpoints of its edge: each of
    its coordinates is between those of the endpoints. *)
Theorem particle_within_segment (p1 p2 : Q * Q) (time : Q) (d : Delivery.t) :
  let b := basePosition p1 p2 (progress time d) in
  between (fst p1) (fst p2) (fst b) /\ between (snd p1) (snd p2) (snd b).
Proof.
  cbn zeta. unfold basePosition. cbn [fst snd].
  split; apply between_combination, progress_bounds.
Qed.

Section Direction.

Local Open Scope R_scope.

(** The angle [atan2 y x] points along [(x, y)]. *)
Lemma atan2_direction (y x : R) :
  cos (Trig.atan2 y x) * y = sin (Trig.atan2 y x) * x.
Proof.
  unfold Trig.atan2.
  assert (Hat : x <> 0 -> cos (atan (y / x)) * y = sin (atan (y / x)) * x).
  { intros Hx.
    pose proof (atan_bound (y / x)) as [Hl Hu].
    assert (Hc : cos (atan (y / x)) <> 0).
    { apply Rgt_not_eq. apply cos_gt_0; Lra.lra. }
    pose proof (tan_atan (y / x)) as Ht. unfold tan in Ht.
    assert (Hs : sin (atan (y / x)) = y / x * cos (atan (y / x))).
    { rewrite <- Ht at 2. field. exact Hc. }
    rewrite Hs. field. exact Hx. }
  destruct (Rlt_dec 0 x) as [Hx | Hx].
  - apply Hat. Lra.lra.
  - destruct (Rlt_dec x 0) as [Hx' | Hx'].
    + destruct (Rle_dec 0 y).
      * rewrite neg_cos, neg_sin. specialize (Hat ltac:(Lra.lra)). Lra.lra.
      * rewrite cos_minus, sin_minus. rewrite cos_PI, sin_PI.
        specialize (Hat ltac:(Lra.lra)). Lra.lra.
    + assert (x = 0) by Lra.lra. subst x.
      destruct (Rlt_dec 0 y); [rewrite cos_PI2; Lra.lra |].
      destruct (Rlt_dec y 0); [rewrite cos_neg, cos_PI2; Lra.lra |].
      assert (y = 0) by Lra.lra. subst y. Lra.lra.
Qed.

End Direction.

Lemma offsetAmount_period (index : nat) : offsetAmount (index + 3) = offsetAmount index.
Proof.
  unfold offsetAmount. rewrite Nat2Z.inj_add.
  change (Z.of_nat 3) with (1 * 3)%Z. now rewrite Z.mod_add.
Qed.

(** X3.  The stagger moves a circle off the point on the segment at a
    right angle to the edge and by at most one unit, and it repeats
    with period three in the index of the delivery: the fourth delivery
    of an edge is drawn exactly where the first one would be. *)
Theorem stagger_perpendicular (p1 p2 : Q * Q) (q : Q) (index : nat) :
  let b := basePosition p1 p2 q in
  let pos := flowPosition p1 p2 q index in
  ((fst pos - Q2R (fst b)) * Q2R (fst p2 - fst p1)
   + (snd pos - Q2R (snd b)) * Q2R (snd p2 - snd p1) = 0)%R /\
  ((fst pos - Q2R (fst b)) * (fst pos - Q2R (fst b))
   + (snd pos - Q2R (snd b)) * (snd pos - Q2R (snd b)) <= 1)%R /\
  flowPosition p1 p2 q (index + 3) = pos.
Proof.
  cbn zeta. split; [| split].
  - unfold flowPosition. cbn [fst snd].
    set (y := Q2R (snd p2 - snd p1)). set (x := Q2R (fst p2 - fst p1)).
    rewrite cos_plus, sin_plus, cos_PI2, sin_PI2.
    pose proof (atan2_direction y x) as H.
    set (o := IZR (offsetAmount index)).
    transitivity (o * (cos (Trig.atan2 y x) * y - sin (Trig.atan2 y x) * x))%R; [ring |].
    rewrite H. ring.
  - pose proof (flowPosition_distance p1 p2 q index) as H. cbn zeta in H. rewrite H.
    destruct (offsetAmount_range index) as [-> | [-> | ->]]; Lra.lra.
  - unfold flowPosition. now rewrite offsetAmount_period.
Qed.

(** ** Where the elements of a layer come from *)

Section JoinOrigin.

Context {D A : Type}.
Variable key : D -> string.

Lemma bindData_lookup ds : forall m i j,
  fst (bindData key ds m) !! i = Some (Some j) ->
  exists d, ds !! i = Some d /\ m !! key d = Some j.
Proof.
  induction ds as [| d ds IH]; intros m i j H.
  - destruct i; discriminate.
  - rewrite bindData_cons in H. cbn [fst] in H. destruct i as [| i]; simpl in H.
    + injection H as H. eauto.
    + apply IH in H as (d' & Hd' & Hm).
      apply lookup_delete_Some in Hm as [_ Hm]. eauto.
Qed.

Lemma boundTo_Some j (ds : list D) : forall i0 u i d,
  boundTo j i0 ds u = Some (i, d) ->
  exists k, i = (i0 + k)%nat /\ ds !! k = Some d /\ u !! k = Some (Some j).
Proof.
  induction ds as [| d0 ds IH]; intros i0 u i d H; [discriminate |].
  destruct u as [| [j' |] u']; simpl in H; [discriminate | |].
  - destruct (Nat.eqb_spec j j') as [<- | Hne].
    + injection H as <- <-. exists 0%nat. split; [lia | auto].
    + apply IH in H as (k & -> & Hd & Hu). exists (S k). split; [lia | auto].
  - apply IH in H as (k & -> & Hd & Hu). exists (S k). split; [lia | auto].
Qed.

Lemma newElems_elem (init : D -> A) ds : forall i0 u x,
  x ∈ newElems init i0 ds u ->
  exists k d, ds !! k = Some d /\ x = (New (i0 + k), {| datum := d; attrs := init d |}).
Proof.
  induction ds as [| d0 ds IH]; intros i0 u x H; [destruct u; inversion H |].
  destruct u as [| [j |] u']; simpl in H; [inversion H | |].
  - apply IH in H as (k & d & Hd & ->). exists (S k), d. split; [assumption |].
    do 2 f_equal. lia.
  - apply elem_of_cons in H as [-> | H].
    + exists 0%nat, d0. split; [reflexivity |]. do 2 f_equal. lia.
    + apply IH in H as (k & d & Hd & ->). exists (S k), d. split; [assumption |].
      do 2 f_equal. lia.
Qed.

(** An element of a rendered layer was created for its datum, or it is
    an element of the previous group with the same key, bound anew, or
    (when nothing is removed) an element of the group left as it was. *)
Lemma reconcile_origin init style remove (group : list (Elem D A)) ds e :
  e ∈ reconcile key init style remove group ds ->
  (exists i, ds !! i = Some (datum e) /\ attrs e = style i (datum e) (init (datum e))) \/
  (exists i e0, ds !! i = Some (datum e) /\ e0 ∈ group /\
                key (datum e0) = key (datum e) /\
                attrs e = style i (datum e) (attrs e0)) \/
  (remove = false /\ e ∈ group).
Proof.
  unfold reconcile. intros H.
  apply list_elem_of_omap in H as (x & Hx & Hr).
  rewrite appendEnter_perm in Hx. apply elem_of_app in Hx as [Hx | Hx].
  - apply elem_of_lookup_imap in Hx as (j & e0 & -> & He0).
    simpl in Hr.
    destruct (boundTo j 0 ds _) as [[i d] |] eqn:Eb.
    + injection Hr as <-. right. left.
      apply boundTo_Some in Eb as (k & -> & Hd & Hu). simpl.
      rewrite bindKey_update in Hu.
      apply bindData_lookup in Hu as (d' & Hd' & Hm).
      assert (d' = d) by congruence. subst d'.
      rewrite nodeByKeyValue_first in Hm.
      apply firstIndex_Some in Hm as (e1 & He1 & Hk).
      assert (e1 = e0) by congruence. subst e1.
      exists k, e0. repeat split; try assumption.
      eapply list_elem_of_lookup_2; eassumption.
    + destruct remove; [discriminate |]. injection Hr as <-. right. right.
      split; [reflexivity |]. eapply list_elem_of_lookup_2; eassumption.
  - apply newElems_elem in Hx as (k & d & Hd & ->). simpl in Hr. injection Hr as <-.
    left. exists k. simpl. auto.
Qed.

(** A render that removes nothing leaves, for every element of the
    group, an element with the same key. *)
Lemma reconcile_keeps init style (group : list (Elem D A)) ds e0 :
  e0 ∈ group ->
  exists e, e ∈ reconcile key init style false group ds /\
            key (datum e) = key (datum e0).
Proof.
  intros Hin. apply list_elem_of_lookup in Hin as [j Hj].
  set (u := updateGroup (bindKey key group ds)).
  assert (Hx : (Old j, e0) ∈ appendEnter init 0 ds u (imap (fun j e => (Old j, e)) group)).
  { rewrite appendEnter_perm. apply elem_of_app. left.
    apply elem_of_lookup_imap. eauto. }
  destruct (rendered style false ds u (Old j, e0)) as [e |] eqn:Er.
  - exists e. split.
    + unfold reconcile. apply list_elem_of_omap. exists (Old j, e0). auto.
    + simpl in Er. destruct (boundTo j 0 ds u) as [[i d] |] eqn:Eb.
      * injection Er as <-. simpl.
        apply boundTo_Some in Eb as (k & _ & Hd & Hu). unfold u in Hu.
        rewrite bindKey_update in Hu.
        apply bindData_lookup in Hu as (d' & Hd' & Hm).
        assert (d' = d) by congruence. subst d'.
        rewrite nodeByKeyValue_first in Hm.
        apply firstIndex_Some in Hm as (e1 & He1 & Hk). congruence.
      * now injection Er as <-.
  - simpl in Er. destruct (boundTo j 0 ds u) as [[i d] |]; discriminate.
Qed.

(** *** No data, and no element *)

Lemma reconcile_no_data init style (group : list (Elem D A)) :
  reconcile key init style true group [] = [].
Proof.
  unfold reconcile. cbn [appendEnter]. apply omap_nil. apply Forall_forall.
  intros x Hx. apply elem_of_lookup_imap in Hx as (j & e & -> & _). reflexivity.
Qed.

Lemma entering_no_data (group : list (Elem D A)) : entering key group [] = [].
Proof. reflexivity. Qed.

Lemma exiting_no_data (group : list (Elem D A)) : exiting key group [] = group.
Proof.
  unfold exiting. rewrite bindKey_exit. cbn [bindData snd].
  set (m := nodeByKeyValue key 0 group ∅). clearbody m.
  assert (H : forall j0 (g : list (Elem D A)),
             omap (fun '(e, b) => if b : bool then Some e else None)
                  (zip g (imap (fun j => exits key m m (j0 + j)) g)) = g).
  { intros j0 g. revert j0. induction g as [| e g IH]; intros j0; [reflexivity |].
    rewrite imap_cons. cbn [zip zip_with]. csimpl.
    assert (E : exits key m m (j0 + 0) e = true).
    { unfold exits. destruct (bool_decide _); reflexivity. }
    rewrite E. f_equal.
    rewrite (imap_ext _ (fun j => exits key m m (S j0 + j))).
    - apply IH.
    - intros j x _. simpl. f_equal. lia. }
  exact (H 0%nat group).
Qed.

Lemma bindData_empty ds :
  bindData key ds ∅ = (replicate (length ds) None, ∅).
Proof.
  induction ds as [| d ds IH]; [reflexivity |].
  simpl. rewrite lookup_empty, IH. reflexivity.
Qed.

Lemma next_update_none n : next_update (replicate n None) = None.
Proof. induction n; [reflexivity | assumption]. Qed.

Lemma appendEnter_all (init : D -> A) ds : forall i dom,
  appendEnter init i ds (replicate (length ds) None) dom
  = dom ++ imap (fun k d => (New (i + k), {| datum := d; attrs := init d |})) ds.
Proof.
  induction ds as [| d ds IH]; intros i dom; simpl.
  - now rewrite app_nil_r.
  - rewrite next_update_none, IH, <- app_assoc. simpl. rewrite Nat.add_0_r.
    do 2 f_equal. apply imap_ext. intros k x _. simpl. do 2 f_equal. lia.
Qed.

(** In a layer without elements every datum enters, and the new
    elements are appended in the order of the data. *)
Lemma reconcile_fresh (init : D -> A) style remove (ds : list D) :
  reconcile key init style remove [] ds
  = imap (fun i d => {| datum := d; attrs := style i d (init d) |}) ds.
Proof.
  unfold reconcile. rewrite bindKey_update. cbn [nodeByKeyValue].
  rewrite bindData_empty. cbn [fst imap]. rewrite appendEnter_all. cbn [app].
  assert (H : forall (l : list D) i0 u,
             omap (rendered style remove ds u)
                  (imap (fun k d => (New (i0 + k), {| datum := d; attrs := init d |})) l)
             = imap (fun i d => {| datum := d; attrs := style (i0 + i)%nat d (init d) |}) l).
  { induction l as [| d l IH]; intros i0 u; [reflexivity |].
    rewrite !imap_cons. csimpl. f_equal.
    rewrite (imap_ext _ (fun k d => (New (S i0 + k), {| datum := d; attrs := init d |})))
      by (intros k x _; simpl; do 2 f_equal; lia).
    rewrite IH. apply imap_ext. intros k x _. simpl. do 2 f_equal. lia. }
  rewrite (H ds 0%nat). reflexivity.
Qed.

Lemma entering_fresh (ds : list D) : entering key ([] : list (Elem D A)) ds = ds.
Proof.
  unfold entering. rewrite bindKey_update. cbn [nodeByKeyValue].
  rewrite bindData_empty. cbn [fst].
  induction ds as [| d ds IH]; [reflexivity |]. csimpl. now rewrite IH.
Qed.

Lemma exiting_fresh (ds : list D) : exiting key ([] : list (Elem D A)) ds = [].
Proof. reflexivity. Qed.

(** *** The enter and exit selections when keys are distinct *)

Lemma filter_agree {B : Type} (f g : B -> bool) (l : list B) :
  (forall x, x ∈ l -> f x = g x) -> List.filter f l = List.filter g l.
Proof.
  intros H. apply List.filter_ext_in. intros x Hx. apply H. now apply list_elem_of_In.
Qed.

Lemma zip_cons_eq {B C : Type} (x : B) (y : C) (l : list B) (k : list C) :
  zip (x :: l) (y :: k) = (x, y) :: zip l k.
Proof. reflexivity. Qed.

Lemma omap_cons_eq {B C : Type} (f : B -> option C) (x : B) (l : list B) :
  omap f (x :: l) = match f x with Some y => y :: omap f l | None => omap f l end.
Proof. reflexivity. Qed.

Lemma bindData_enter ds : forall m,
  NoDup (key <$> ds) ->
  omap (fun '(d, u) => match u with None => Some d | Some _ => None end)
       (zip ds (fst (bindData key ds m)))
  = List.filter (fun d => bool_decide (m !! key d = None)) ds.
Proof.
  induction ds as [| d ds IH]; intros m Hnd; [reflexivity |].
  rewrite bindData_cons. cbn [fst List.filter].
  rewrite zip_cons_eq, omap_cons_eq.
  rewrite fmap_cons in Hnd. apply NoDup_cons in Hnd as [Hnotin Hnd].
  assert (Et : omap (fun '(d, u) => match u with None => Some d | Some _ => None end)
                    (zip ds (fst (bindData key ds (delete (key d) m))))
               = List.filter (fun d => bool_decide (m !! key d = None)) ds).
  { rewrite IH by assumption. apply filter_agree. intros x Hx.
    rewrite lookup_delete_ne; [reflexivity |].
    intros E. apply Hnotin. rewrite E. apply list_elem_of_fmap. eauto. }
  rewrite Et.
  destruct (m !! key d) eqn:E.
  - rewrite bool_decide_false by discriminate. reflexivity.
  - rewrite bool_decide_true by reflexivity. reflexivity.
Qed.

Lemma firstIndex_None k (group : list (Elem D A)) :
  firstIndex key k group = None <-> k ∉ groupKeys key group.
Proof.
  split.
  - intros E Hin. apply firstIndex_is_Some in Hin as [j Hj]. congruence.
  - intros Hnot. destruct (firstIndex key k group) as [j |] eqn:E; [| reflexivity].
    exfalso. apply Hnot. apply firstIndex_Some in E as (e & He & <-).
    unfold groupKeys. apply list_elem_of_fmap. exists e. split; [reflexivity |].
    eapply list_elem_of_lookup_2; eassumption.
Qed.

(** With pairwise distinct keys in the data, the data that enter are
    those whose key no element carries. *)
Lemma entering_new (group : list (Elem D A)) ds :
  NoDup (key <$> ds) ->
  entering key group ds = List.filter (isNew key group) ds.
Proof.
  intros Hnd. unfold entering. rewrite bindKey_update, bindData_enter by assumption.
  apply filter_agree. intros d _. unfold isNew.
  rewrite nodeByKeyValue_first. apply bool_decide_ext. apply firstIndex_None.
Qed.

(** With pairwise distinct keys in the group, the elements that exit
    are those whose key no datum carries. *)
Lemma exiting_gone (group : list (Elem D A)) ds :
  NoDup (groupKeys key group) ->
  exiting key group ds = List.filter (isGone key ds) group.
Proof.
  intros Hnd. unfold exiting. rewrite bindKey_exit.
  set (m1 := nodeByKeyValue key 0 group ∅).
  set (mf := snd (bindData key ds m1)).
  assert (H : forall (g : list (Elem D A)) j0,
             (forall j e, g !! j = Some e -> group !! (j0 + j)%nat = Some e) ->
             omap (fun '(e, b) => if b : bool then Some e else None)
                  (zip g (imap (fun j => exits key m1 mf (j0 + j)) g))
             = List.filter (isGone key ds) g).
  { induction g as [| e g IH]; intros j0 Hsub; [reflexivity |].
    rewrite imap_cons. cbn [List.filter].
    rewrite zip_cons_eq, omap_cons_eq.
    assert (Ee : exits key m1 mf (j0 + 0) e = isGone key ds e).
    { assert (Hm1 : m1 !! key (datum e) = Some (j0 + 0)%nat).
      { unfold m1. rewrite nodeByKeyValue_first.
        apply firstIndex_NoDup; [exact Hnd | apply Hsub; reflexivity]. }
      assert (Hmf : mf !! key (datum e)
                    = if decide (key (datum e) ∈ key <$> ds) then None
                      else Some (j0 + 0)%nat).
      { unfold mf. rewrite bindData_final. now rewrite Hm1. }
      unfold exits, isGone. rewrite (bool_decide_true _ Hm1). cbn [negb orb].
      destruct (decide (key (datum e) ∈ key <$> ds)) as [Hin | Hnot].
      - rewrite bool_decide_false by (rewrite Hmf; discriminate).
        symmetry. apply bool_decide_false. tauto.
      - rewrite (bool_decide_true _ Hmf).
        symmetry. now apply bool_decide_true. }
    rewrite Ee.
    rewrite (imap_ext _ (fun j => exits key m1 mf (S j0 + j)))
      by (intros j x _; simpl; f_equal; lia).
    rewrite (IH (S j0)).
    - now destruct (isGone key ds e).
    - intros j x Hx. specialize (Hsub (S j) x Hx).
      now replace (S j0 + j)%nat with (j0 + S j)%nat by lia. }
  exact (H group 0%nat (fun j e He => He)).
Qed.

(** *** The element a datum is bound to *)

Lemma newElems_entered (init : D -> A) ds : forall i0 u x,
  x ∈ newElems init i0 ds u ->
  exists k d, ds !! k = Some d /\ u !! k = Some None /\
              x = (New (i0 + k), {| datum := d; attrs := init d |}).
Proof.
  induction ds as [| d0 ds IH]; intros i0 u x H; [destruct u; inversion H |].
  destruct u as [| [j |] u']; simpl in H; [inversion H | |].
  - apply IH in H as (k & d & Hd & Hu & ->). exists (S k), d.
    split; [assumption |]. split; [assumption |]. do 2 f_equal. lia.
  - apply elem_of_cons in H as [-> | H].
    + exists 0%nat, d0. split; [reflexivity |]. split; [reflexivity |]. do 2 f_equal. lia.
    + apply IH in H as (k & d & Hd & Hu & ->). exists (S k), d.
      split; [assumption |]. split; [assumption |]. do 2 f_equal. lia.
Qed.

(** With pairwise distinct keys in the data, every datum is bound to
    what the map of the group holds under its key. *)
Lemma bindData_nth ds : forall m i d,
  NoDup (key <$> ds) -> ds !! i = Some d ->
  fst (bindData key ds m) !! i = Some (m !! key d).
Proof.
  induction ds as [| d0 ds IH]; intros m i d Hnd Hi; [destruct i; discriminate |].
  rewrite bindData_cons. cbn [fst].
  rewrite fmap_cons in Hnd. apply NoDup_cons in Hnd as [Hnotin Hnd].
  destruct i as [| i]; simpl in Hi |- *.
  - now injection Hi as ->.
  - rewrite (IH _ _ _ Hnd Hi). f_equal. apply lookup_delete_ne.
    intros E. apply Hnotin. rewrite E. apply list_elem_of_fmap.
    exists d. split; [reflexivity |]. eapply list_elem_of_lookup_2; eassumption.
Qed.

(** With pairwise distinct keys in the data, an element of a rendered
    layer whose key the group carries is its first element of that key,
    bound anew, and an element whose key the group does not carry was
    created. *)
Lemma reconcile_bound init style (group : list (Elem D A)) ds e :
  NoDup (key <$> ds) ->
  e ∈ reconcile key init style true group ds ->
  exists i, ds !! i = Some (datum e) /\
    match firstIndex key (key (datum e)) group with
    | Some j => exists e0, group !! j = Some e0 /\ attrs e = style i (datum e) (attrs e0)
    | None => attrs e = style i (datum e) (init (datum e))
    end.
Proof.
  intros Hnd. unfold reconcile. intros H.
  apply list_elem_of_omap in H as (x & Hx & Hr).
  rewrite appendEnter_perm in Hx. apply elem_of_app in Hx as [Hx | Hx].
  - apply elem_of_lookup_imap in Hx as (j & e0 & -> & He0).
    simpl in Hr.
    destruct (boundTo j 0 ds _) as [[i d] |] eqn:Eb; [| discriminate].
    injection Hr as <-. simpl.
    apply boundTo_Some in Eb as (k & -> & Hd & Hu). simpl.
    rewrite bindKey_update, (bindData_nth _ _ _ _ Hnd Hd), nodeByKeyValue_first in Hu.
    injection Hu as Hu. exists k. split; [exact Hd |]. rewrite Hu. eauto.
  - apply newElems_entered in Hx as (k & d & Hd & Hu & ->). simpl in Hr. injection Hr as <-.
    simpl.
    rewrite bindKey_update, (bindData_nth _ _ _ _ Hnd Hd), nodeByKeyValue_first in Hu.
    injection Hu as Hu. exists k. split; [exact Hd |]. now rewrite Hu.
Qed.

End JoinOrigin.

Lemma imap_datum {D A : Type} (f : nat -> D -> A) (l : list D) :
  datum <$> imap (fun i d => {| datum := d; attrs := f i d |}) l = l.
Proof.
  revert f. induction l as [| d l IH]; intros f; [reflexivity |].
  rewrite imap_cons, fmap_cons. cbn [datum]. f_equal. apply IH.
Qed.

(** ** What [update] draws *)

Section Drawn.

Variable projection : Q * Q -> option (Q * Q).

Lemma lineStyle_nodes (x y : t) d :
  nodes x = nodes y -> lineStyle projection x d = lineStyle projection y d.
Proof. intros E. unfold lineStyle, getNodeProjection. now rewrite E. Qed.

Lemma getNodeProjection_missing (nodeId : string) (this : t) :
  (forall n, n ∈ nodes this -> Node.id n <> nodeId) ->
  getNodeProjection projection nodeId this = (0, 0).
Proof.
  intros H. unfold getNodeProjection.
  assert (E : JS.find (fun n => String.eqb (Node.id n) nodeId) (nodes this) = None).
  { apply find_None. intros n Hn. apply String.eqb_neq. now apply H. }
  now rewrite E.
Qed.

Lemma projects_all (data : list Node.t) i d :
  firstUnprojectable projection i data = None -> d ∈ data ->
  exists p, projection (lonlat d) = Some p.
Proof.
  intros H Hd. apply firstUnprojectable_None with (n := d) in H; [| assumption].
  destruct (projection (lonlat d)) as [p |]; [eauto | congruence].
Qed.

(** X4.  A flow circle of an edge one of whose endpoints has no
    projected [x] (the fallback [[0, 0]] of a node id that is missing
    from the snapshot or of a location that does not project, or a
    projected [x] of 0) is not placed by [update], whatever the
    simulation time: a circle whose order id no circle of the map
    carried is new and has no position, and, the order ids of the
    snapshot being pairwise distinct, a circle whose order id was on
    the map has the position that the first circle with this order id
    had. *)
Theorem dangling_particle_not_placed (state : Snapshot.t) (this : t)
    (c : Elem Particle.t FlowAttrs.t) :
  let this' := after (update projection state) this in
  c ∈ flows this' ->
  fst (getNodeProjection projection (Edge.from (Particle.edge (datum c))) this') == 0 \/
  fst (getNodeProjection projection (Edge.to (Particle.edge (datum c))) this') == 0 ->
  (Particle.key (datum c) ∉ groupKeys Particle.key (flows this) -> attrs c = None) /\
  (NoDup (Particle.key <$> deliveryParticles (edgesOf state)) ->
   forall j c0,
     firstIndex Particle.key (Particle.key (datum c)) (flows this) = Some j ->
     flows this !! j = Some c0 ->
     attrs c = attrs c0).
Proof.
  cbn zeta. intros Hin Hzero.
  destruct (update_after projection state this) as (Hn & _ & Ht & _ & Hf & _).
  cbn zeta in Hf. rewrite Hf in Hin. cbn [flows edgesRendered set_flows] in Hin.
  set (e := set_lines (renderedLines projection (store state this)) (store state this)) in *.
  assert (Hkeep : forall a, placeFlow projection e (datum c) a = a).
  { intros a.
    rewrite (placeFlow_state projection e (after (update projection state) this))
      by (now rewrite ?Hn, ?Ht).
    unfold placeFlow.
    destruct Hzero as [Hz | Hz].
    - assert (E : JS.truthy (fst (getNodeProjection projection
                                    (Edge.from (Particle.edge (datum c)))
                                    (after (update projection state) this))) = false).
      { apply truthy_false. exact Hz. }
      now rewrite E.
    - assert (E : JS.truthy (fst (getNodeProjection projection
                                    (Edge.to (Particle.edge (datum c)))
                                    (after (update projection state) this))) = false).
      { apply truthy_false. exact Hz. }
      rewrite E. now rewrite orb_true_r. }
  unfold renderedFlows in Hin.
  change (flows e) with (flows this) in Hin.
  change (edges e) with (edgesOf state) in Hin.
  split.
  - intros Hnew.
    apply (reconcile_origin Particle.key) in Hin
      as [(i & _ & E) | [(i & c0 & _ & Hc0 & Hk & E) | (Hr & _)]].
    + rewrite E. apply Hkeep.
    + exfalso. apply Hnew. rewrite <- Hk. unfold groupKeys.
      apply list_elem_of_fmap. eauto.
    + discriminate.
  - intros Hnd j c0 Hj Hc0.
    apply (reconcile_bound Particle.key) in Hin as (i & _ & Hb); [| exact Hnd].
    rewrite Hj in Hb. destruct Hb as (c1 & Hc1 & E).
    assert (c1 = c0) by congruence. subst c1. rewrite E. apply Hkeep.
Qed.

(** X5.  [renderEdges] never throws, and after every [update], also one
    that throws while rendering the nodes, the lines carry the edges of
    the snapshot, one line per edge (edges with the same key included),
    each with the attributes computed from its edge and the stored
    nodes.  An endpoint whose node id no node of the snapshot carries
    is drawn at the origin: the edge is drawn, not dropped. *)
Theorem lines_follow_snapshot (state : Snapshot.t) (this : t) :
  let this' := after (update projection state) this in
  throws (renderEdges projection) this = false /\
  datum <$> lines this' ≡ₚ edgesOf state /\
  (forall l, l ∈ lines this' -> attrs l = lineStyle projection this' (datum l)) /\
  (forall l, l ∈ lines this' ->
     (forall n, n ∈ nodesOf state -> Node.id n <> Edge.from (datum l)) ->
     LineAttrs.x1 (attrs l) = 0 /\ LineAttrs.y1 (attrs l) = 0) /\
  (forall l, l ∈ lines this' ->
     (forall n, n ∈ nodesOf state -> Node.id n <> Edge.to (datum l)) ->
     LineAttrs.x2 (attrs l) = 0 /\ LineAttrs.y2 (attrs l) = 0).
Proof.
  cbn zeta. destruct (update_after projection state this) as (Hn & _ & _ & Hl & _).
  cbn zeta in Hl.
  set (this' := after (update projection state) this) in *.
  assert (Hs : forall l, l ∈ lines this' -> attrs l = lineStyle projection this' (datum l)).
  { intros l Hin. rewrite Hl in Hin. apply reconcile_styled in Hin as (i & a & ->).
    apply lineStyle_nodes. now rewrite Hn. }
  split; [reflexivity |]. split; [rewrite Hl; apply (reconcile_data edgeKey) |].
  split; [exact Hs |]. split; intros l Hin Hmiss; rewrite (Hs l Hin); cbn.
  - rewrite getNodeProjection_missing; [now split | now rewrite Hn].
  - rewrite getNodeProjection_missing; [now split | now rewrite Hn].
Qed.

(** X6.  After an [update] that returns, the node groups and the labels
    carry the nodes of the snapshot, one group and one label per node,
    whatever was drawn before.  Every group is translated to the
    projection of its node, and its circle has the radius and the fill
    of that node in this snapshot and the highlight of the selection;
    every label is at the same point and shows the label text of its
    node. *)
Theorem nodes_follow_snapshot (state : Snapshot.t) (this : t) :
  throws (update projection state) this = false ->
  let this' := after (update projection state) this in
  datum <$> groups this' ≡ₚ nodesOf state /\
  datum <$> labels this' ≡ₚ nodesOf state /\
  (forall g, g ∈ groups this' ->
     exists p,
       projection (lonlat (datum g)) = Some p /\
       GroupAttrs.transform (attrs g) = Some p /\
       GroupAttrs.circle (attrs g)
       = Some {| CircleAttrs.r := nodeRadius (nodesOf state) (datum g);
                 CircleAttrs.fill := nodeFill (datum g);
                 CircleAttrs.stroke := if isSelected this (datum g) then "#fff" else "none";
                 CircleAttrs.stroke_width := if isSelected this (datum g) then 3 else 0 |}) /\
  (forall l, l ∈ labels this' ->
     exists p,
       projection (lonlat (datum l)) = Some p /\
       attrs l = {| LabelAttrs.x := Some (fst p);
                    LabelAttrs.y := Some (snd p);
                    LabelAttrs.text := Some (labelText (datum l)) |}).
Proof.
  intros Hok. cbn zeta.
  destruct (update_after projection state this) as (_ & _ & _ & _ & _ & _ & _ & Hc).
  cbn zeta in Hc.
  destruct (firstUnprojectable projection 0 (nodesOf state)) as [f |] eqn:Ef.
  { destruct Hc as [Ht _]. congruence. }
  destruct Hc as (_ & Hg & Hb & _).
  set (this' := after (update projection state) this) in *.
  assert (Pg : datum <$> groups this' ≡ₚ nodesOf state).
  { rewrite Hg. apply (reconcile_data nodeKey). }
  assert (Pl : datum <$> labels this' ≡ₚ nodesOf state).
  { rewrite Hb. apply (reconcile_data nodeKey). }
  split; [exact Pg |]. split; [exact Pl |]. split.
  - intros g Hin.
    assert (Hd : datum g ∈ nodesOf state).
    { rewrite <- Pg. apply list_elem_of_fmap. eauto. }
    destruct (projects_all _ _ _ Ef Hd) as [p Hp]. exists p. split; [exact Hp |].
    rewrite Hg in Hin. apply reconcile_styled in Hin as (i & a & ->).
    cbn. now rewrite Hp.
  - intros l Hin.
    assert (Hd : datum l ∈ nodesOf state).
    { rewrite <- Pl. apply list_elem_of_fmap. eauto. }
    destruct (projects_all _ _ _ Ef Hd) as [p Hp]. exists p. split; [exact Hp |].
    rewrite Hb in Hin. apply reconcile_styled in Hin as (i & a & ->).
    unfold labelStyle. now rewrite Hp.
Qed.

(** X7.  When a node of the snapshot does not project, [update] throws
    after it has stored the snapshot and rendered the lines: every node
    of the snapshot has a group, no group that was there is removed,
    the labels are those of the previous snapshot, untouched, and the
    tooltip and the panel are not refreshed. *)
Theorem update_aborted (state : Snapshot.t) (this : t) (n : Node.t) :
  n ∈ nodesOf state -> projection (lonlat n) = None ->
  let this' := after (update projection state) this in
  throws (update projection state) this = true /\
  nodes this' = nodesOf state /\
  edges this' = edgesOf state /\
  datum <$> lines this' ≡ₚ edgesOf state /\
  (forall d, d ∈ nodesOf state -> d ∈ datum <$> groups this') /\
  (forall g, g ∈ groups this ->
     exists g', g' ∈ groups this' /\ Node.id (datum g') = Node.id (datum g)) /\
  labels this' = labels this /\
  tooltip this' = tooltip this /\
  panel this' = panel this /\
  (forall k, (Destroy Groups k ∉ ops_of (update projection state) this) /\
             (Create Labels k ∉ ops_of (update projection state) this) /\
             (Destroy Labels k ∉ ops_of (update projection state) this)).
Proof.
  intros Hn Hp. cbn zeta.
  destruct (unprojectable_first projection _ _ 0%nat Hn Hp) as [f Ef].
  pose proof (update_ops projection state this) as Hops. cbn zeta in Hops.
  destruct (update_after projection state this) as (En & Ee & _ & Hl & _ & _ & _ & Hc).
  cbn zeta in Hl, Hc. rewrite Ef in Hc, Hops.
  destruct Hc as (Ht & Hg & Hb & Htip & Hpan).
  split; [exact Ht |]. split; [exact En |]. split; [exact Ee |].
  split; [rewrite Hl; apply (reconcile_data edgeKey) |].
  split; [| split; [| split; [exact Hb | split; [exact Htip | split; [exact Hpan |]]]]].
  - intros d Hd. rewrite Hg. now apply (reconcile_data_kept nodeKey).
  - intros g Hin. rewrite Hg. unfold cutGroups.
    apply (reconcile_keeps nodeKey). exact Hin.
  - intros k. rewrite Hops. unfold edgesOps, creates, destroys.
    repeat split; intros H;
      repeat (apply elem_of_app in H as [H | H]);
      apply list_elem_of_fmap in H as (x & H & _); discriminate.
Qed.

(** X8.  A snapshot without nodes and without edges, the two fields
    missing or empty, clears the map: [update] returns, every line,
    flow circle, node group and label that was drawn is removed, and
    nothing else is done. *)
Theorem empty_snapshot_clears (state : Snapshot.t) (this : t) :
  Snapshot.nodes state = None \/ Snapshot.nodes state = Some [] ->
  Snapshot.edges state = None \/ Snapshot.edges state = Some [] ->
  let this' := after (update projection state) this in
  throws (update projection state) this = false /\
  lines this' = [] /\ flows this' = [] /\ groups this' = [] /\ labels this' = [] /\
  ops_of (update projection state) this
  = ((fun l => Destroy Lines (edgeKey (datum l))) <$> lines this)
    ++ ((fun c => Destroy Flows (Particle.key (datum c))) <$> flows this)
    ++ ((fun g => Destroy Groups (Node.id (datum g))) <$> groups this)
    ++ ((fun l => Destroy Labels (Node.id (datum l))) <$> labels this).
Proof.
  intros Hn He. cbn zeta.
  assert (En : nodesOf state = []) by (unfold nodesOf; destruct Hn as [-> | ->]; reflexivity).
  assert (Ee : edgesOf state = []) by (unfold edgesOf; destruct He as [-> | ->]; reflexivity).
  clear Hn He.
  pose proof (update_ops projection state this) as Hops. cbn zeta in Hops.
  destruct (update_after projection state this) as (_ & _ & _ & Hl & Hf & _ & _ & Hc).
  cbn zeta in Hl, Hf, Hc. rewrite En in Hc, Hops. cbn [firstUnprojectable] in Hc, Hops.
  destruct Hc as (Ht & Hg & Hb & _).
  split.
  { rewrite Ht. unfold tooltipFails, detailsFails.
    change (nodes (nodesRendered projection (edgesRendered projection (store state this))))
      with (nodesOf state).
    rewrite En. cbn [JS.find].
    destruct (hoveredNode _), (selectedNode _); reflexivity. }
  split; [| split; [| split; [| split]]].
  - rewrite Hl. unfold renderedLines.
    change (edges (store state this)) with (edgesOf state). rewrite Ee.
    apply reconcile_no_data.
  - rewrite Hf. cbn [flows edgesRendered set_flows]. unfold renderedFlows.
    change (edges (set_lines _ (store state this))) with (edgesOf state). rewrite Ee.
    apply reconcile_no_data.
  - rewrite Hg. unfold renderedGroups.
    change (nodes (edgesRendered projection (store state this))) with (nodesOf state).
    rewrite En. apply reconcile_no_data.
  - rewrite Hb. unfold renderedLabels.
    change (nodes (edgesRendered projection (store state this))) with (nodesOf state).
    rewrite En. apply reconcile_no_data.
  - rewrite Hops. unfold edgesOps, nodesOps, creates, destroys.
    change (edges (store state this)) with (edgesOf state).
    change (nodes (edgesRendered projection (store state this))) with (nodesOf state).
    change (lines (store state this)) with (lines this).
    change (flows (store state this)) with (flows this).
    change (groups (edgesRendered projection (store state this))) with (groups this).
    change (labels (edgesRendered projection (store state this))) with (labels this).
    rewrite Ee, En. change (deliveryParticles []) with (@nil Particle.t).
    rewrite !entering_no_data, !exiting_no_data, !fmap_nil. cbn [app].
    rewrite <- !app_assoc. reflexivity.
Qed.

(** X9.  On a map on which nothing is drawn yet, an [update] that
    returns creates one element per edge, per delivery particle and per
    node, and one label per node, in this order and in the order of the
    snapshot; the elements of each layer are in the document in the
    order of their data, and nothing is removed. *)
Theorem first_update_in_order (state : Snapshot.t) (this : t) :
  lines this = [] -> flows this = [] -> groups this = [] -> labels this = [] ->
  throws (update projection state) this = false ->
  let this' := after (update projection state) this in
  datum <$> lines this' = edgesOf state /\
  datum <$> flows this' = deliveryParticles (edgesOf state) /\
  datum <$> groups this' = nodesOf state /\
  datum <$> labels this' = nodesOf state /\
  ops_of (update projection state) this
  = ((fun d => Create Lines (edgeKey d)) <$> edgesOf state)
    ++ ((fun p => Create Flows (Particle.key p)) <$> deliveryParticles (edgesOf state))
    ++ ((fun d => Create Groups (Node.id d)) <$> nodesOf state)
    ++ ((fun d => Create Labels (Node.id d)) <$> nodesOf state).
Proof.
  intros El Ef Eg Eb Hok. cbn zeta.
  pose proof (update_ops projection state this) as Hops. cbn zeta in Hops.
  destruct (update_after projection state this) as (_ & _ & _ & Hl & Hf & _ & _ & Hc).
  cbn zeta in Hl, Hf, Hc.
  destruct (firstUnprojectable projection 0 (nodesOf state)) as [f |].
  { destruct Hc as [Ht _]. congruence. }
  destruct Hc as (_ & Hg & Hb & _).
  split; [| split; [| split; [| split]]].
  - rewrite Hl. unfold renderedLines.
    change (lines (store state this)) with (lines this). rewrite El.
    rewrite reconcile_fresh. apply imap_datum.
  - rewrite Hf. cbn [flows edgesRendered set_flows]. unfold renderedFlows.
    change (flows (set_lines _ (store state this))) with (flows this). rewrite Ef.
    rewrite reconcile_fresh. apply imap_datum.
  - rewrite Hg. unfold renderedGroups.
    change (groups (edgesRendered projection (store state this))) with (groups this).
    rewrite Eg.
    rewrite reconcile_fresh. apply imap_datum.
  - rewrite Hb. unfold renderedLabels.
    change (labels (edgesRendered projection (store state this))) with (labels this).
    rewrite Eb.
    rewrite reconcile_fresh. apply imap_datum.
  - rewrite Hops. unfold edgesOps, nodesOps, creates, destroys.
    change (edges (store state this)) with (edgesOf state).
    change (nodes (edgesRendered projection (store state this))) with (nodesOf state).
    change (lines (store state this)) with (lines this).
    change (flows (store state this)) with (flows this).
    change (groups (edgesRendered projection (store state this))) with (groups this).
    change (labels (edgesRendered projection (store state this))) with (labels this).
    rewrite El, Ef, Eg, Eb.
    rewrite !entering_fresh, !exiting_fresh, !fmap_nil, ?app_nil_r. cbn [app].
    rewrite <- !app_assoc. rewrite ?app_nil_r. reflexivity.
Qed.

(** X10.  When no two elements of a layer share a key and the ids of
    the nodes, the keys of the edges and the order ids of the particles
    of the snapshot are pairwise distinct, an [update] that returns
    creates an element exactly for the data whose key no element of the
    layer carries, removes exactly the elements whose key no datum of
    the snapshot carries, and keeps every other element; and the keys
    of every layer are pairwise distinct again afterwards. *)
Theorem update_enters_and_exits (state : Snapshot.t) (this : t) :
  keysDistinct this ->
  NoDup (nodeKey <$> nodesOf state) ->
  NoDup (edgeKey <$> edgesOf state) ->
  NoDup (Particle.key <$> deliveryParticles (edgesOf state)) ->
  throws (update projection state) this = false ->
  ops_of (update projection state) this
  = ((fun d => Create Lines (edgeKey d))
       <$> List.filter (isNew edgeKey (lines this)) (edgesOf state))
    ++ ((fun l => Destroy Lines (edgeKey (datum l)))
          <$> List.filter (isGone edgeKey (edgesOf state)) (lines this))
    ++ ((fun p => Create Flows (Particle.key p))
          <$> List.filter (isNew Particle.key (flows this))
                          (deliveryParticles (edgesOf state)))
    ++ ((fun c => Destroy Flows (Particle.key (datum c)))
          <$> List.filter (isGone Particle.key (deliveryParticles (edgesOf state)))
                          (flows this))
    ++ ((fun d => Create Groups (Node.id d))
          <$> List.filter (isNew nodeKey (groups this)) (nodesOf state))
    ++ ((fun g => Destroy Groups (Node.id (datum g)))
          <$> List.filter (isGone nodeKey (nodesOf state)) (groups this))
    ++ ((fun d => Create Labels (Node.id d))
          <$> List.filter (isNew nodeKey (labels this)) (nodesOf state))
    ++ ((fun l => Destroy Labels (Node.id (datum l)))
          <$> List.filter (isGone nodeKey (nodesOf state)) (labels this)) /\
  keysDistinct (after (update projection state) this).
Proof.
  intros (Kl & Kf & Kg & Kb) Hn He Hp Hok.
  pose proof (update_ops projection state this) as Hops. cbn zeta in Hops.
  destruct (update_after projection state this) as (_ & _ & _ & Hl & Hf & _ & _ & Hc).
  cbn zeta in Hl, Hf, Hc.
  destruct (firstUnprojectable projection 0 (nodesOf state)) as [f |].
  { destruct Hc as [Ht _]. congruence. }
  destruct Hc as (_ & Hg & Hb & _).
  split.
  - rewrite Hops. unfold edgesOps, nodesOps, creates, destroys.
    change (edges (store state this)) with (edgesOf state).
    change (nodes (edgesRendered projection (store state this))) with (nodesOf state).
    change (lines (store state this)) with (lines this).
    change (flows (store state this)) with (flows this).
    change (groups (edgesRendered projection (store state this))) with (groups this).
    change (labels (edgesRendered projection (store state this))) with (labels this).
    rewrite !entering_new, !exiting_gone by assumption.
    rewrite <- !app_assoc. reflexivity.
  - unfold keysDistinct. rewrite Hl, Hf, Hg, Hb.
    cbn [flows edgesRendered set_flows].
    unfold renderedLines, renderedFlows, renderedGroups, renderedLabels.
    rewrite !reconcile_keys. repeat split; assumption.
Qed.

End Drawn.

(** X4 at the map drawn from the sample snapshot of two nodes, where
    the circle of order 1 is placed, and a snapshot in which the edge
    of order 1 ends at a distributor that is not among the nodes: the
    circle keeps the position it had. *)
Lemma dangling_particle_not_placed_witness :
  Forall2 (fun c c0 : Elem Particle.t FlowAttrs.t => attrs c = attrs c0 /\ is_Some (attrs c0))
          (flows (after (update Sample.projection Sample.dangling)
                        (after (update Sample.projection Sample.two_nodes) NetworkMap.empty)))
          (flows (after (update Sample.projection Sample.two_nodes) NetworkMap.empty)).
Proof.
  set (drawn := after (update Sample.projection Sample.two_nodes) NetworkMap.empty).
  set (this' := after (update Sample.projection Sample.dangling) drawn).
  assert (Hd0 : datum <$> flows drawn = [Sample.order_1]) by (vm_compute; reflexivity).
  assert (Hd1 : datum <$> flows this' = [Sample.order_1]) by (vm_compute; reflexivity).
  pose proof (flows_placed Sample.projection Sample.two_nodes NetworkMap.empty) as Hplaced.
  pose proof (dangling_particle_not_placed Sample.projection Sample.dangling drawn) as H.
  cbn zeta in H. fold drawn in Hplaced. fold this' in H.
  destruct (flows drawn) as [| c0 [| ? ?]]; try discriminate Hd0.
  destruct (flows this') as [| c [| ? ?]]; try discriminate Hd1.
  injection Hd0 as Hd0. injection Hd1 as Hd1.
  constructor; [| constructor]. split.
  - destruct (H c) as [_ Hold].
    + left.
    + right. rewrite Hd1. vm_compute. reflexivity.
    + apply (Hold ltac:(apply (bool_decide_unpack _); vm_compute; exact I) 0%nat c0).
      * cbn [firstIndex]. rewrite Hd0, Hd1. now destruct (decide _).
      * reflexivity.
  - destruct (Hplaced c0) as [a Ha]; [left |].
    rewrite Ha, Hd0. rewrite placeFlow_placed by (vm_compute; discriminate). eauto.
Defined.

(** X6 at the sample snapshot of two nodes. *)
Lemma nodes_follow_snapshot_witness :
  datum <$> groups (after (update Sample.projection Sample.two_nodes) NetworkMap.empty)
  ≡ₚ [Sample.chicago; Sample.new_york].
Proof.
  destruct (nodes_follow_snapshot Sample.projection Sample.two_nodes NetworkMap.empty)
    as (H & _).
  - vm_compute. reflexivity.
  - exact H.
Defined.

(** X7 at the watched map and the snapshot with a node in London: the
    labels of Chicago and New York stay as they were. *)
Lemma update_aborted_witness :
  throws (update Sample.projection Sample.with_london) Sample.watched = true /\
  labels (after (update Sample.projection Sample.with_london) Sample.watched)
  = labels Sample.watched.
Proof.
  destruct (update_aborted Sample.projection Sample.with_london Sample.watched Sample.london)
    as (H1 & _ & _ & _ & _ & _ & H2 & _).
  - vm_compute. right. left.
  - reflexivity.
  - exact (conj H1 H2).
Defined.

(** X8 at the watched map and the snapshot object without fields. *)
Lemma empty_snapshot_clears_witness :
  groups (after (update Sample.projection Sample.nothing) Sample.watched) = [] /\
  ops_of (update Sample.projection Sample.nothing) Sample.watched
  = [Destroy Lines "delivery-chicago_center-distributor_ny"; Destroy Flows "order_1";
     Destroy Groups "chicago_center"; Destroy Groups "distributor_ny";
     Destroy Labels "chicago_center"; Destroy Labels "distributor_ny"].
Proof.
  destruct (empty_snapshot_clears Sample.projection Sample.nothing Sample.watched)
    as (_ & _ & _ & Hg & _ & Hops).
  - now left.
  - now left.
  - split; [exact Hg |]. rewrite Hops. vm_compute. reflexivity.
Defined.

(** X9 at the empty map and the sample snapshot of two nodes. *)
Lemma first_update_in_order_witness :
  datum <$> groups (after (update Sample.projection Sample.two_nodes) NetworkMap.empty)
  = [Sample.chicago; Sample.new_york] /\
  ops_of (update Sample.projection Sample.two_nodes) NetworkMap.empty
  = [Create Lines "delivery-chicago_center-distributor_ny"; Create Flows "order_1";
     Create Groups "chicago_center"; Create Groups "distributor_ny";
     Create Labels "chicago_center"; Create Labels "distributor_ny"].
Proof.
  destruct (first_update_in_order Sample.projection Sample.two_nodes NetworkMap.empty)
    as (_ & _ & Hg & _ & Hops); try reflexivity.
  split; [exact Hg |]. rewrite Hops. vm_compute. reflexivity.
Defined.

(** X10 at the map drawn from the sample snapshot of two nodes, when
    the next snapshot holds Chicago alone: the line, the circle, the
    group and the label of New York are removed and nothing is
    created. *)
Lemma update_enters_and_exits_witness :
  ops_of (update Sample.projection Sample.chicago_alone)
         (after (update Sample.projection Sample.two_nodes) NetworkMap.empty)
  = [Destroy Lines "delivery-chicago_center-distributor_ny"; Destroy Flows "order_1";
     Destroy Groups "distributor_ny"; Destroy Labels "distributor_ny"].
Proof.
  destruct (update_enters_and_exits Sample.projection Sample.chicago_alone
              (after (update Sample.projection Sample.two_nodes) NetworkMap.empty))
    as [H _].
  - repeat split; apply (bool_decide_unpack _); vm_compute; exact I.
  - apply (bool_decide_unpack _); vm_compute; exact I.
  - apply (bool_decide_unpack _); vm_compute; exact I.
  - apply (bool_decide_unpack _); vm_compute; exact I.
  - vm_compute. reflexivity.
  - rewrite H. vm_compute. reflexivity.
Defined.

(** ** Selection, resizing and the page *)

Section Interaction.

Variable projection : Q * Q -> option (Q * Q).

Lemma hideDetailsPanel_run (this : t) :
  hideDetailsPanel this
  = (JS.Ok tt, match panel this with
               | None => this
               | Some p => set_panel (Some (hidden p)) this
               end, []).
Proof. unfold hideDetailsPanel, bind, get. simpl. now destruct (panel this). Qed.

(** [selectNode], by whether a node fails to project and whether
    filling the panel throws. *)
Lemma selectNode_run (node : option Node.t) (this : t) :
  selectNode projection node this
  = let s := set_selectedNode node this in
    match firstUnprojectable projection 0 (nodes this) with
    | Some f =>
        (JS.Throw, set_groups (cutGroups projection f s) s,
         creates nodeKey Groups (groups this) (nodes this))
    | None =>
        let r := nodesRendered projection s in
        match panel this, node with
        | None, _ => (JS.Ok tt, r, nodesOps s)
        | Some p, None => (JS.Ok tt, set_panel (Some (hidden p)) r, nodesOps s)
        | Some p, Some n =>
            if detailsThrows n
            then (JS.Throw, set_panel (Some (detailsHeader n p)) r, nodesOps s)
            else (JS.Ok tt, set_panel (Some (details r n)) r, nodesOps s)
        end
    end.
Proof.
  unfold selectNode. unfold bind at 1 2. unfold modify.
  rewrite renderNodes_run.
  change (nodes (set_selectedNode node this)) with (nodes this).
  cbn zeta.
  destruct (firstUnprojectable projection 0 (nodes this)) as [f |].
  - reflexivity.
  - destruct node as [n |].
    + rewrite updateDetailsPanel_run. cbn [app].
      fold (nodesRendered projection (set_selectedNode (Some n) this)).
      change (panel (nodesRendered projection (set_selectedNode (Some n) this)))
        with (panel this).
      destruct (panel this); [| now rewrite app_nil_r].
      destruct (detailsThrows n); now rewrite app_nil_r.
    + rewrite hideDetailsPanel_run. cbn [app].
      fold (nodesRendered projection (set_selectedNode None this)).
      change (panel (nodesRendered projection (set_selectedNode None this)))
        with (panel this).
      rewrite app_nil_r. now destruct (panel this).
Qed.

(** X11.  [selectNode] records the selection and leaves the nodes, the
    edges, the lines, the flow circles, the hovered node and the
    tooltip as they are.  When it returns, the groups carry the nodes
    of the map, the circles of the nodes with the id of the selected
    node, and no others, have the white stroke of width 3 (none, when
    the selection is cleared), and the panel, if the page has one,
    shows the details of the selected node, or is hidden with its
    content kept when the selection is cleared.  When a node does not
    project, it throws, the selection is recorded all the same and the
    panel and the labels are left as they were.  When it throws
    although every node projects, it is while the panel is filled: the
    groups are rendered, and the panel is shown under the name, type
    and location of the selected node with the state list it had. *)
Theorem selection_highlighted (node : option Node.t) (this : t) :
  let this' := after (selectNode projection node) this in
  selectedNode this' = node /\
  nodes this' = nodes this /\ edges this' = edges this /\
  lines this' = lines this /\ flows this' = flows this /\
  hoveredNode this' = hoveredNode this /\ tooltip this' = tooltip this /\
  (throws (selectNode projection node) this = false ->
   datum <$> groups this' ≡ₚ nodes this /\
   (forall g, g ∈ groups this' ->
      exists c, GroupAttrs.circle (attrs g) = Some c /\
        ((CircleAttrs.stroke c = "#fff" /\ CircleAttrs.stroke_width c = 3 /\
          exists n, node = Some n /\ Node.id (datum g) = Node.id n) \/
         (CircleAttrs.stroke c = "none" /\ CircleAttrs.stroke_width c = 0 /\
          forall n, node = Some n -> Node.id (datum g) <> Node.id n))) /\
   panel this'
   = (fun p => match node with
               | Some n => details this n
               | None => hidden p
               end) <$> panel this) /\
  ((exists n, n ∈ nodes this /\ projection (lonlat n) = None) ->
   throws (selectNode projection node) this = true /\
   panel this' = panel this /\ labels this' = labels this) /\
  (throws (selectNode projection node) this = true ->
   (forall n, n ∈ nodes this -> projection (lonlat n) <> None) ->
   datum <$> groups this' ≡ₚ nodes this /\
   exists n p, node = Some n /\ panel this = Some p /\
               panel this' = Some (detailsHeader n p)).
Proof.
  cbn zeta. unfold after, throws. rewrite selectNode_run. cbn zeta.
  destruct (firstUnprojectable projection 0 (nodes this)) as [f |] eqn:Ef; cbn [fst snd].
  - repeat (split; [reflexivity |]). split; [discriminate |].
    split; [intros _; repeat split |].
    intros _ Hall. exfalso.
    pose proof (proj2 (firstUnprojectable_None projection (nodes this) 0) Hall). congruence.
  - set (r := nodesRendered projection (set_selectedNode node this)).
    assert (Pg : datum <$> groups r ≡ₚ nodes this) by apply (reconcile_data nodeKey).
    assert (Hno : ~ exists n, n ∈ nodes this /\ projection (lonlat n) = None).
    { intros (n & Hn & Hp). eapply firstUnprojectable_None in Ef; eauto. }
    assert (Hstroke : forall g, g ∈ groups r ->
      exists c, GroupAttrs.circle (attrs g) = Some c /\
        ((CircleAttrs.stroke c = "#fff" /\ CircleAttrs.stroke_width c = 3 /\
          exists n, node = Some n /\ Node.id (datum g) = Node.id n) \/
         (CircleAttrs.stroke c = "none" /\ CircleAttrs.stroke_width c = 0 /\
          forall n, node = Some n -> Node.id (datum g) <> Node.id n))).
    { intros g Hin. apply reconcile_styled in Hin as (i & a & ->).
      eexists. split; [reflexivity |]. cbn.
      unfold isSelected. cbn [selectedNode set_selectedNode].
      destruct node as [n |].
      - destruct (String.eqb_spec (Node.id (datum g)) (Node.id n)) as [E | E].
        + left. eauto.
        + right. repeat split. intros n' [= <-]. exact E.
      - right. repeat split. discriminate. }
    destruct (panel this) as [p |] eqn:Ep; [destruct node as [n |] |].
    + destruct (detailsThrows n); cbn [fst snd].
      * repeat (split; [reflexivity |]). split; [discriminate |].
        split; [intros H; now destruct Hno |]. intros _ _.
        split; [exact Pg |]. exists n, p. auto.
      * repeat (split; [reflexivity |]).
        split; [intros _; split; [exact Pg | split; [exact Hstroke | reflexivity]] |].
        split; [intros H; now destruct Hno | discriminate].
    + cbn [fst snd]. repeat (split; [reflexivity |]).
      split; [intros _; split; [exact Pg | split; [exact Hstroke | reflexivity]] |].
      split; [intros H; now destruct Hno | discriminate].
    + cbn [fst snd]. repeat (split; [reflexivity |]).
      split; [intros _; split; [exact Pg | split; [exact Hstroke | exact Ep]] |].
      split; [intros H; now destruct Hno | discriminate].
Qed.

End Interaction.

(** [resize], by whether a node fails to project. *)
Lemma resize_run (base : Q * Q -> option (Q * Q)) (width height : Q) (this : t) :
  resize base width height this
  = let p := centred base width height in
    let e := edgesRendered p this in
    match firstUnprojectable p 0 (nodes this) with
    | Some f =>
        (JS.Throw, set_groups (cutGroups p f e) e,
         edgesOps this ++ creates nodeKey Groups (groups this) (nodes this))
    | None => (JS.Ok tt, nodesRendered p e, edgesOps this ++ nodesOps e)
    end.
Proof.
  unfold resize. unfold bind. rewrite renderEdges_run.
  fold (edgesRendered (centred base width height) this). fold (edgesOps this).
  rewrite renderNodes_run. cbn zeta.
  change (nodes (edgesRendered (centred base width height) this)) with (nodes this).
  destruct (firstUnprojectable (centred base width height) 0 (nodes this)); reflexivity.
Qed.

(** Whether a location projects does not depend on the size of the
    map. *)
Lemma firstUnprojectable_centred base width height (data : list Node.t) : forall i,
  firstUnprojectable (centred base width height) i data = firstUnprojectable base i data.
Proof.
  induction data as [| d ds IH]; intros i; [reflexivity |].
  simpl. unfold centred at 1. destruct (base (lonlat d)); simpl; [apply IH | reflexivity].
Qed.

Section Redraw.

Variable projection : Q * Q -> option (Q * Q).

Lemma edgesOps_again (state : Snapshot.t) (this : t) :
  NoDup (edgeKey <$> edgesOf state) ->
  NoDup (Particle.key <$> deliveryParticles (edgesOf state)) ->
  edgesOps (after (update projection state) this) = [].
Proof.
  intros He Hp.
  destruct (update_after projection state this) as (_ & Ee & _ & Hl & Hf & _).
  cbn zeta in Hl, Hf. unfold edgesOps. rewrite Ee, Hl, Hf.
  destruct (reconcile_again edgeKey (lineStyle projection (store state this))
              (fun _ d _ => lineStyle projection (store state this) d)
              (lines this) (edgesOf state) He) as [E1 E2].
  destruct (reconcile_again Particle.key (fun _ => None)
              (fun _ d a => placeFlow projection
                              (set_lines (renderedLines projection (store state this))
                                         (store state this)) d a)
              (flows this) (deliveryParticles (edgesOf state)) Hp) as [E3 E4].
  rewrite (creates_nil _ _ _ _ E1), (destroys_nil _ _ _ _ E2).
  rewrite (creates_nil _ _ _ _ E3), (destroys_nil _ _ _ _ E4). reflexivity.
Qed.

Lemma nodesOps_again (state : Snapshot.t) (this x : t) :
  NoDup (nodeKey <$> nodesOf state) ->
  throws (update projection state) this = false ->
  nodes x = nodesOf state ->
  groups x = groups (after (update projection state) this) ->
  labels x = labels (after (update projection state) this) ->
  nodesOps x = [] /\ creates nodeKey Groups (groups x) (nodes x) = [].
Proof.
  intros Hn Hok En Eg Eb.
  destruct (update_after projection state this) as (_ & _ & _ & _ & _ & _ & _ & Hc).
  cbn zeta in Hc.
  destruct (firstUnprojectable projection 0 (nodesOf state)) as [f |].
  { destruct Hc as [Ht _]. congruence. }
  destruct Hc as (_ & Hg & Hb & _). unfold nodesOps. rewrite En, Eg, Eb, Hg, Hb.
  destruct (reconcile_again nodeKey (groupInit)
              (fun _ d a => groupStyle projection
                              (edgesRendered projection (store state this)) d a)
              (groups this) (nodesOf state) Hn) as [E1 E2].
  destruct (reconcile_again nodeKey (labelInit)
              (fun _ d _ => labelStyle projection d)
              (labels this) (nodesOf state) Hn) as [E3 E4].
  rewrite (creates_nil _ _ _ _ E1), (destroys_nil _ _ _ _ E2).
  rewrite (creates_nil _ _ _ _ E3), (destroys_nil _ _ _ _ E4). split; reflexivity.
Qed.

Lemma selectNode_ops (node : option Node.t) (x : t) :
  ops_of (selectNode projection node) x
  = match firstUnprojectable projection 0 (nodes x) with
    | Some _ => creates nodeKey Groups (groups x) (nodes x)
    | None => nodesOps (set_selectedNode node x)
    end.
Proof.
  unfold ops_of. rewrite selectNode_run. cbn zeta.
  destruct (firstUnprojectable projection 0 (nodes x)); [reflexivity |].
  destruct (panel x); [| reflexivity].
  destruct node as [n |]; [| reflexivity]. now destruct (detailsThrows n).
Qed.

(** X12.  After an [update] that returned, of a snapshot whose node
    ids, edge keys and order ids are pairwise distinct, selecting a
    node (or clearing the selection) and resizing the map, to any size,
    create no element and remove none: they only restyle and re-place
    what is drawn. *)
Theorem redraw_keeps_elements (state : Snapshot.t) (this : t) (node : option Node.t)
    (base : Q * Q -> option (Q * Q)) (width height : Q) :
  NoDup (nodeKey <$> nodesOf state) ->
  NoDup (edgeKey <$> edgesOf state) ->
  NoDup (Particle.key <$> deliveryParticles (edgesOf state)) ->
  throws (update projection state) this = false ->
  let this' := after (update projection state) this in
  ops_of (selectNode projection node) this' = [] /\
  ops_of (resize base width height) this' = [].
Proof.
  intros Hn He Hp Hok. cbn zeta.
  destruct (update_after projection state this) as (En & _).
  set (this' := after (update projection state) this) in *.
  split.
  - rewrite selectNode_ops.
    destruct (nodesOps_again state this (set_selectedNode node this') Hn Hok En
                eq_refl eq_refl) as [E1 E2].
    destruct (firstUnprojectable projection 0 (nodes this')); assumption.
  - unfold ops_of. rewrite resize_run. cbn zeta.
    fold this' in En. pose proof (edgesOps_again state this He Hp) as E0.
    fold this' in E0. rewrite E0.
    destruct (nodesOps_again state this
                (edgesRendered (centred base width height) this') Hn Hok En
                eq_refl eq_refl) as [E1 E2].
    destruct (firstUnprojectable (centred base width height) 0 (nodes this'));
      cbn [snd app]; assumption.
Qed.

Lemma tooltipRefreshed_exists (x : t) :
  is_Some (tooltip (tooltipRefreshed x)) <-> is_Some (tooltip x).
Proof.
  unfold tooltipRefreshed. destruct (hoveredNode x); [| reflexivity].
  destruct (JS.find _ _); [| reflexivity].
  destruct (tooltip x) eqn:E; [| now rewrite E]. cbn. split; eauto.
Qed.

Lemma detailsRefreshed_exists (x : t) :
  is_Some (panel (detailsRefreshed x)) <-> is_Some (panel x).
Proof.
  unfold detailsRefreshed. destruct (selectedNode x); [| reflexivity].
  destruct (JS.find _ _); [| reflexivity].
  destruct (panel x) eqn:E; [| now rewrite E]. cbn. split; eauto.
Qed.

Lemma detailsAborted_exists (x : t) :
  is_Some (panel (detailsAborted x)) <-> is_Some (panel x).
Proof.
  unfold detailsAborted. destruct (selectedNode x); [| reflexivity].
  destruct (JS.find _ _); [| reflexivity].
  destruct (panel x) eqn:E; [| now rewrite E]. cbn. split; eauto.
Qed.

Lemma showTooltip_run (n : Node.t) (this : t) :
  showTooltip n this
  = let s := set_tooltip (Some []) (set_hoveredNode (Some n) this) in
    if tooltipThrows n then (JS.Throw, s, [])
    else (JS.Ok tt, set_tooltip (Some (tooltipContent this n)) s, []).
Proof.
  unfold showTooltip, bind, modify. rewrite updateTooltip_run. cbn.
  now destruct (tooltipThrows n).
Qed.

(** X14.  The tooltip is on the page from [showTooltip], which creates
    it, with the content of the hovered node when it returns and empty
    when it throws while it builds the content, to [hideTooltip], which
    removes it and forgets the hovered node; [update] refreshes a
    tooltip that is there and never creates or removes one, and
    [selectNode] and [resize] do not touch it.  No method creates or
    removes the details panel: a page without one stays without. *)
Theorem tooltip_only_while_hovering (state : Snapshot.t) (node : option Node.t)
    (n : Node.t) (base : Q * Q -> option (Q * Q)) (width height : Q) (this : t) :
  (hoveredNode (after (showTooltip n) this) = Some n /\
   (throws (showTooltip n) this = false ->
    tooltip (after (showTooltip n) this) = Some (tooltipContent this n)) /\
   (throws (showTooltip n) this = true ->
    tooltip (after (showTooltip n) this) = Some [])) /\
  (hoveredNode (after hideTooltip this) = None /\
   tooltip (after hideTooltip this) = None) /\
  (is_Some (tooltip (after (update projection state) this)) <-> is_Some (tooltip this)) /\
  (tooltip (after (selectNode projection node) this) = tooltip this) /\
  (tooltip (after (resize base width height) this) = tooltip this) /\
  (is_Some (panel (after (update projection state) this)) <-> is_Some (panel this)) /\
  (is_Some (panel (after (selectNode projection node) this)) <-> is_Some (panel this)) /\
  (panel (after (resize base width height) this) = panel this) /\
  (panel (after (showTooltip n) this) = panel this) /\
  (panel (after hideTooltip this) = panel this).
Proof.
  assert (Hshow : (hoveredNode (after (showTooltip n) this) = Some n /\
                   (throws (showTooltip n) this = false ->
                    tooltip (after (showTooltip n) this) = Some (tooltipContent this n)) /\
                   (throws (showTooltip n) this = true ->
                    tooltip (after (showTooltip n) this) = Some [])) /\
                  panel (after (showTooltip n) this) = panel this).
  { unfold after, throws. rewrite showTooltip_run. cbn zeta.
    destruct (tooltipThrows n); cbn [fst snd]; repeat split; discriminate. }
  destruct Hshow as [Hshow Hshowp].
  split; [exact Hshow |]. split; [split; reflexivity |].
  assert (Hu : (is_Some (tooltip (after (update projection state) this))
                <-> is_Some (tooltip this)) /\
               (is_Some (panel (after (update projection state) this))
                <-> is_Some (panel this))).
  { destruct (update_after projection state this) as (_ & _ & _ & _ & _ & _ & _ & Hc).
    cbn zeta in Hc.
    destruct (firstUnprojectable projection 0 (nodesOf state)).
    - destruct Hc as (_ & _ & _ & -> & ->). split; reflexivity.
    - destruct Hc as (_ & _ & _ & ->).
      set (r := nodesRendered projection (edgesRendered projection (store state this))).
      destruct (detailsRefreshed_frame (tooltipRefreshed r))
        as (_ & _ & _ & _ & _ & _ & _ & _ & _ & Dt).
      destruct (detailsAborted_frame (tooltipRefreshed r))
        as (_ & _ & _ & _ & _ & _ & _ & _ & _ & At).
      destruct (tooltipRefreshed_frame r) as (_ & _ & _ & _ & _ & _ & _ & _ & _ & Hp).
      destruct (tooltipFails r); [split; reflexivity |].
      destruct (detailsFails r).
      + rewrite At. split.
        * apply (tooltipRefreshed_exists r).
        * rewrite detailsAborted_exists, Hp. reflexivity.
      + rewrite Dt. split.
        * apply (tooltipRefreshed_exists r).
        * rewrite detailsRefreshed_exists, Hp. reflexivity. }
  destruct Hu as [Hut Hup].
  assert (Hs : tooltip (after (selectNode projection node) this) = tooltip this /\
               (is_Some (panel (after (selectNode projection node) this))
                <-> is_Some (panel this))).
  { unfold after. rewrite selectNode_run. cbn zeta.
    destruct (firstUnprojectable projection 0 (nodes this)); cbn [fst snd].
    - split; reflexivity.
    - destruct (panel this) as [p |] eqn:Ep.
      + destruct node as [m |]; [destruct (detailsThrows m) |]; cbn;
          (split; [reflexivity |]; split; eauto).
      + cbn. split; [reflexivity |]. now rewrite Ep. }
  destruct Hs as [Hst Hsp].
  assert (Hr : tooltip (after (resize base width height) this) = tooltip this /\
               panel (after (resize base width height) this) = panel this).
  { unfold after. rewrite resize_run. cbn zeta.
    destruct (firstUnprojectable _ 0 (nodes this)); split; reflexivity. }
  destruct Hr as [Hrt Hrp].
  split; [exact Hut |]. split; [exact Hst |]. split; [exact Hrt |].
  split; [exact Hup |]. split; [exact Hsp |]. split; [exact Hrp |].
  split; [exact Hshowp | reflexivity].
Qed.

End Redraw.

(** X13.  [resize] changes neither the data nor the hover, the
    selection, the tooltip and the panel.  It throws exactly when a
    node of the map does not project, whatever the size.  The lines
    carry the edges of the map, with endpoints computed by the
    projection centred on the new size (and at the origin for an
    endpoint that falls back); when it returns, every group and every
    label is at the point the projection gives its node, moved by half
    the new width and half the new height. *)
Theorem resize_recentres (base : Q * Q -> option (Q * Q)) (width height : Q) (this : t) :
  let this' := after (resize base width height) this in
  nodes this' = nodes this /\ edges this' = edges this /\
  currentTime this' = currentTime this /\
  hoveredNode this' = hoveredNode this /\ selectedNode this' = selectedNode this /\
  tooltip this' = tooltip this /\ panel this' = panel this /\
  (throws (resize base width height) this = true
   <-> exists n, n ∈ nodes this /\ base (lonlat n) = None) /\
  datum <$> lines this' ≡ₚ edges this /\
  (forall l, l ∈ lines this' ->
     attrs l = lineStyle (centred base width height) this (datum l)) /\
  (throws (resize base width height) this = false ->
   datum <$> groups this' ≡ₚ nodes this /\
   datum <$> labels this' ≡ₚ nodes this /\
   (forall g, g ∈ groups this' ->
      exists q, base (lonlat (datum g)) = Some q /\
                GroupAttrs.transform (attrs g)
                = Some (fst q + width / 2, snd q + height / 2)) /\
   (forall l, l ∈ labels this' ->
      exists q, base (lonlat (datum l)) = Some q /\
                LabelAttrs.x (attrs l) = Some (fst q + width / 2) /\
                LabelAttrs.y (attrs l) = Some (snd q + height / 2))).
Proof.
  cbn zeta. unfold after, throws. rewrite resize_run. cbn zeta.
  rewrite firstUnprojectable_centred.
  assert (Hl : forall l, l ∈ renderedLines (centred base width height) this ->
                         attrs l = lineStyle (centred base width height) this (datum l)).
  { intros l Hin. apply reconcile_styled in Hin as (i & a & ->). reflexivity. }
  assert (Hp : datum <$> renderedLines (centred base width height) this ≡ₚ edges this).
  { apply (reconcile_data edgeKey). }
  destruct (firstUnprojectable base 0 (nodes this)) as [f |] eqn:Ef; cbn [fst snd].
  - repeat (split; [reflexivity |]). split; [| split; [exact Hp | split; [exact Hl |]]].
    + split; [intros _ | reflexivity].
      destruct (decide (Exists (fun n => base (lonlat n) = None) (nodes this)))
        as [Hex | Hno].
      * apply Exists_exists in Hex. exact Hex.
      * assert (firstUnprojectable base 0 (nodes this) = None); [| congruence].
        apply firstUnprojectable_None. intros n Hn Hb. apply Hno.
        apply Exists_exists. eauto.
    + discriminate.
  - repeat (split; [reflexivity |]). split; [| split; [exact Hp | split; [exact Hl |]]].
    + split; [discriminate |]. intros (n & Hn & Hb). exfalso.
      eapply firstUnprojectable_None in Ef; eauto.
    + intros _.
      assert (Pg : datum <$> renderedGroups (centred base width height)
                               (edgesRendered (centred base width height) this)
                   ≡ₚ nodes this).
      { apply (reconcile_data nodeKey). }
      assert (Pl : datum <$> renderedLabels (centred base width height)
                               (set_groups
                                  (renderedGroups (centred base width height)
                                     (edgesRendered (centred base width height) this))
                                  (edgesRendered (centred base width height) this))
                   ≡ₚ nodes this).
      { apply (reconcile_data nodeKey). }
      split; [exact Pg |]. split; [exact Pl |]. split.
      * intros g Hin.
        assert (Hd : datum g ∈ nodes this).
        { rewrite <- Pg. apply list_elem_of_fmap. eauto. }
        destruct (projects_all _ _ _ _ Ef Hd) as [q Hq]. exists q. split; [exact Hq |].
        apply reconcile_styled in Hin as (i & a & ->). cbn. unfold centred. now rewrite Hq.
      * intros l Hin.
        assert (Hd : datum l ∈ nodes this).
        { rewrite <- Pl. apply list_elem_of_fmap. eauto. }
        destruct (projects_all _ _ _ _ Ef Hd) as [q Hq]. exists q. split; [exact Hq |].
        apply reconcile_styled in Hin as (i & a & ->). cbn. unfold centred. now rewrite Hq.
Qed.

(** X11 at the map drawn from the sample snapshot of two nodes, when
    Chicago is selected with pending orders that are [null]:
    [selectNode] throws while it fills the panel, the groups are
    rendered, and the panel is shown with the empty state list it
    had. *)
Lemma selection_highlighted_witness :
  throws (selectNode Sample.projection (Some Sample.mistyped))
         (after (update Sample.projection Sample.two_nodes) NetworkMap.empty) = true /\
  datum <$> groups (after (selectNode Sample.projection (Some Sample.mistyped))
                          (after (update Sample.projection Sample.two_nodes) NetworkMap.empty))
  ≡ₚ [Sample.chicago; Sample.new_york] /\
  (Panel.display <$> panel (after (selectNode Sample.projection (Some Sample.mistyped))
                                  (after (update Sample.projection Sample.two_nodes)
                                         NetworkMap.empty)) = Some "block" /\
   Panel.stateHTML <$> panel (after (selectNode Sample.projection (Some Sample.mistyped))
                                    (after (update Sample.projection Sample.two_nodes)
                                           NetworkMap.empty)) = Some []).
Proof.
  assert (Ht : throws (selectNode Sample.projection (Some Sample.mistyped))
                      (after (update Sample.projection Sample.two_nodes) NetworkMap.empty)
               = true) by (vm_compute; reflexivity).
  split; [exact Ht |].
  destruct (selection_highlighted Sample.projection (Some Sample.mistyped)
              (after (update Sample.projection Sample.two_nodes) NetworkMap.empty))
    as (_ & _ & _ & _ & _ & _ & _ & _ & _ & H).
  destruct (H Ht) as (Hg & n & p & Hn & Hp & Hp').
  - intros m Hm. apply list_elem_of_In in Hm. vm_compute in Hm.
    destruct Hm as [<- | [<- | []]]; discriminate.
  - split; [exact Hg |]. rewrite Hp'. injection Hn as <-.
    vm_compute in Hp. injection Hp as <-. split; reflexivity.
Defined.

(** X14 at the empty map: the tooltip of New York has its content, and
    the tooltip of Chicago with an inventory that is a string is there
    and empty. *)
Lemma tooltip_only_while_hovering_witness :
  tooltip (after (showTooltip Sample.new_york) NetworkMap.empty)
  = Some (tooltipContent NetworkMap.empty Sample.new_york) /\
  tooltip (after (showTooltip Sample.mistyped) NetworkMap.empty) = Some [] /\
  hoveredNode (after (showTooltip Sample.mistyped) NetworkMap.empty) = Some Sample.mistyped.
Proof.
  destruct (tooltip_only_while_hovering Sample.projection Sample.two_nodes None
              Sample.new_york Sample.projection 800 600 NetworkMap.empty)
    as ((_ & Hok & _) & _).
  destruct (tooltip_only_while_hovering Sample.projection Sample.two_nodes None
              Sample.mistyped Sample.projection 800 600 NetworkMap.empty)
    as ((Hh & _ & Hthrow) & _).
  split; [apply Hok; reflexivity |]. split; [apply Hthrow; reflexivity | exact Hh].
Defined.

(** X12 at the map drawn from the sample snapshot of two nodes. *)
Lemma redraw_keeps_elements_witness :
  ops_of (selectNode Sample.projection (Some Sample.new_york))
         (after (update Sample.projection Sample.two_nodes) NetworkMap.empty) = [] /\
  ops_of (resize Sample.projection 800 600)
         (after (update Sample.projection Sample.two_nodes) NetworkMap.empty) = [].
Proof.
  apply redraw_keeps_elements;
    first [apply (bool_decide_unpack _); vm_compute; exact I | vm_compute; reflexivity].
Defined.

(** ** The ids of the circles *)

Lemma circlesNamed_reconcile style remove gs ds :
  (forall i d a, GroupAttrs.circle_id (style i d a) = GroupAttrs.circle_id a) ->
  circlesNamed gs ->
  circlesNamed (reconcile nodeKey groupInit style remove gs ds).
Proof.
  intros Hstyle Hgs g Hin.
  apply (reconcile_origin nodeKey) in Hin
    as [(i & _ & E) | [(i & g0 & _ & Hg0 & Hk & E) | (_ & Hg)]].
  - rewrite E, Hstyle. reflexivity.
  - rewrite E, Hstyle, (Hgs g0 Hg0). unfold nodeKey in Hk. now rewrite Hk.
  - now apply Hgs.
Qed.

Lemma circlesNamed_rendered projection (x : t) :
  circlesNamed (groups x) -> circlesNamed (renderedGroups projection x).
Proof. apply circlesNamed_reconcile. reflexivity. Qed.

Lemma circlesNamed_cut projection f (x : t) :
  circlesNamed (groups x) -> circlesNamed (cutGroups projection f x).
Proof.
  apply circlesNamed_reconcile. intros i d a. now destruct (i <? f)%nat.
Qed.

Section Circles.

Variable projection : Q * Q -> option (Q * Q).

Lemma selectNode_groups (node : option Node.t) (x : t) :
  groups (after (selectNode projection node) x)
  = match firstUnprojectable projection 0 (nodes x) with
    | Some f => cutGroups projection f (set_selectedNode node x)
    | None => renderedGroups projection (set_selectedNode node x)
    end.
Proof.
  unfold after. rewrite selectNode_run. cbn zeta.
  destruct (firstUnprojectable projection 0 (nodes x)); [reflexivity |].
  destruct (panel x); [| reflexivity].
  destruct node as [n |]; [| reflexivity]. now destruct (detailsThrows n).
Qed.

Lemma groups_after_update (state : Snapshot.t) (this : t) :
  circlesNamed (groups this) ->
  circlesNamed (groups (after (update projection state) this)).
Proof.
  intros H. destruct (update_after projection state this) as (_ & _ & _ & _ & _ & _ & _ & Hc).
  cbn zeta in Hc. destruct (firstUnprojectable projection 0 (nodesOf state)).
  - destruct Hc as (_ & -> & _). now apply circlesNamed_cut.
  - destruct Hc as (_ & -> & _). now apply circlesNamed_rendered.
Qed.

(** X15.  The id of a circle is set once, when its group is created,
    and the join binds a group to nodes of one id only: if every circle
    carries the sanitized id of the node of its group, the same holds
    after [update], [selectNode] and [resize], whether they return or
    throw. *)
Theorem circle_ids_follow_nodes (state : Snapshot.t) (node : option Node.t)
    (base : Q * Q -> option (Q * Q)) (width height : Q) (this : t) :
  circlesNamed (groups this) ->
  circlesNamed (groups (after (update projection state) this)) /\
  circlesNamed (groups (after (selectNode projection node) this)) /\
  circlesNamed (groups (after (resize base width height) this)).
Proof.
  intros H. split; [now apply groups_after_update |]. split.
  - rewrite selectNode_groups.
    destruct (firstUnprojectable projection 0 (nodes this)).
    + now apply circlesNamed_cut.
    + now apply circlesNamed_rendered.
  - unfold after. rewrite resize_run. cbn zeta.
    destruct (firstUnprojectable _ 0 (nodes this)); cbn [fst snd].
    + now apply (circlesNamed_cut (centred base width height)).
    + now apply (circlesNamed_rendered (centred base width height)).
Qed.

(** X16.  After an [update] that returned, on a map whose circles carry
    the sanitized ids of their nodes, [getNodeElement] throws exactly
    when the sanitized id is empty or starts with a digit; otherwise it
    returns [null] exactly when no node of the snapshot has that
    sanitized id, and else the group of a node of the snapshot with
    that sanitized id, which is the node of the given id when no two
    nodes of the snapshot share a sanitized id. *)
Theorem getNodeElement_finds (state : Snapshot.t) (this : t) (nodeId : string) :
  circlesNamed (groups this) ->
  throws (update projection state) this = false ->
  let this' := after (update projection state) this in
  match returned (getNodeElement nodeId) this' with
  | JS.Throw => idSelector (Str.sanitize nodeId) = false
  | JS.Ok None =>
      idSelector (Str.sanitize nodeId) = true /\
      forall n, n ∈ nodesOf state -> Str.sanitize (Node.id n) <> Str.sanitize nodeId
  | JS.Ok (Some g) =>
      idSelector (Str.sanitize nodeId) = true /\
      g ∈ groups this' /\ datum g ∈ nodesOf state /\
      Str.sanitize (Node.id (datum g)) = Str.sanitize nodeId /\
      ((forall n m, n ∈ nodesOf state -> m ∈ nodesOf state ->
                    Str.sanitize (Node.id n) = Str.sanitize (Node.id m) ->
                    Node.id n = Node.id m) ->
       forall n, n ∈ nodesOf state -> Node.id n = nodeId ->
                 Node.id (datum g) = nodeId)
  end.
Proof.
  intros Hnamed Hok. cbn zeta.
  pose proof (groups_after_update state this Hnamed) as Hn'.
  assert (Pg : datum <$> groups (after (update projection state) this) ≡ₚ nodesOf state).
  { destruct (update_after projection state this) as (_ & _ & _ & _ & _ & _ & _ & Hc).
    cbn zeta in Hc. destruct (firstUnprojectable projection 0 (nodesOf state)).
    - destruct Hc as [Ht _]. congruence.
    - destruct Hc as (_ & -> & _). apply (reconcile_data nodeKey). }
  set (this' := after (update projection state) this) in *.
  unfold returned, getNodeElement, bind, get. cbn [fst snd].
  destruct (idSelector (Str.sanitize nodeId)) eqn:Ev; cbn; [| reflexivity].
  destruct (JS.find _ (groups this')) as [g |] eqn:Ef.
  - apply find_Some in Ef as [Hin Hid]. apply String.eqb_eq in Hid.
    rewrite (Hn' g Hin) in Hid.
    assert (Hd : datum g ∈ nodesOf state).
    { rewrite <- Pg. apply list_elem_of_fmap. eauto. }
    split; [reflexivity |]. split; [exact Hin |]. split; [exact Hd |].
    split; [exact Hid |].
    intros Hinj n Hnin <-. apply Hinj; assumption.
  - split; [reflexivity |]. intros n Hnin Hs.
    rewrite <- Pg in Hnin. apply list_elem_of_fmap in Hnin as (g & -> & Hg).
    rewrite find_None in Ef. specialize (Ef g Hg). rewrite (Hn' g Hg) in Ef.
    apply String.eqb_neq in Ef. contradiction.
Qed.

End Circles.

(** X15 at the watched map, whose two circles carry the ids of Chicago
    and New York, and the later snapshot, which binds their groups to
    the nodes of that snapshot. *)
Lemma circle_ids_follow_nodes_witness :
  Forall (fun g => GroupAttrs.circle_id (attrs g) = Str.sanitize (Node.id (datum g)))
         (groups (after (update Sample.projection Sample.two_nodes_later) Sample.watched)) /\
  datum <$> groups (after (update Sample.projection Sample.two_nodes_later) Sample.watched)
  = [Sample.chicago; Sample.new_york_busy] /\
  datum <$> groups Sample.watched = [Sample.chicago; Sample.new_york].
Proof.
  split; [| split; vm_compute; reflexivity].
  apply Forall_forall.
  destruct (circle_ids_follow_nodes Sample.projection Sample.two_nodes_later None
              Sample.projection 800 600 Sample.watched) as [H _].
  - assert (F : Forall (fun g : Elem Node.t GroupAttrs.t =>
                          GroupAttrs.circle_id (attrs g) = Str.sanitize (Node.id (datum g)))
                       (groups Sample.watched)) by (vm_compute; repeat constructor).
    rewrite Forall_forall in F. exact F.
  - exact H.
Defined.

(** X16 at the map drawn from the sample snapshot of two nodes: the
    element of [distributor_ny] is the group of New York. *)
Lemma getNodeElement_finds_witness :
  exists g,
    returned (getNodeElement "distributor_ny")
             (after (update Sample.projection Sample.two_nodes) NetworkMap.empty)
    = JS.Ok (Some g) /\
    Str.sanitize (Node.id (datum g)) = "distributor_ny".
Proof.
  pose proof (getNodeElement_finds Sample.projection Sample.two_nodes NetworkMap.empty
                "distributor_ny") as H.
  cbn zeta in H.
  destruct (returned (getNodeElement "distributor_ny")
              (after (update Sample.projection Sample.two_nodes) NetworkMap.empty))
    as [[g |] |] eqn:E.
  - exists g. split; [reflexivity |]. apply H.
    + intros g0 Hg0. inversion Hg0.
    + vm_compute. reflexivity.
  - exfalso. destruct H as [_ H].
    + intros g0 Hg0. inversion Hg0.
    + vm_compute. reflexivity.
    + apply (H Sample.new_york); [vm_compute; right; left | reflexivity].
  - exfalso. assert (Hf : idSelector (Str.sanitize "distributor_ny") = false).
    { apply H; [intros g0 Hg0; inversion Hg0 | vm_compute; reflexivity]. }
    discriminate.
Defined.

(** ** What the tooltip and the panel say *)

Lemma when_elem {A B : Type} (o : option A) (f : A -> B) (x : B) :
  x ∈ when o f -> exists a, o = Some a /\ x = f a.
Proof.
  destruct o as [a |]; simpl; intros H.
  - apply list_elem_of_singleton in H. eauto.
  - inversion H.
Qed.

Lemma stateItem_no_finance entry g : Item.Finance g ∉ stateItem entry.
Proof.
  destruct entry as [k v]. unfold stateItem.
  destruct (shownAbove k); [apply not_elem_of_nil |].
  destruct (_ || _).
  - intros H. apply list_elem_of_singleton in H. discriminate.
  - destruct v; try apply not_elem_of_nil;
      intros H; apply list_elem_of_singleton in H; discriminate.
Qed.

Lemma state_no_finance st g : Item.Finance g ∉ List.flat_map stateItem st.
Proof.
  intros H. apply list_elem_of_In, in_flat_map in H as (e & _ & H).
  apply list_elem_of_In in H. exact (stateItem_no_finance e g H).
Qed.

(** X17.  The financial block: the profit is the revenue less the
    costs; the margin is 0 when the revenue is missing, zero or
    negative, and otherwise the profit as a percentage of the revenue,
    so at most 100 when the costs are not negative and not negative
    when the costs do not exceed the revenue.  The tooltip and the
    panel of a manufacturing centre show the same figures, and those of
    a node of another type show no financial block. *)
Theorem financial_figures (this : t) (node : Node.t) :
  let f := financial node in
  Financial.profit f + Financial.totalCosts f == Financial.revenue f /\
  (Financial.revenue f <= 0 -> Financial.profitMargin f == 0) /\
  (0 < Financial.revenue f ->
   Financial.profitMargin f * Financial.revenue f == 100 * Financial.profit f /\
   (0 <= Financial.totalCosts f -> Financial.profitMargin f <= 100) /\
   (Financial.totalCosts f <= Financial.revenue f -> 0 <= Financial.profitMargin f)) /\
  (Node.type node = "manufacturing_center" ->
   Tip.Finance f ∈ tooltipContent this node /\
   Item.Finance f ∈ stateHTML this node) /\
  (Node.type node <> "manufacturing_center" ->
   (forall g, Tip.Finance g ∉ tooltipContent this node) /\
   (forall g, Item.Finance g ∉ stateHTML this node)).
Proof.
  cbn zeta. unfold financial. cbn [Financial.profit Financial.totalCosts Financial.revenue
                                   Financial.profitMargin].
  set (revenue := JS.or_num (num_field "total_revenue" (Node.state node)) 0).
  set (costs := JS.or_num (num_field "total_production_costs" (Node.state node)) 0
                + JS.or_num (num_field "total_rate_change_costs" (Node.state node)) 0).
  split; [ring |]. split; [| split; [| split]].
  - intros H. apply gt_false in H. now rewrite H.
  - intros H. pose proof H as Hgt. apply gt_spec in Hgt. rewrite Hgt.
    assert (E : (revenue - costs) / revenue * 100 * revenue == 100 * (revenue - costs)).
    { field. Lqa.lra. }
    split; [exact E | split].
    + intros Hc.
      assert (Hm : (revenue - costs) / revenue <= 1).
      { apply Qle_shift_div_r; Lqa.lra. }
      Lqa.lra.
    + intros Hc.
      assert (Hm : 0 <= (revenue - costs) / revenue).
      { apply Qle_shift_div_l; Lqa.lra. }
      Lqa.lra.
  - intros Ht. unfold tooltipContent, stateHTML. rewrite Ht.
    change (String.eqb "manufacturing_center" "manufacturing_center") with true.
    cbn iota. split.
    + apply elem_of_app. right. apply elem_of_app. left.
      rewrite !elem_of_app. right. right. right. now left.
    + apply elem_of_app. left. now left.
  - intros Ht. apply String.eqb_neq in Ht. unfold tooltipContent, stateHTML. rewrite Ht.
    split; intros g H.
    + cbn [app] in H.
      repeat (apply elem_of_cons in H as [H | H]; [discriminate |]).
      destruct (String.eqb (Node.type node) "distributor"); [| inversion H].
      apply elem_of_app in H as [H | H]; [apply when_elem in H as (a & _ & H); discriminate |].
      apply elem_of_cons in H as [H | H]; [discriminate |].
      simpl in H. destruct (take 2 (sortSuppliers (relationships node))) as [| e l].
      * apply list_elem_of_singleton in H. discriminate.
      * apply elem_of_cons in H as [H | H]; [discriminate |].
        apply list_elem_of_In, in_map_iff in H as (x & H & _). discriminate.
    + cbn [app] in H. apply elem_of_app in H as [H | H]; [| exact (state_no_finance _ g H)].
      destruct (String.eqb (Node.type node) "distributor"); [| inversion H].
      apply elem_of_cons in H as [H | H]; [discriminate |].
      destruct (sortSuppliers (relationships node)) as [| e l].
      * apply list_elem_of_singleton in H. discriminate.
      * apply elem_of_cons in H as [H | H]; [discriminate |].
        apply list_elem_of_In, in_map_iff in H as (x & H & _). discriminate.
Qed.

Lemma stateItem_listed entry :
  omap itemKey (stateItem entry) = if listed entry then [fst entry] else [].
Proof.
  destruct entry as [k v]. unfold stateItem, listed, counted. cbn [fst snd].
  destruct (shownAbove k); [reflexivity |].
  destruct (String.eqb k "pending_orders" || String.eqb k "in_delivery"); [reflexivity |].
  now destruct v.
Qed.

Lemma state_listed st :
  omap itemKey (List.flat_map stateItem st) = fst <$> List.filter listed st.
Proof.
  induction st as [| e st IH]; [reflexivity |].
  cbn [List.flat_map List.filter]. rewrite omap_app, stateItem_listed, IH.
  now destruct (listed e).
Qed.

Lemma stateItem_elem entry st :
  entry ∈ st -> forall i, i ∈ stateItem entry -> i ∈ List.flat_map stateItem st.
Proof.
  intros He i Hi. apply list_elem_of_In, in_flat_map. exists entry.
  split; now apply list_elem_of_In.
Qed.

(** X18.  The general rows of the details panel are, in the order of
    the state object, the entries whose key is not one of the six keys
    shown elsewhere or skipped and that are either [pending_orders] or
    [in_delivery] or hold a number, a string or a boolean; entries that
    hold an array or an object under another key get no row.  The row
    of [pending_orders] and [in_delivery] shows the length of the value
    (nothing, for a value without a length), the row of a number the
    number, and the row of a string or boolean the value itself. *)
Theorem state_rows (this : t) (node : Node.t) :
  omap itemKey (stateHTML this node) = fst <$> List.filter listed (Node.state node) /\
  (forall k v, (k, v) ∈ Node.state node -> shownAbove k = false -> counted k = true ->
     Item.Length k (valueLength v) ∈ stateHTML this node) /\
  (forall k q, (k, Value.Num q) ∈ Node.state node ->
     shownAbove k = false -> counted k = false ->
     Item.Number k q ∈ stateHTML this node) /\
  (forall k v, (k, v) ∈ Node.state node ->
     shownAbove k = false -> counted k = false ->
     (exists s, v = Value.Str s) \/ (exists b, v = Value.Bool b) ->
     Item.Text k v ∈ stateHTML this node).
Proof.
  assert (Hsub : forall i, i ∈ List.flat_map stateItem (Node.state node) ->
                           i ∈ stateHTML this node).
  { intros i Hi. unfold stateHTML. rewrite !elem_of_app. auto. }
  split; [| split; [| split]].
  - unfold stateHTML. rewrite !omap_app, state_listed.
    match goal with
    | |- omap itemKey ?a ++ omap itemKey ?b ++ _ = _ =>
        assert (E1 : omap itemKey a = []);
        [| assert (E2 : omap itemKey b = []); [| now rewrite E1, E2]]
    end.
    + now destruct (String.eqb (Node.type node) "manufacturing_center").
    + destruct (String.eqb (Node.type node) "distributor"); [| reflexivity]. cbn zeta.
      destruct (sortSuppliers (relationships node)) as [| e l]; [reflexivity |].
      apply omap_nil. apply Forall_forall. intros i Hi.
      apply elem_of_cons in Hi as [-> | Hi]; [reflexivity |].
      apply elem_of_cons in Hi as [-> | Hi]; [reflexivity |].
      apply list_elem_of_In, in_map_iff in Hi as (x & <- & _). reflexivity.
  - intros k v Hin Hs Hc. apply Hsub. apply (stateItem_elem (k, v)); [exact Hin |].
    unfold stateItem. rewrite Hs. unfold counted in Hc. rewrite Hc. now left.
  - intros k q Hin Hs Hc. apply Hsub. apply (stateItem_elem (k, Value.Num q)); [exact Hin |].
    unfold stateItem. rewrite Hs. unfold counted in Hc. rewrite Hc. now left.
  - intros k v Hin Hs Hc Hv. apply Hsub. apply (stateItem_elem (k, v)); [exact Hin |].
    unfold stateItem. rewrite Hs. unfold counted in Hc. rewrite Hc.
    destruct Hv as [[s ->] | [b ->]]; now left.
Qed.

Lemma insertSupplier_ties x l v :
  List.filter (delivered v) (insertSupplier x l) = List.filter (delivered v) (x :: l).
Proof.
  induction l as [| y l IH]; [reflexivity |].
  cbn [insertSupplier]. destruct (JS.ge _ _) eqn:E; [reflexivity |].
  apply ge_false in E. cbn [List.filter] in *. rewrite IH.
  destruct (delivered v x) eqn:Ex; [| reflexivity].
  destruct (delivered v y) eqn:Ey; [| reflexivity].
  unfold delivered in Ex, Ey. apply Qeq_bool_iff in Ex, Ey. Lqa.lra.
Qed.

Lemma sorted_fixed (l : list (string * Metrics.t)) :
  StronglySorted before l -> sortSuppliers l = l.
Proof.
  induction 1 as [| x l Hs IH Hall]; [reflexivity |].
  unfold sortSuppliers in *. simpl. rewrite IH.
  destruct l as [| y l']; [reflexivity |]. simpl.
  apply Forall_cons in Hall as [Hy _]. unfold before in Hy.
  apply ge_spec in Hy. now rewrite Hy.
Qed.

(** X19.  The ranking of the suppliers is stable: suppliers with the
    same number of orders delivered stay in the order of the
    relationships object, so that on a tie the tooltip shows the ones
    listed first.  Relationships that are in descending order already
    are shown in their order, and ranking a ranked list changes
    nothing. *)
Theorem supplier_ranking_stable (l : list (string * Metrics.t)) :
  (forall v, List.filter (delivered v) (sortSuppliers l) = List.filter (delivered v) l) /\
  (StronglySorted before l -> sortSuppliers l = l) /\
  sortSuppliers (sortSuppliers l) = sortSuppliers l.
Proof.
  split; [| split].
  - intros v. induction l as [| x l IH]; [reflexivity |].
    unfold sortSuppliers in *. cbn [foldr]. rewrite insertSupplier_ties.
    cbn [List.filter]. now rewrite IH.
  - apply sorted_fixed.
  - apply sorted_fixed, sortSuppliers_sorted.
Qed.

(** X19 at three suppliers in descending order, the first two tied. *)
Lemma supplier_ranking_stable_witness : sortSuppliers Sample.ranked = Sample.ranked.
Proof.
  apply supplier_ranking_stable.
  repeat (constructor; [| repeat (constructor; [unfold before; simpl; Lqa.lra |]); constructor ]).
  constructor.
Defined.

(** ** Labels *)

Lemma append_cons c s x : String c s +:+ x = String c (s +:+ x).
Proof. reflexivity. Qed.

(** An occurrence of [" Distributor"] that starts in [s] lies within
    [s]: the pattern has a space at its start only. *)
Lemma straddle (s rest : string) :
  s <> EmptyString -> String.prefix " Distributor" s = false ->
  String.prefix " Distributor" (s +:+ " Distributor" +:+ rest) = false.
Proof.
  intros Hne H.
  destruct s as [| c s]; [congruence |]. clear Hne.
  rewrite append_cons. cbn -[ascii_dec] in *.
  destruct (ascii_dec " " c) as [<- |]; [| reflexivity].
  do 11 (destruct s as [| c s]; [reflexivity |];
         rewrite append_cons; cbn -[ascii_dec] in *;
         match goal with |- context [ascii_dec ?a c] => destruct (ascii_dec a c) as [<- |] end;
         [| reflexivity]).
  destruct s; discriminate.
Qed.

Lemma remove_first_absent pat s : occurs pat s = false -> Str.remove_first pat s = s.
Proof.
  induction s as [| c s IH]; intros H.
  - simpl in *. apply orb_false_iff in H as [H _]. rewrite H. reflexivity.
  - cbn [occurs] in H. apply orb_false_iff in H as [H1 H2].
    cbn [Str.remove_first]. rewrite H1. f_equal. now apply IH.
Qed.

Lemma prefix_append (p r : string) : String.prefix p (p +:+ r) = true.
Proof.
  induction p as [| a p IH]; [now destruct r |].
  rewrite append_cons. cbn -[ascii_dec]. now destruct (ascii_dec a a).
Qed.

Lemma drop_append (p r : string) : Str.drop (String.length p) (p +:+ r) = r.
Proof. induction p as [| a p IH]; [now destruct r | exact IH]. Qed.

Lemma remove_first_unfold pat s :
  Str.remove_first pat s
  = if String.prefix pat s then Str.drop (String.length pat) s
    else match s with
         | EmptyString => EmptyString
         | String c s' => String c (Str.remove_first pat s')
         end.
Proof. now destruct s. Qed.

Lemma remove_first_suffix city rest :
  occurs " Distributor" city = false ->
  Str.remove_first " Distributor" (city +:+ " Distributor" +:+ rest) = city +:+ rest.
Proof.
  induction city as [| c city IH]; intros H.
  - change (EmptyString +:+ " Distributor" +:+ rest) with (" Distributor" +:+ rest).
    now rewrite remove_first_unfold, prefix_append, drop_append.
  - cbn [occurs] in H. apply orb_false_iff in H as [H1 H2].
    change (String c city +:+ " Distributor" +:+ rest)
      with (String c (city +:+ " Distributor" +:+ rest)).
    cbn [Str.remove_first].
    pose proof (straddle (String c city) rest ltac:(discriminate) H1) as Hs.
    change (String c city +:+ " Distributor" +:+ rest)
      with (String c (city +:+ " Distributor" +:+ rest)) in Hs.
    rewrite Hs. change (String c city +:+ rest) with (String c (city +:+ rest)).
    f_equal. now apply IH.
Qed.

Lemma first_word_spec s :
  exists rest,
    s = Str.first_word s +:+ rest /\
    occurs " " (Str.first_word s) = false /\
    (rest = EmptyString \/ exists r, rest = String " " r).
Proof.
  induction s as [| c s (rest & E & Ho & Hr)].
  - exists EmptyString. repeat split. now left.
  - cbn [Str.first_word]. destruct (Ascii.eqb_spec c " ") as [-> | Hc].
    + exists (String " " s). repeat split. right. eauto.
    + exists rest. split; [rewrite append_cons; now f_equal |]. split; [| exact Hr].
      cbn [occurs]. rewrite Ho, orb_false_r.
      cbn -[ascii_dec]. destruct (ascii_dec " " c) as [Heq |]; [congruence | reflexivity].
Qed.

(** X20.  The label of a manufacturing centre is the part of its name
    before the first space (the whole name, when it has no space).  The
    label of any other node is its name without the first occurrence of
    [" Distributor"]: the name itself when it has none, and the city
    for a name made of a city, which does not itself contain
    [" Distributor"], followed by [" Distributor"]; what follows
    that in the name is kept. *)
Theorem label_text (d : Node.t) :
  (Node.type d = "manufacturing_center" ->
   exists rest,
     Node.name d = labelText d +:+ rest /\
     occurs " " (labelText d) = false /\
     (rest = EmptyString \/ exists r, rest = String " " r)) /\
  (Node.type d <> "manufacturing_center" ->
   (occurs " Distributor" (Node.name d) = false -> labelText d = Node.name d) /\
   (forall city rest,
      Node.name d = city +:+ " Distributor" +:+ rest ->
      occurs " Distributor" city = false ->
      labelText d = city +:+ rest)).
Proof.
  unfold labelText. split; intros Ht.
  - rewrite Ht. change (String.eqb "manufacturing_center" "manufacturing_center") with true.
    cbn iota. apply first_word_spec.
  - apply String.eqb_neq in Ht. rewrite Ht. split.
    + apply remove_first_absent.
    + intros city rest -> H. now apply remove_first_suffix.
Qed.

(** X20 at New York: the label is the city. *)
Lemma label_text_witness : labelText Sample.new_york = "New York".
Proof.
  destruct (label_text Sample.new_york) as [_ H].
  destruct H as [_ H]; [discriminate |].
  exact (H "New York" EmptyString eq_refl eq_refl).
Defined.

(** ** The radii as shares *)

Lemma Qsum_scaled (f : Node.t -> Q) (g : Node.t -> Q) (c : Q) (l : list Node.t) :
  (forall n, n ∈ l -> g n == f n * c) -> Qsum (g <$> l) == Qsum (f <$> l) * c.
Proof.
  induction l as [| n l IH]; intros H.
  - change (0 == 0 * c). ring.
  - change (g n + Qsum (g <$> l) == (f n + Qsum (f <$> l)) * c).
    rewrite IH by (intros m Hm; apply H; now right).
    rewrite (H n) by now left. ring.
Qed.

(** X22.  The radii encode shares that add up to the whole range: when
    the total production rate is positive, what the radii of the
    manufacturing centres exceed 4 by adds up to 8, and when the total
    of the orders placed is positive, what the radii of the
    distributors exceed 3 by adds up to 6. *)
Theorem radii_share_the_range (ns : list Node.t) :
  (0 < totalProduction ns ->
   Qsum ((fun d => nodeRadius ns d - 4) <$> ofType "manufacturing_center" ns) == 8) /\
  (0 < totalOrders ns ->
   Qsum ((fun d => nodeRadius ns d - 3) <$> ofType "distributor" ns) == 6).
Proof.
  split; intros Hpos.
  - rewrite (Qsum_scaled
               (fun d => JS.or_num (num_field "production_rate" (Node.state d)) 0)
               _ (8 / totalProduction ns)).
    + assert (E : Qsum ((fun d => JS.or_num (num_field "production_rate" (Node.state d)) 0)
                          <$> ofType "manufacturing_center" ns) == totalProduction ns).
      { unfold totalProduction, total. rewrite fold_left_sum. unfold ofType. ring. }
      rewrite E. field. Lqa.lra.
    + intros n Hn. unfold ofType in Hn. apply list_elem_of_In, filter_In in Hn as [_ Ht].
      unfold nodeRadius. rewrite Ht. apply gt_spec in Hpos. rewrite Hpos.
      field. apply gt_spec in Hpos. Lqa.lra.
  - rewrite (Qsum_scaled
               (fun d => JS.or_num (num_field "orders_placed" (Node.state d)) 0)
               _ (6 / totalOrders ns)).
    + assert (E : Qsum ((fun d => JS.or_num (num_field "orders_placed" (Node.state d)) 0)
                          <$> ofType "distributor" ns) == totalOrders ns).
      { unfold totalOrders, total. rewrite fold_left_sum. unfold ofType. ring. }
      rewrite E. field. Lqa.lra.
    + intros n Hn. unfold ofType in Hn. apply list_elem_of_In, filter_In in Hn as [_ Ht].
      apply String.eqb_eq in Ht.
      unfold nodeRadius. rewrite Ht.
      change (String.eqb "distributor" "manufacturing_center") with false.
      apply gt_spec in Hpos. rewrite Hpos.
      field. apply gt_spec in Hpos. Lqa.lra.
Qed.

(** X22 at Chicago, New York and Boston: the radii of the two
    distributors exceed 3 by 6 in all. *)
Lemma radii_share_the_range_witness :
  Qsum ((fun d => nodeRadius [Sample.chicago; Sample.new_york; Sample.boston] d - 3)
          <$> ofType "distributor" [Sample.chicago; Sample.new_york; Sample.boston]) == 6.
Proof.
  apply (radii_share_the_range [Sample.chicago; Sample.new_york; Sample.boston]).
  vm_compute. reflexivity.
Defined.

(** ** A snapshot applied a second time *)

Section JoinFixed.

Context {D A : Type}.
Variable key : D -> string.

Lemma appendEnter_none_enter (init : D -> A) ds : forall i u dom,
  Forall is_Some u -> appendEnter init i ds u dom = dom.
Proof.
  induction ds as [| d ds IH]; intros i u dom Hu; [reflexivity |].
  destruct u as [| [j |] u']; [reflexivity | |].
  - apply Forall_cons in Hu as [_ Hu]. simpl. now apply IH.
  - apply Forall_cons in Hu as [[? H] _]. discriminate.
Qed.

Lemma NoDup_key_inj (ds : list D) x y :
  NoDup (key <$> ds) -> x ∈ ds -> y ∈ ds -> key x = key y -> x = y.
Proof.
  induction ds as [| d ds IH]; intros Hnd Hx Hy E; [inversion Hx |].
  rewrite fmap_cons in Hnd. apply NoDup_cons in Hnd as [Hnotin Hnd].
  apply elem_of_cons in Hx as [-> | Hx]; apply elem_of_cons in Hy as [-> | Hy].
  - reflexivity.
  - exfalso. apply Hnotin. rewrite E. apply list_elem_of_fmap. eauto.
  - exfalso. apply Hnotin. rewrite <- E. apply list_elem_of_fmap. eauto.
  - now apply IH.
Qed.

Lemma omap_imap_id {B C : Type} (f : nat -> B -> C) (r : C -> option B) (l : list B) :
  (forall j x, l !! j = Some x -> r (f j x) = Some x) ->
  omap r (imap f l) = l.
Proof.
  revert f. induction l as [| x l IH]; intros f H; [reflexivity |].
  rewrite imap_cons. csimpl. rewrite (H 0%nat x eq_refl). f_equal.
  apply IH. intros j y Hy. apply (H (S j) y Hy).
Qed.

(** A layer that carries the data already, each key once and every
    element with the attributes the setters give it, is left as it is
    by a render. *)
Lemma reconcile_fixed init style (group : list (Elem D A)) ds :
  NoDup (key <$> ds) ->
  NoDup (groupKeys key group) ->
  (forall e, e ∈ group -> datum e ∈ ds) ->
  (forall d, d ∈ ds -> key d ∈ groupKeys key group) ->
  (forall e i, e ∈ group -> style i (datum e) (attrs e) = attrs e) ->
  reconcile key init style true group ds = group.
Proof.
  intros Hnd Hng Hin Hcov Hstyle. unfold reconcile.
  set (u := updateGroup (bindKey key group ds)).
  assert (Hu : Forall is_Some u).
  { unfold u. rewrite bindKey_update. apply bindData_all_update; [assumption |].
    intros d Hd. rewrite nodeByKeyValue_first. apply firstIndex_is_Some. now apply Hcov. }
  rewrite appendEnter_none_enter by assumption.
  apply omap_imap_id. intros j e He.
  assert (Hine : e ∈ group) by (eapply list_elem_of_lookup_2; eassumption).
  assert (Hj : j ∈ targets u).
  { unfold u. rewrite bindKey_update. apply targets_iff.
    exists (datum e). split; [now apply Hin |].
    rewrite nodeByKeyValue_first. now apply firstIndex_NoDup. }
  assert (Hlen : length u = length ds).
  { unfold u. rewrite bindKey_update. apply bindData_length. }
  destruct (boundTo_is_Some j ds 0 u Hlen Hj) as [[i d] Eb].
  simpl. rewrite Eb.
  apply boundTo_Some in Eb as (k & _ & Hd & Hk). unfold u in Hk.
  rewrite bindKey_update in Hk.
  apply bindData_lookup in Hk as (d' & Hd' & Hm).
  assert (d' = d) by congruence. subst d'.
  rewrite nodeByKeyValue_first in Hm.
  apply firstIndex_Some in Hm as (e1 & He1 & Hk1).
  assert (e1 = e) by congruence. subst e1.
  assert (Ed : d = datum e).
  { apply (NoDup_key_inj ds); [assumption | | now apply Hin | congruence].
    eapply list_elem_of_lookup_2; eassumption. }
  subst d. rewrite Hstyle by assumption. now destruct e.
Qed.

End JoinFixed.

Lemma set_tooltip_same (y : t) : set_tooltip (tooltip y) y = y.
Proof. now destruct y. Qed.

Lemma set_panel_same (y : t) : set_panel (panel y) y = y.
Proof. now destruct y. Qed.

Lemma tooltipRefreshed_set (y : t) :
  tooltipRefreshed y = set_tooltip (tooltip (tooltipRefreshed y)) y.
Proof.
  unfold tooltipRefreshed.
  destruct (hoveredNode y); [| symmetry; apply set_tooltip_same].
  destruct (JS.find _ _); [| symmetry; apply set_tooltip_same].
  destruct (tooltip y) eqn:E; [reflexivity |]. symmetry. apply set_tooltip_same.
Qed.

Lemma detailsRefreshed_set (y : t) :
  detailsRefreshed y = set_panel (panel (detailsRefreshed y)) y.
Proof.
  unfold detailsRefreshed.
  destruct (selectedNode y); [| symmetry; apply set_panel_same].
  destruct (JS.find _ _); [| symmetry; apply set_panel_same].
  destruct (panel y) eqn:E; [reflexivity |]. symmetry. apply set_panel_same.
Qed.

Lemma tooltipRefreshed_fixed (y : t) :
  tooltip (tooltipRefreshed y) = tooltip y -> tooltipRefreshed y = y.
Proof. intros H. rewrite tooltipRefreshed_set, H. apply set_tooltip_same. Qed.

Lemma detailsRefreshed_fixed (y : t) :
  panel (detailsRefreshed y) = panel y -> detailsRefreshed y = y.
Proof. intros H. rewrite detailsRefreshed_set, H. apply set_panel_same. Qed.

(** Whether a refresh throws is the same after a refresh that
    returned. *)
Lemma fails_refreshed (x : t) :
  tooltipFails (detailsRefreshed (tooltipRefreshed x)) = tooltipFails x /\
  detailsFails (detailsRefreshed (tooltipRefreshed x)) = detailsFails x.
Proof.
  destruct (tooltipRefreshed_frame x) as (_ & Tn & _ & _ & _ & _ & _ & Th & Ts & Tp).
  destruct (detailsRefreshed_frame (tooltipRefreshed x))
    as (_ & Dn & _ & _ & _ & _ & _ & Dh & Ds & Dt).
  unfold tooltipFails, detailsFails.
  rewrite Dh, Th, Ds, Ts, Dn, Tn, Dt, tooltipRefreshed_tooltip, detailsRefreshed_panel.
  rewrite Ts, Tn, Tp. split.
  - destruct (hoveredNode x) as [h |]; [| reflexivity].
    destruct (JS.find _ (nodes x)) as [u |]; [| reflexivity].
    now destruct (tooltip x).
  - destruct (selectedNode x) as [s |]; [| reflexivity].
    destruct (JS.find _ (nodes x)) as [u |]; [| reflexivity].
    now destruct (panel x).
Qed.

(** Refreshing the tooltip and the panel a second time changes nothing. *)
Lemma refreshed_again (x : t) :
  detailsRefreshed (tooltipRefreshed (detailsRefreshed (tooltipRefreshed x)))
  = detailsRefreshed (tooltipRefreshed x).
Proof.
  destruct (tooltipRefreshed_frame x) as (_ & Tn & _ & _ & _ & _ & _ & Th & Ts & Tp).
  destruct (detailsRefreshed_frame (tooltipRefreshed x))
    as (_ & Dn & _ & _ & _ & _ & _ & Dh & Ds & Dt).
  set (y := detailsRefreshed (tooltipRefreshed x)) in *.
  assert (Et : tooltipRefreshed y = y).
  { apply tooltipRefreshed_fixed.
    rewrite tooltipRefreshed_tooltip, Dh, Th, Dn, Tn, Dt, tooltipRefreshed_tooltip.
    destruct (hoveredNode x) as [h |]; [| reflexivity].
    destruct (JS.find _ (nodes x)) as [u |]; [| reflexivity].
    destruct (tooltip x) as [c |]; [| reflexivity]. cbn. f_equal.
    apply tooltipContent_nodes. now rewrite Dn, Tn. }
  rewrite Et. apply detailsRefreshed_fixed.
  assert (Hpy : panel y
                = match selectedNode x with
                  | Some s =>
                      match JS.find (fun n => String.eqb (Node.id n) (Node.id s)) (nodes x) with
                      | Some u => (fun _ => details (tooltipRefreshed x) u) <$> panel x
                      | None => panel x
                      end
                  | None => panel x
                  end).
  { unfold y. now rewrite detailsRefreshed_panel, Ts, Tn, Tp. }
  rewrite detailsRefreshed_panel, Ds, Ts, Dn, Tn, Hpy.
  destruct (selectedNode x) as [s |]; [| reflexivity].
  destruct (JS.find _ (nodes x)) as [u |]; [| reflexivity].
  destruct (panel x) as [p |]; [| reflexivity]. cbn. f_equal.
  apply details_nodes. exact Dn.
Qed.

Lemma set_snapshot_same (y : t) :
  set_snapshot (nodes y) (edges y) (isRunning y) (currentTime y) y = y.
Proof. now destruct y. Qed.

Lemma set_lines_same (y : t) : set_lines (lines y) y = y.
Proof. now destruct y. Qed.

Lemma set_flows_same (y : t) : set_flows (flows y) y = y.
Proof. now destruct y. Qed.

Lemma set_groups_same (y : t) : set_groups (groups y) y = y.
Proof. now destruct y. Qed.

Lemma set_labels_same (y : t) : set_labels (labels y) y = y.
Proof. now destruct y. Qed.

Lemma isRunning_refreshed (x : t) :
  isRunning (detailsRefreshed (tooltipRefreshed x)) = isRunning x.
Proof.
  unfold detailsRefreshed, tooltipRefreshed.
  repeat match goal with
         | |- context [match ?c with _ => _ end] => destruct c eqn:?; cbn
         end; reflexivity.
Qed.

Lemma placeFlow_again projection (x : t) d a :
  placeFlow projection x d (placeFlow projection x d a) = placeFlow projection x d a.
Proof. unfold placeFlow. now destruct (_ || _). Qed.

Lemma groupStyle_again projection (x y : t) d a :
  nodes x = nodes y -> selectedNode x = selectedNode y ->
  groupStyle projection x d (groupStyle projection y d a) = groupStyle projection y d a.
Proof. intros En Es. unfold groupStyle, isSelected. cbn. now rewrite En, Es. Qed.

Section Idempotent.

Variable projection : Q * Q -> option (Q * Q).

(** A layer rendered from the data is left as it is by a second render
    whose setters give its elements the attributes they have. *)
Lemma layer_fixed {D A : Type} (key : D -> string) init style init' style'
    (group : list (Elem D A)) ds :
  NoDup (key <$> ds) ->
  (forall e i, e ∈ reconcile key init style true group ds ->
               style' i (datum e) (attrs e) = attrs e) ->
  reconcile key init' style' true (reconcile key init style true group ds) ds
  = reconcile key init style true group ds.
Proof.
  intros Hnd Hstyle.
  pose proof (reconcile_data key init style group ds) as Hd.
  pose proof (reconcile_keys key init style group ds) as Hk.
  apply reconcile_fixed.
  - exact Hnd.
  - now rewrite Hk.
  - intros e He. rewrite <- Hd. apply list_elem_of_fmap. eauto.
  - intros d Hin. rewrite Hk. apply list_elem_of_fmap. eauto.
  - intros e i He. now apply Hstyle.
Qed.

(** X23.  Applying a snapshot a second time leaves the whole map as the
    first application left it: the stored data, the elements of the
    four layers with their attributes and their order, the hover and
    the selection, the tooltip and the panel.  This holds when the node
    ids, the edge keys and the order ids of the snapshot are pairwise
    distinct and the first application returned. *)
Theorem update_idempotent (state : Snapshot.t) (this : t) :
  NoDup (nodeKey <$> nodesOf state) ->
  NoDup (edgeKey <$> edgesOf state) ->
  NoDup (Particle.key <$> deliveryParticles (edgesOf state)) ->
  throws (update projection state) this = false ->
  after (update projection state) (after (update projection state) this)
  = after (update projection state) this.
Proof.
  intros Hn He Hp Hok.
  destruct (update_after projection state this)
    as (En & Ee & Et & Hl & Hf & Hh & Hs & Hc).
  destruct (update_after projection state (after (update projection state) this))
    as (_ & _ & _ & _ & _ & _ & _ & Hc').
  destruct (update_returned projection state this Hok) as (Eu & Htf & Hdf & Hthis).
  cbn zeta in Hl, Hf, Hc, Hc', Htf, Hdf, Hthis.
  rewrite Eu in Hc, Hc'.
  destruct Hc as (_ & Hg & Hb & _). destruct Hc' as (_ & _ & _ & Hthis').
  set (r := nodesRendered projection (edgesRendered projection (store state this))) in *.
  set (this' := after (update projection state) this) in *.
  assert (Er : isRunning this' = JS.or_else (Snapshot.running state) false).
  { rewrite Hthis. apply isRunning_refreshed. }
  assert (ES : store state this' = this').
  { unfold store. fold (nodesOf state). fold (edgesOf state).
    rewrite <- En, <- Ee, <- Er, <- Et. apply set_snapshot_same. }
  rewrite ES in Hthis'.
  assert (EL : renderedLines projection this' = lines this').
  { unfold renderedLines. rewrite Ee, Hl. unfold renderedLines.
    change (lines (store state this)) with (lines this).
    change (edges (store state this)) with (edgesOf state).
    apply layer_fixed; [exact He |].
    intros l i Hin. apply reconcile_styled in Hin as (j & a & ->).
    apply lineStyle_nodes. exact En. }
  assert (E1 : set_lines (renderedLines projection this') this' = this').
  { rewrite EL. apply set_lines_same. }
  assert (EF : renderedFlows projection this' = flows this').
  { unfold renderedFlows. rewrite Ee, Hf.
    cbn [flows edgesRendered set_flows]. unfold renderedFlows.
    change (flows (set_lines _ (store state this))) with (flows this).
    change (edges (set_lines _ (store state this))) with (edgesOf state).
    apply layer_fixed; [exact Hp |].
    intros c i Hin. apply reconcile_styled in Hin as (j & a & ->).
    rewrite (placeFlow_state projection this'
               (set_lines (renderedLines projection (store state this)) (store state this)))
      by (now rewrite ?En, ?Et).
    apply placeFlow_again. }
  assert (E2 : edgesRendered projection this' = this').
  { unfold edgesRendered. rewrite E1, EF. apply set_flows_same. }
  rewrite E2 in Hthis'.
  assert (EG : renderedGroups projection this' = groups this').
  { unfold renderedGroups. rewrite En, Hg. unfold renderedGroups.
    change (groups (edgesRendered projection (store state this))) with (groups this).
    change (nodes (edgesRendered projection (store state this))) with (nodesOf state).
    apply layer_fixed; [exact Hn |].
    intros g i Hin. apply reconcile_styled in Hin as (j & a & ->).
    apply groupStyle_again; [exact En | exact Hs]. }
  assert (EB : renderedLabels projection this' = labels this').
  { unfold renderedLabels. rewrite En, Hb.
    unfold renderedLabels.
    change (labels (edgesRendered projection (store state this))) with (labels this).
    change (nodes (edgesRendered projection (store state this))) with (nodesOf state).
    apply layer_fixed; [exact Hn |].
    intros l i Hin. apply reconcile_styled in Hin as (j & a & ->). reflexivity. }
  assert (E3 : nodesRendered projection this' = this').
  { unfold nodesRendered. rewrite EB, EG, set_groups_same. apply set_labels_same. }
  rewrite E3 in Hthis'. rewrite Hthis'. rewrite Hthis.
  destruct (fails_refreshed r) as [-> ->]. rewrite Htf, Hdf. apply refreshed_again.
Qed.

End Idempotent.

(** X23 at the watched map, with its tooltip and its panel, and the
    later snapshot. *)
Lemma update_idempotent_witness :
  after (update Sample.projection Sample.two_nodes_later)
        (after (update Sample.projection Sample.two_nodes_later) Sample.watched)
  = after (update Sample.projection Sample.two_nodes_later) Sample.watched.
Proof.
  apply update_idempotent;
    first [apply (bool_decide_unpack _); vm_compute; exact I | vm_compute; reflexivity].
Defined.

(** ** Suppliers or none *)

Lemma insertSupplier_cons x l : exists y l', insertSupplier x l = y :: l'.
Proof. destruct l as [| z l]; simpl; [eauto |]. destruct (JS.ge _ _); eauto. Qed.

Lemma sortSuppliers_cons x l : exists y l', sortSuppliers (x :: l) = y :: l'.
Proof. unfold sortSuppliers. simpl. apply insertSupplier_cons. Qed.

Lemma tipHistory_rows (this : t) l :
  tipHistory (map (fun e => Tip.TopSupplier (supplierRow this e)) l) = [].
Proof. induction l as [| e l IH]; [reflexivity | exact IH]. Qed.

Lemma panelHistory_rows (this : t) l :
  panelHistory (map (fun e => Item.SupplierRow (supplierColor (snd e)) (supplierRow this e)) l)
  = [].
Proof. induction l as [| e l IH]; [reflexivity | exact IH]. Qed.

Lemma panelHistory_state st : panelHistory (List.flat_map stateItem st) = [].
Proof.
  induction st as [| [k v] st IH]; [reflexivity |].
  cbn [List.flat_map]. unfold panelHistory in *. rewrite omap_app, IH, app_nil_r.
  unfold stateItem. destruct (shownAbove k); [reflexivity |].
  destruct (_ || _); [reflexivity |]. now destruct v.
Qed.

(** X24.  The tooltip and the panel of a distributor announce its
    suppliers exactly once: with the heading of the supplier list when
    the node has supplier relationships, and with the note that there
    is no history when the relationships are missing or empty.  For a
    node of another type they show neither. *)
Theorem supplier_history_shown (this : t) (node : Node.t) :
  tipHistory (tooltipContent this node)
  = (if String.eqb (Node.type node) "distributor" then [hasSuppliers node] else []) /\
  panelHistory (stateHTML this node)
  = (if String.eqb (Node.type node) "distributor" then [hasSuppliers node] else []).
Proof.
  unfold hasSuppliers. split.
  - unfold tooltipContent, tipHistory. rewrite !omap_app.
    assert (E1 : omap (fun l => match l with
                                | Tip.TopSuppliers => Some true
                                | Tip.NoHistory => Some false
                                | _ => None
                                end)
                   (if String.eqb (Node.type node) "manufacturing_center"
                    then when (num_field "inventory" (Node.state node)) Tip.Inventory
                         ++ when (num_field "production_rate" (Node.state node)) Tip.Production
                         ++ when (length_field "pending_orders" (Node.state node))
                                 Tip.PendingOrders
                         ++ [Tip.Finance (financial node)]
                    else []) = []).
    { destruct (String.eqb (Node.type node) "manufacturing_center"); [| reflexivity].
      destruct (num_field "inventory" _), (num_field "production_rate" _),
        (length_field "pending_orders" _); reflexivity. }
    rewrite E1. cbn [omap list_omap app].
    destruct (String.eqb (Node.type node) "distributor"); [| reflexivity].
    rewrite !omap_app.
    assert (E2 : omap (fun l => match l with
                                | Tip.TopSuppliers => Some true
                                | Tip.NoHistory => Some false
                                | _ => None
                                end)
                   (when (num_field "orders_placed" (Node.state node)) Tip.OrdersPlaced) = []).
    { now destruct (num_field "orders_placed" _). }
    rewrite E2. cbn [omap list_omap app]. cbn zeta.
    destruct (relationships node) as [| x l]; [reflexivity |].
    destruct (sortSuppliers_cons x l) as (y & l' & ->).
    cbn [take]. exact (f_equal (cons true) (tipHistory_rows this (y :: take 1 l'))).
  - unfold stateHTML, panelHistory. rewrite !omap_app.
    fold (panelHistory (List.flat_map stateItem (Node.state node))).
    rewrite panelHistory_state, app_nil_r.
    destruct (String.eqb (Node.type node) "manufacturing_center");
      cbn [omap list_omap app];
      (destruct (String.eqb (Node.type node) "distributor"); [| reflexivity]);
      cbn zeta;
      (destruct (relationships node) as [| x l]; [reflexivity |]);
      destruct (sortSuppliers_cons x l) as (y & l' & ->);
      exact (f_equal (cons true) (panelHistory_rows this (y :: l'))).
Qed.
